(** * Glide ghost navigator: a shallow embedding of the execution engine

    The development follows [src/content/ghostNavigator.ts] together with
    [src/shared/cancellationToken.ts] and the types of [src/types/manifest.ts].

    Conventions of the embedding.
    - A JavaScript string is a [string] of 8-bit code units (Latin-1).
    - A JavaScript [number] used as a counter or an index is a [nat]; a
      time stamp or a duration in milliseconds is a [Z]; a similarity score
      is a rational [Q] (the quotient of two small integers, compared with
      the literals 0.9 and 0.6).
    - An [async] function is a computation in the monad [M]: it threads the
      [World] (module variables, [chrome.storage.local], the document, the
      clock) and either returns or throws.  The page and the host act at
      the suspension points ([wait], storage calls) and synchronously on
      dispatched events, through an [Environment].
    - A plan object is passed by value and handed back with the result,
      so that the writes of the engine to [plan.currentStep] and
      [plan.status] stay visible; the state put into storage is a copy,
      as [chrome.storage] makes one.
    - The browser's selector engine and regular expressions are parameters
      of the [Environment]; the selectors whose meaning the properties
      rest on ([label], [input, select, textarea], the ghost class) are
      spelled out on the document tree.
    - An element reference is the identity [nid] of the element object;
      reads and writes through it reach the element where it sits in the
      document, and an element the page has removed meanwhile reads as
      absent.
    - The durable slot is written by this module only, and a page
      navigation that tears the context down is outside the model: every
      computation here runs in one context that stays alive. *)

From Stdlib Require Import String Ascii List ZArith QArith Lia Bool.
From stdpp Require Import gmap strings pretty.

Local Open Scope string_scope.
Local Open Scope list_scope.

(** ** JavaScript string primitives *)

Module Js.

(** [WhiteSpace] and [LineTerminator] code units below 256: the set that
    both [String.prototype.trim] and the regular expression class [\s]
    use. *)
Definition is_ws (c : ascii) : bool :=
  let n := nat_of_ascii c in
  (((9 <=? n) && (n <=? 13)) || (n =? 32) || (n =? 160))%nat.

Definition lower_char (c : ascii) : ascii :=
  let n := nat_of_ascii c in
  if ((65 <=? n) && (n <=? 90))%nat then ascii_of_nat (n + 32)
  else if ((192 <=? n) && (n <=? 222) && negb (n =? 215))%nat then ascii_of_nat (n + 32)
  else c.

Fixpoint toLowerCase (s : string) : string :=
  match s with
  | EmptyString => EmptyString
  | String c s' => String (lower_char c) (toLowerCase s')
  end.

Fixpoint trimStart (s : string) : string :=
  match s with
  | EmptyString => EmptyString
  | String c s' => if is_ws c then trimStart s' else s
  end.

Fixpoint trimEnd (s : string) : string :=
  match s with
  | EmptyString => EmptyString
  | String c s' =>
      let r := trimEnd s' in
      if is_ws c && String.eqb r EmptyString then EmptyString else String c r
  end.

Definition trim (s : string) : string := trimEnd (trimStart s).

Definition startsWith (s p : string) : bool := String.prefix p s.

(** [s.includes(t)] *)
Fixpoint includes (s t : string) : bool :=
  if String.prefix t s then true
  else match s with
       | EmptyString => false
       | String _ s' => includes s' t
       end.

(** [s.slice(n)] for [n >= 0] *)
Fixpoint slice (n : nat) (s : string) : string :=
  match n, s with
  | O, _ => s
  | S k, EmptyString => EmptyString
  | S k, String _ s' => slice k s'
  end.

(** [s.split(sep)] for a one-character separator *)
Fixpoint split_on (sep : ascii) (cur : string) (s : string) : list string :=
  match s with
  | EmptyString => [cur]
  | String c s' =>
      if Ascii.eqb c sep then cur :: split_on sep EmptyString s'
      else split_on sep (cur ++ String c EmptyString) s'
  end.

Definition split (sep : ascii) (s : string) : list string :=
  split_on sep EmptyString s.

(** [s.split(/\s+/)]: the pieces between maximal runs of white space;
    a leading or trailing run leaves an empty piece, and the empty
    string splits into one empty piece. *)
Fixpoint split_ws_from (prev_ws : bool) (cur : string) (s : string) : list string :=
  match s with
  | EmptyString => [cur]
  | String c s' =>
      if is_ws c then
        if prev_ws then split_ws_from true cur s'
        else cur :: split_ws_from true EmptyString s'
      else split_ws_from false (cur ++ String c EmptyString) s'
  end.

Definition split_ws (s : string) : list string :=
  split_ws_from false EmptyString s.

(** [xs.join(sep)] *)
Definition join (sep : string) (xs : list string) : string :=
  String.concat sep xs.

(** truthiness of a string and of an optional string *)
Definition truthy (s : string) : bool := negb (String.eqb s EmptyString).

Definition truthy_opt (o : option string) : bool :=
  match o with
  | Some s => truthy s
  | None => false
  end.

(** [o || d] on an optional string *)
Definition or_else (o : option string) (d : string) : string :=
  match o with
  | Some s => if truthy s then s else d
  | None => d
  end.

(** [`${n}`] for a non-negative integer *)
Definition show_nat (n : nat) : string := pretty n.

End Js.

(** ** Similarity of two strings (lines 441-460) *)

Definition related_words (aWord bWord : string) : bool :=
  Js.includes bWord aWord || Js.includes aWord bWord.

Definition count_matched (aWords bWords : list string) : nat :=
  fold_left
    (fun matchedWords aWord =>
       if existsb (related_words aWord) bWords then S matchedWords else matchedWords)
    aWords 0%nat.

Definition ratio (n d : nat) : Q :=
  (inject_Z (Z.of_nat n) / inject_Z (Z.of_nat d))%Q.

Definition stringSimilarity (a b : string) : Q :=
  let aLower := Js.trim (Js.toLowerCase a) in
  let bLower := Js.trim (Js.toLowerCase b) in
  if String.eqb aLower bLower then 1%Q
  else if Js.includes aLower bLower || Js.includes bLower aLower then (9 # 10)%Q
  else
    let aWords := Js.split_ws aLower in
    let bWords := Js.split_ws bLower in
    let matchedWords := count_matched aWords bWords in
    ratio matchedWords (Nat.max (length aWords) (length bWords)).

(** ** Plans, steps and results ([src/types/manifest.ts], [src/types/index.ts]) *)

Inductive ExecutionStepType :=
| navigate | click | wait_ | fill | select | check | submit | notify | find_row
| other_type (name : string).

Record ExecutionStep := {
  type : ExecutionStepType;
  target : option string;
  value : option string;
  waitFor : option string;
  errorSelector : option string;
  message : option string;
  action : option string;
}.

Inductive PlanStatus :=
| pending | confirmed | executing | paused | completed | error.

Record ExecutionPlan := {
  plan_id : string;
  intent : string;
  confidence : Q;
  entities : gmap string string;
  steps : list ExecutionStep;
  confirmMessage : string;
  currentStep : nat;
  status : PlanStatus;
  plan_error : option string;
}.

Record ExecutionState := {
  plan : ExecutionPlan;
  startedAt : Z;
  lastUpdated : Z;
}.

Record ExecutionResult := {
  success : bool;
  completedSteps : nat;
  totalSteps : nat;
  res_message : string;
  errors : option (list string);
  navigating : bool;
  cancelled : bool;
}.

(** What a step executor returns; an absent flag is [false]. *)
Record StepResult := {
  sr_success : bool;
  needsNavigation : bool;
  sr_error : option string;
  fatal : bool;
}.

Record NavRoute := {
  path : string;
  description : string;
  selector : string;
}.

(** Only the navigation map of the manifest is read by the engine; its
    entries are kept in insertion order, as [Object.entries] yields them. *)
Record GlideManifest := {
  app_name : string;
  navigation : list (string * NavRoute);
}.

Definition set_currentStep (n : nat) (p : ExecutionPlan) : ExecutionPlan :=
  {| plan_id := plan_id p; intent := intent p; confidence := confidence p;
     entities := entities p; steps := steps p; confirmMessage := confirmMessage p;
     currentStep := n; status := status p; plan_error := plan_error p |}.

Definition set_status (s : PlanStatus) (p : ExecutionPlan) : ExecutionPlan :=
  {| plan_id := plan_id p; intent := intent p; confidence := confidence p;
     entities := entities p; steps := steps p; confirmMessage := confirmMessage p;
     currentStep := currentStep p; status := s; plan_error := plan_error p |}.

Definition is_executing (s : PlanStatus) : bool :=
  match s with executing => true | _ => false end.

(** ** The document *)

Record OptionData := {
  opt_value : string;
  opt_text : string;
  opt_disabled : bool;
}.

(** An element object.  [nid] is the identity of the object: a reference
    held by the engine is the [nid], and a write through the reference
    reaches the element wherever it currently sits in the document. *)
Record Element := {
  nid : nat;
  tagName : string;
  el_id : string;
  classList : list string;
  el_type : string;
  htmlFor : string;
  el_value : string;
  checked : bool;
  el_options : list OptionData;
  attributes : list (string * string);
}.

#[warnings="-register-all"]
Inductive Node :=
| TextNode (data : string)
| ElementNode (e : Element) (childNodes : list Node).

Section NodeInduction.
Variable P : Node -> Prop.
Hypothesis Htext : forall data, P (TextNode data).
Hypothesis Helem : forall e kids, Forall P kids -> P (ElementNode e kids).

Fixpoint Node_tree_ind (n : Node) : P n :=
  match n with
  | TextNode data => Htext data
  | ElementNode e kids =>
      Helem e kids
        ((fix go (l : list Node) : Forall P l :=
            match l with
            | [] => List.Forall_nil P
            | k :: l' => List.Forall_cons P k l' (Node_tree_ind k) (go l')
            end) kids)
  end.
End NodeInduction.

Definition GHOST_CLASS : string := "glide-ghost-active".
Definition TYPING_DELAY : Z := 50.
Definition ACTION_DELAY : Z := 300.
Definition EXECUTION_STATE_KEY : string := "glide_execution_state".

Module Dom.

(** Element nodes of a subtree in document order, each with its parent
    element node. *)
Fixpoint walk (parent : option Node) (n : Node) : list (Node * option Node) :=
  match n with
  | TextNode _ => []
  | ElementNode e kids => (n, parent) :: flat_map (walk (Some n)) kids
  end.

Definition element_of (n : Node) : option Element :=
  match n with
  | TextNode _ => None
  | ElementNode e _ => Some e
  end.

Definition children_of (n : Node) : list Node :=
  match n with
  | TextNode _ => []
  | ElementNode _ kids => kids
  end.

(** the element objects of a subtree in document order, root included *)
Fixpoint all_elements (n : Node) : list Element :=
  match n with
  | TextNode _ => []
  | ElementNode e kids => e :: flat_map all_elements kids
  end.

(** the proper descendants of an element node that are elements *)
Definition descendants (n : Node) : list (Node * option Node) :=
  flat_map (walk (Some n)) (children_of n).

Fixpoint textContent (n : Node) : string :=
  match n with
  | TextNode data => data
  | ElementNode _ kids => String.concat "" (map textContent kids)
  end.

Definition has_tag (tags : list string) (n : Node) : bool :=
  match n with
  | TextNode _ => false
  | ElementNode e _ => existsb (String.eqb (tagName e)) tags
  end.

Definition has_class (c : string) (e : Element) : bool :=
  existsb (String.eqb c) (classList e).

(** [document.getElementById(id)] *)
Definition getElementById (root : Node) (i : string) : option Element :=
  head (List.filter (fun e => String.eqb (el_id e) i) (all_elements root)).

(** the element object behind a reference, if it is in the document *)
Definition deref (root : Node) (h : nat) : option Element :=
  head (List.filter (fun e => Nat.eqb (nid e) h) (all_elements root)).

Definition deref_node (root : Node) (h : nat) : option Node :=
  head (List.filter
          (fun n => match element_of n with
                    | Some e => Nat.eqb (nid e) h
                    | None => false
                    end)
          (map fst (walk None root))).

(** a write to the element object behind a reference *)
Fixpoint update (h : nat) (f : Element -> Element) (n : Node) : Node :=
  match n with
  | TextNode data => TextNode data
  | ElementNode e kids =>
      ElementNode (if Nat.eqb (nid e) h then f e else e) (map (update h f) kids)
  end.

Definition with_classList (cs : list string) (e : Element) : Element :=
  {| nid := nid e; tagName := tagName e; el_id := el_id e; classList := cs;
     el_type := el_type e; htmlFor := htmlFor e; el_value := el_value e;
     checked := checked e; el_options := el_options e; attributes := attributes e |}.

Definition with_value (v : string) (e : Element) : Element :=
  {| nid := nid e; tagName := tagName e; el_id := el_id e; classList := classList e;
     el_type := el_type e; htmlFor := htmlFor e; el_value := v;
     checked := checked e; el_options := el_options e; attributes := attributes e |}.

Definition with_checked (b : bool) (e : Element) : Element :=
  {| nid := nid e; tagName := tagName e; el_id := el_id e; classList := classList e;
     el_type := el_type e; htmlFor := htmlFor e; el_value := el_value e;
     checked := b; el_options := el_options e; attributes := attributes e |}.

(** [el.classList.add(c)] and [el.classList.remove(c)] *)
Definition classList_add (c : string) (e : Element) : Element :=
  if has_class c e then e else with_classList (classList e ++ [c]) e.

Definition classList_remove (c : string) (e : Element) : Element :=
  with_classList (List.filter (fun x => negb (String.eqb c x)) (classList e)) e.

(** [el.getAttribute(name)] *)
Definition getAttribute (name : string) (e : Element) : option string :=
  snd <$> head (List.filter (fun kv => String.eqb (fst kv) name) (attributes e)).

(** [el.className] *)
Definition className (e : Element) : string := Js.join " " (classList e).

End Dom.

(** ** The world of one execution context *)

Inductive DomEvent :=
| EvFocus
| EvBlur
| EvScroll
| EvClick
| EvInput (inputType : option string) (data : option string)
| EvChange.

Record Page := {
  root : Node;
  pathname : string;
}.

(** What the engine does not control.  The selector engine and the regular
    expression test belong to the browser; the page's scripts run while the
    engine is suspended and, synchronously, on every event dispatched to an
    element; the host may fire its cancel action during a suspension; a
    timer may resume late.  The natural number is the count of
    interactions so far. *)
Record Environment := {
  css_valid : string -> bool;
  css_matches : string -> Node -> nat -> bool;
  route_regex_test : string -> string -> bool;
  page_idle : nat -> Page -> Page;
  page_react : nat -> DomEvent -> nat -> Page -> Page;
  host_cancels : nat -> bool;
  timer_late : nat -> nat;
}.

(** A [CancellationToken] object is named by a number; its [_isCancelled]
    flag is membership in [cancelledTokens] (no [onCancel] callback is
    ever registered by the engine). *)
Definition CancellationToken := nat.

Record World := {
  isExecuting : bool;
  activeCancellationToken : option CancellationToken;
  cancelledTokens : gset nat;
  cachedManifest : option GlideManifest;
  storage : gmap string ExecutionState;
  page : Page;
  windowConfirmStub : bool;
  timers : list (Z * bool);
  now : Z;
  ticks : nat;
  progress : list (nat * nat * string);
}.

Definition set_isExecuting (b : bool) (w : World) : World :=
  {| isExecuting := b; activeCancellationToken := activeCancellationToken w;
     cancelledTokens := cancelledTokens w; cachedManifest := cachedManifest w;
     storage := storage w; page := page w; windowConfirmStub := windowConfirmStub w;
     timers := timers w; now := now w; ticks := ticks w; progress := progress w |}.

Definition set_activeCancellationToken (t : option CancellationToken) (w : World) : World :=
  {| isExecuting := isExecuting w; activeCancellationToken := t;
     cancelledTokens := cancelledTokens w; cachedManifest := cachedManifest w;
     storage := storage w; page := page w; windowConfirmStub := windowConfirmStub w;
     timers := timers w; now := now w; ticks := ticks w; progress := progress w |}.

Definition set_cancelledTokens (s : gset nat) (w : World) : World :=
  {| isExecuting := isExecuting w; activeCancellationToken := activeCancellationToken w;
     cancelledTokens := s; cachedManifest := cachedManifest w;
     storage := storage w; page := page w; windowConfirmStub := windowConfirmStub w;
     timers := timers w; now := now w; ticks := ticks w; progress := progress w |}.

Definition set_storage (s : gmap string ExecutionState) (w : World) : World :=
  {| isExecuting := isExecuting w; activeCancellationToken := activeCancellationToken w;
     cancelledTokens := cancelledTokens w; cachedManifest := cachedManifest w;
     storage := s; page := page w; windowConfirmStub := windowConfirmStub w;
     timers := timers w; now := now w; ticks := ticks w; progress := progress w |}.

Definition set_page (p : Page) (w : World) : World :=
  {| isExecuting := isExecuting w; activeCancellationToken := activeCancellationToken w;
     cancelledTokens := cancelledTokens w; cachedManifest := cachedManifest w;
     storage := storage w; page := p; windowConfirmStub := windowConfirmStub w;
     timers := timers w; now := now w; ticks := ticks w; progress := progress w |}.

Definition set_confirm (stub : bool) (ts : list (Z * bool)) (w : World) : World :=
  {| isExecuting := isExecuting w; activeCancellationToken := activeCancellationToken w;
     cancelledTokens := cancelledTokens w; cachedManifest := cachedManifest w;
     storage := storage w; page := page w; windowConfirmStub := stub;
     timers := ts; now := now w; ticks := ticks w; progress := progress w |}.

Definition set_clock (t : Z) (n : nat) (w : World) : World :=
  {| isExecuting := isExecuting w; activeCancellationToken := activeCancellationToken w;
     cancelledTokens := cancelledTokens w; cachedManifest := cachedManifest w;
     storage := storage w; page := page w; windowConfirmStub := windowConfirmStub w;
     timers := timers w; now := t; ticks := n; progress := progress w |}.

Definition set_progress (l : list (nat * nat * string)) (w : World) : World :=
  {| isExecuting := isExecuting w; activeCancellationToken := activeCancellationToken w;
     cancelledTokens := cancelledTokens w; cachedManifest := cachedManifest w;
     storage := storage w; page := page w; windowConfirmStub := windowConfirmStub w;
     timers := timers w; now := now w; ticks := ticks w; progress := l |}.

Definition set_root (r : Node) (p : Page) : Page :=
  {| root := r; pathname := pathname p |}.

(** ** Computations that may throw *)

Inductive Exn :=
| CancellationError (msg : string)
| JsError (msg : string).

Inductive Outcome (A : Type) :=
| Returned (a : A)
| Thrown (e : Exn).
Arguments Returned {A} a.
Arguments Thrown {A} e.

Definition M (A : Type) : Type := World -> Outcome A * World.

Definition ret {A} (a : A) : M A := fun w => (Returned a, w).

Definition bind {A B} (m : M A) (k : A -> M B) : M B :=
  fun w =>
    match m w with
    | (Returned a, w') => k a w'
    | (Thrown e, w') => (Thrown e, w')
    end.

Definition throw {A} (e : Exn) : M A := fun w => (Thrown e, w).

Definition gets {A} (f : World -> A) : M A := fun w => (Returned (f w), w).

Definition modify (f : World -> World) : M unit := fun w => (Returned tt, f w).

(** [try { m } catch (e) { h e }] *)
Definition try_catch {A} (m : M A) (h : Exn -> M A) : M A :=
  fun w =>
    match m w with
    | (Returned a, w') => (Returned a, w')
    | (Thrown e, w') => h e w'
    end.

(** [try { m } finally { f }], for an [f] that does not throw *)
Definition try_finally {A} (m : M A) (f : World -> World) : M A :=
  fun w => let (o, w') := m w in (o, f w').

Declare Scope js_scope.
Delimit Scope js_scope with js.
Notation "x <- m ;; k" := (bind m (fun x => k))
  (at level 100, m at next level, right associativity) : js_scope.
Notation "m ;; k" := (bind m (fun _ => k))
  (at level 100, right associativity) : js_scope.
Local Open Scope js_scope.

Definition is_cancellation (e : Exn) : bool :=
  match e with CancellationError _ => true | JsError _ => false end.

(** [e instanceof Error ? e.message : 'Unknown error'] *)
Definition exn_message (e : Exn) : string :=
  match e with CancellationError msg => msg | JsError msg => msg end.

(** ** Cancellation token ([src/shared/cancellationToken.ts]) *)

Definition isCancelled (t : CancellationToken) (w : World) : bool :=
  bool_decide (t ∈ cancelledTokens w).

Definition cancel (t : CancellationToken) (w : World) : World :=
  if isCancelled t w then w
  else set_cancelledTokens ({[ t ]} ∪ cancelledTokens w) w.

Definition throwIfCancelled (t : CancellationToken) : M unit :=
  fun w =>
    if isCancelled t w then (Thrown (CancellationError "Operation was cancelled"), w)
    else (Returned tt, w).

(** [cancellationToken?.throwIfCancelled()] *)
Definition throwIfCancelled_opt (t : option CancellationToken) : M unit :=
  match t with
  | Some t => throwIfCancelled t
  | None => ret tt
  end.

(** [cancelActiveExecution] (lines 933-937) *)
Definition cancelActiveExecution (w : World) : World :=
  match activeCancellationToken w with
  | Some t => cancel t w
  | None => w
  end.

Definition dquote : string := String "034"%char EmptyString.

Definition ok_result : StepResult :=
  {| sr_success := true; needsNavigation := false; sr_error := None; fatal := false |}.

Definition nav_result : StepResult :=
  {| sr_success := true; needsNavigation := true; sr_error := None; fatal := false |}.

Definition fail_result (msg : string) : StepResult :=
  {| sr_success := false; needsNavigation := false; sr_error := Some msg; fatal := false |}.

Definition fatal_result (msg : string) : StepResult :=
  {| sr_success := false; needsNavigation := false; sr_error := Some msg; fatal := true |}.

(** [Math.max] and the strict comparison on scores *)
Definition score_max (a b : Q) : Q := if Qle_bool a b then b else a.
Definition score_gt (a b : Q) : bool := negb (Qle_bool a b).
Definition score_ge (a b : Q) : bool := Qle_bool b a.

(** [entities[step.value || ''] || step.value || ''] (lines 342-343, 475-476, 833-834) *)
Definition resolve_value (ents : gmap string string) (step : ExecutionStep) : string :=
  let fieldName := Js.or_else (value step) "" in
  Js.or_else (ents !! fieldName) (Js.or_else (value step) "").

(** *** Fuzzy choice of an option (lines 500-514) *)

Definition option_score (v : string) (opt : OptionData) : Q :=
  let valueScore := stringSimilarity v (opt_value opt) in
  let textScore := stringSimilarity v (opt_text opt) in
  score_max valueScore textScore.

Definition best_step (v : string) (acc : option OptionData * Q) (opt : OptionData)
  : option OptionData * Q :=
  let score := option_score v opt in
  if score_gt score (snd acc) then (Some opt, score) else acc.

Definition best_option (v : string) (options : list OptionData) : option OptionData * Q :=
  fold_left (best_step v) options (None, 0%Q).

(** the valid options: [opt.value && opt.value !== '' && !opt.disabled] *)
Definition valid_options (all : list OptionData) : list OptionData :=
  List.filter (fun opt => Js.truthy (opt_value opt) && negb (opt_disabled opt)) all.

Definition no_match_message (v : string) (options : list OptionData) : string :=
  "No match for " ++ dquote ++ v ++ dquote ++ ". Available: "
  ++ Js.join ", " (map opt_text (firstn 5 options))
  ++ (if (5 <? length options)%nat then "..." else "").

(** [parseInt(s)]: leading white space, an optional sign, then decimal
    digits, or hexadecimal digits after [0x]; [None] is [NaN]. *)
Definition digit_of (radix : nat) (c : ascii) : option nat :=
  let n := nat_of_ascii c in
  let d := if ((48 <=? n) && (n <=? 57))%nat then Some (n - 48)%nat
           else if ((97 <=? n) && (n <=? 102))%nat then Some (n - 87)%nat
           else if ((65 <=? n) && (n <=? 70))%nat then Some (n - 55)%nat
           else None in
  match d with
  | Some k => if (k <? radix)%nat then Some k else None
  | None => None
  end.

Fixpoint parse_digits (radix : nat) (acc : option Z) (s : string) : option Z :=
  match s with
  | EmptyString => acc
  | String c s' =>
      match digit_of radix c with
      | Some d => parse_digits radix (Some (from_option id 0%Z acc * Z.of_nat radix + Z.of_nat d)%Z) s'
      | None => acc
      end
  end.

Definition parse_unsigned (s : string) : option Z :=
  if Js.startsWith s "0x" || Js.startsWith s "0X"
  then parse_digits 16 None (Js.slice 2 s)
  else parse_digits 10 None s.

Definition parseInt (s : string) : option Z :=
  match Js.trimStart s with
  | String "-"%char s' => Z.opp <$> parse_unsigned s'
  | String "+"%char s' => parse_unsigned s'
  | s' => parse_unsigned s'
  end.

(** ** The engine, relative to an environment *)

Section Engine.

Variable env : Environment.

(** *** Suspension points and browser primitives *)

Definition due (t : Z) (x : Z * bool) : bool := (fst x <=? t)%Z.

(** the [setTimeout] callbacks of [executeFindRow] that have come due *)
Definition fire_timers (w : World) : World :=
  let fired := List.filter (due (now w)) (timers w) in
  let rest := List.filter (fun x => negb (due (now w) x)) (timers w) in
  set_confirm (fold_left (fun _ x => snd x) fired (windowConfirmStub w)) rest w.

(** The engine yields for at least [ms] milliseconds: the clock advances,
    due timers fire, the page's scripts run, and the host may cancel. *)
Definition suspend (ms : Z) : M unit :=
  fun w =>
    let n := ticks w in
    let w1 := set_clock (now w + Z.max 0 ms + Z.of_nat (timer_late env n)) (S n) w in
    let w2 := fire_timers w1 in
    let w3 := set_page (page_idle env n (page w2)) w2 in
    let w4 := if host_cancels env n then cancelActiveExecution w3 else w3 in
    (Returned tt, w4).

(** [await wait(ms)] (line 14) *)
Definition wait (ms : Z) : M unit := suspend ms.

Definition Date_now : M Z := gets now.

(** a write through an element reference *)
Definition write (h : nat) (f : Element -> Element) : M unit :=
  modify (fun w => set_page (set_root (Dom.update h f (root (page w))) (page w)) w).

(** a read through an element reference *)
Definition read {A} (h : nat) (f : Element -> A) (d : A) : M A :=
  gets (fun w => from_option f d (Dom.deref (root (page w)) h)).

(** [el.focus()], [el.blur()], [el.click()], [el.dispatchEvent(..)]: the
    page's handlers run before the call returns *)
Definition dispatch (ev : DomEvent) (h : nat) : M unit :=
  modify (fun w =>
            set_clock (now w) (S (ticks w))
              (set_page (page_react env (ticks w) ev h (page w)) w)).

(** [el.scrollIntoView(..)] has no effect the engine or the page's
    handlers observe synchronously *)
Definition scrollIntoView (h : nat) : M unit := ret tt.

Definition node_id (n : Node) : nat :=
  match n with
  | TextNode _ => 0%nat
  | ElementNode e _ => nid e
  end.

Definition css_hit (sel : string) (r : Node) (n : Node) : bool :=
  match n with
  | TextNode _ => false
  | ElementNode e _ => css_matches env sel r (nid e)
  end.

(** [document.querySelectorAll(sel)] for a well-formed selector *)
Definition select_all (sel : string) (r : Node) : list Node :=
  List.filter (css_hit sel r) (map fst (Dom.walk None r)).

(** [el.querySelectorAll(sel)] for a well-formed selector *)
Definition select_in (sel : string) (r : Node) (scope : Node) : list Node :=
  List.filter (css_hit sel r) (map fst (Dom.descendants scope)).

(** [document.querySelector(sel)]; a malformed selector throws *)
Definition querySelector (sel : string) : M (option Node) :=
  fun w =>
    if css_valid env sel then (Returned (head (select_all sel (root (page w)))), w)
    else (Thrown (JsError ("Failed to execute 'querySelector' on 'Document': '"
                             ++ sel ++ "' is not a valid selector.")), w).

(** *** Durable state (lines 28-60) *)

Definition saveExecutionState (state : ExecutionState) : M unit :=
  modify (fun w => set_storage (<[EXECUTION_STATE_KEY := state]> (storage w)) w) ;;
  suspend 0.

Definition loadExecutionState : M (option ExecutionState) :=
  result <- gets (fun w => storage w !! EXECUTION_STATE_KEY) ;;
  suspend 0 ;;
  ret result.

Definition clearExecutionState : M unit :=
  modify (fun w => set_storage (delete EXECUTION_STATE_KEY (storage w)) w) ;;
  suspend 0.

Definition checkPendingExecution : M (option ExecutionState) :=
  state <- loadExecutionState ;;
  match state with
  | Some s =>
      if is_executing (status (plan s)) then
        clearExecutionState ;;
        ret (Some s)
      else ret None
  | None => ret None
  end.

(** *** Element locator (lines 616-702) *)

Definition control_tags : list string := ["input"; "select"; "textarea"].

(** [!inputType || input.type === inputType] *)
Definition type_ok (inputType : option string) (n : Node) : bool :=
  match inputType, n with
  | Some t, ElementNode e _ => negb (Js.truthy t) || String.eqb (el_type e) t
  | Some t, TextNode _ => negb (Js.truthy t)
  | None, _ => true
  end.

Definition keep_if (f : Node -> bool) (o : option Node) : option Node :=
  match o with
  | Some n => if f n then Some n else None
  | None => None
  end.

(** the element the label's [for] attribute points at *)
Definition label_for (r : Node) (inputType : option string) (label : Node) : option Node :=
  match label with
  | ElementNode e _ =>
      if Js.truthy (htmlFor e) then
        keep_if (type_ok inputType)
          (head (List.filter
                   (fun n => match n with
                             | ElementNode x _ => String.eqb (el_id x) (htmlFor e)
                             | TextNode _ => false
                             end)
                   (map fst (Dom.walk None r))))
      else None
  | TextNode _ => None
  end.

(** [label.querySelector('input, select, textarea')] *)
Definition label_nested (label : Node) : option Node :=
  head (List.filter (Dom.has_tag control_tags) (map fst (Dom.descendants label))).

(** [parent.querySelector('input, select, textarea')], kept when its
    type agrees *)
Definition label_adjacent (inputType : option string) (parent : option Node) : option Node :=
  match parent with
  | Some p =>
      keep_if (type_ok inputType)
        (head (List.filter (Dom.has_tag control_tags) (map fst (Dom.descendants p))))
  | None => None
  end.

Definition label_matches (labelText : string) (label : Node) : bool :=
  Js.includes (Js.toLowerCase (Dom.textContent label)) (Js.toLowerCase labelText).

Fixpoint findByLabel_loop (r : Node) (labelText : string) (inputType : option string)
    (labels : list (Node * option Node)) : option Node :=
  match labels with
  | [] => None
  | (label, parent) :: rest =>
      if label_matches labelText label then
        match label_for r inputType label with
        | Some input => Some input
        | None =>
            match label_nested label with
            | Some nestedInput => Some nestedInput
            | None =>
                match label_adjacent inputType parent with
                | Some input => Some input
                | None => findByLabel_loop r labelText inputType rest
                end
            end
        end
      else findByLabel_loop r labelText inputType rest
  end.

Definition findByLabel (r : Node) (labelText : string) (inputType : option string)
  : option Node :=
  let labels := List.filter (fun x => Dom.has_tag ["label"] (fst x)) (Dom.walk None r) in
  findByLabel_loop r labelText inputType labels.

Definition findElement (sel : string) : M (option Node) :=
  if Js.startsWith sel "label:" then
    let labelPart := Js.slice 6 sel in
    let parts := Js.split "|" labelPart in
    let labelText := nth 0 parts "" in
    let inputType := nth_error parts 1 in
    gets (fun w => findByLabel (root (page w)) labelText inputType)
  else querySelector sel.

(** Every pass of a polling loop ends in [wait(100)], so a loop with
    time-out [t] tests its condition at most [t / 100 + 2] times. *)
Definition poll_fuel (timeout : Z) : nat := S (S (Z.to_nat (timeout / 100))).

Fixpoint waitForElement_loop (fuel : nat) (sel : string) (startTime timeout : Z)
  : M (option Node) :=
  match fuel with
  | O => ret None
  | S fuel' =>
      t <- Date_now ;;
      if (t - startTime <? timeout)%Z then
        element <- findElement sel ;;
        match element with
        | Some e => ret (Some e)
        | None =>
            wait 100 ;;
            waitForElement_loop fuel' sel startTime timeout
        end
      else ret None
  end.

Definition waitForElement (sel : string) (timeout : Z) : M (option Node) :=
  startTime <- Date_now ;;
  waitForElement_loop (poll_fuel timeout) sel startTime timeout.

Inductive EitherResult :=
| FoundSuccess (element : Node)
| FoundError (element : Node)
| TimedOut.

(** [if (sel) { const e = document.querySelector(sel); if (e) .. }] *)
Definition probe (sel : option string) : M (option Node) :=
  match sel with
  | Some s => if Js.truthy s then querySelector s else ret None
  | None => ret None
  end.

Fixpoint waitForEither_loop (fuel : nat) (successSelector errorSelector : option string)
    (startTime timeout : Z) : M EitherResult :=
  match fuel with
  | O => ret TimedOut
  | S fuel' =>
      t <- Date_now ;;
      if (t - startTime <? timeout)%Z then
        s <- probe successSelector ;;
        match s with
        | Some el => ret (FoundSuccess el)
        | None =>
            e <- probe errorSelector ;;
            match e with
            | Some el => ret (FoundError el)
            | None =>
                wait 100 ;;
                waitForEither_loop fuel' successSelector errorSelector startTime timeout
            end
        end
      else ret TimedOut
  end.

Definition waitForEither (successSelector errorSelector : option string) (timeout : Z)
  : M EitherResult :=
  startTime <- Date_now ;;
  waitForEither_loop (poll_fuel timeout) successSelector errorSelector startTime timeout.

(** *** Step executors (lines 250-611, 826-909) *)

Definition mark (h : nat) : M unit := write h (Dom.classList_add GHOST_CLASS).
Definition unmark (h : nat) : M unit := write h (Dom.classList_remove GHOST_CLASS).

(** [getCurrentRoute] ([src/content/manifestLoader.ts]) *)
Definition is_dynamic (p : string) : bool :=
  Js.includes p ":" || Js.includes p "*".

Fixpoint getCurrentRoute_loop (currentPath : string) (entries : list (string * NavRoute))
  : option string :=
  match entries with
  | [] => None
  | (routeName, route) :: rest =>
      if String.eqb (path route) currentPath then Some routeName
      else if is_dynamic (path route) && route_regex_test env (path route) currentPath
           then Some routeName
           else getCurrentRoute_loop currentPath rest
  end.

Definition getCurrentRoute (manifest : GlideManifest) : M (option string) :=
  gets (fun w => getCurrentRoute_loop (pathname (page w)) (navigation manifest)).

(** [manifest.navigation[routeName]] *)
Definition lookup_route (manifest : GlideManifest) (routeName : string) : option NavRoute :=
  snd <$> head (List.filter (fun kv => String.eqb (fst kv) routeName) (navigation manifest)).

Definition executeNavigate (step : ExecutionStep) (manifest : GlideManifest)
    (tok : option CancellationToken) : M StepResult :=
  throwIfCancelled_opt tok ;;
  if negb (Js.truthy_opt (target step)) then ret (fail_result "No route specified")
  else
    let routeName := Js.or_else (target step) "" in
    match lookup_route manifest routeName with
    | None => ret (fail_result ("Unknown route: " ++ routeName))
    | Some route =>
        currentRoute <- getCurrentRoute manifest ;;
        if bool_decide (currentRoute = Some routeName) then ret ok_result
        else
          navElement <- querySelector (selector route) ;;
          match navElement with
          | None => ret (fail_result ("Navigation element not found: " ++ selector route))
          | Some el =>
              let h := node_id el in
              mark h ;;
              wait ACTION_DELAY ;;
              throwIfCancelled_opt tok ;;
              dispatch EvClick h ;;
              wait 100 ;;
              unmark h ;;
              ret nav_result
          end
    end.

(** [if (step.waitFor) { .. waitForElement(step.waitFor, 5000) .. }] *)
Definition await_appearance (step : ExecutionStep) (msg : string) : M StepResult :=
  if Js.truthy_opt (waitFor step) then
    appeared <- waitForElement (Js.or_else (waitFor step) "") 5000 ;;
    match appeared with
    | None => ret (fail_result (msg ++ Js.or_else (waitFor step) ""))
    | Some _ => ret ok_result
    end
  else ret ok_result.

Definition executeClick (step : ExecutionStep) (tok : option CancellationToken)
  : M StepResult :=
  throwIfCancelled_opt tok ;;
  if negb (Js.truthy_opt (target step)) then ret (fail_result "No selector specified")
  else
    let sel := Js.or_else (target step) "" in
    element <- waitForElement sel 5000 ;;
    match element with
    | None => ret (fail_result ("Element not found: " ++ sel))
    | Some el =>
        let h := node_id el in
        throwIfCancelled_opt tok ;;
        mark h ;;
        scrollIntoView h ;;
        wait ACTION_DELAY ;;
        throwIfCancelled_opt tok ;;
        dispatch EvClick h ;;
        wait ACTION_DELAY ;;
        unmark h ;;
        await_appearance step "Expected element did not appear: "
    end.

(** [setInputValue] (lines 423-436): both methods store the value *)
Definition setInputValue (h : nat) (v : string) : M unit :=
  write h (Dom.with_value v).

(** the typing loop (lines 382-396) *)
Fixpoint type_chars (tok : option CancellationToken) (h : nat) (chars : string) : M unit :=
  match chars with
  | EmptyString => ret tt
  | String c rest =>
      throwIfCancelled_opt tok ;;
      currentValue <- read h el_value "" ;;
      setInputValue h (currentValue ++ String c EmptyString) ;;
      dispatch (EvInput (Some "insertText") (Some (String c EmptyString))) h ;;
      wait TYPING_DELAY ;;
      type_chars tok h rest
  end.

Definition executeFill (step : ExecutionStep) (ents : gmap string string)
    (tok : option CancellationToken) : M StepResult :=
  throwIfCancelled_opt tok ;;
  if negb (Js.truthy_opt (target step)) then ret (fail_result "No selector specified")
  else
    let sel := Js.or_else (target step) "" in
    let fieldName := Js.or_else (value step) "" in
    let v := resolve_value ents step in
    if negb (Js.truthy v) then
      ret (fatal_result ("No value provided for field " ++ dquote ++ fieldName ++ dquote))
    else
      element <- waitForElement sel 5000 ;;
      match element with
      | None => ret (fatal_result ("Element not found: " ++ sel))
      | Some el =>
          let h := node_id el in
          throwIfCancelled_opt tok ;;
          dispatch EvFocus h ;;
          mark h ;;
          scrollIntoView h ;;
          isNumberInput <-
            read h (fun e => String.eqb (tagName e) "input" && String.eqb (el_type e) "number")
              false ;;
          (if isNumberInput : bool then
             setInputValue h v ;;
             dispatch (EvInput None None) h ;;
             wait (TYPING_DELAY * 3)
           else
             setInputValue h "" ;;
             dispatch (EvInput (Some "deleteContentBackward") None) h ;;
             type_chars tok h v) ;;
          throwIfCancelled_opt tok ;;
          dispatch EvChange h ;;
          dispatch EvBlur h ;;
          wait 50 ;;
          current <- read h el_value "" ;;
          (if String.eqb current v then ret tt
           else
             setInputValue h v ;;
             dispatch (EvInput None None) h ;;
             dispatch EvChange h ;;
             wait 50) ;;
          wait ACTION_DELAY ;;
          unmark h ;;
          ret ok_result
      end.

(** the choice among the valid options of the located [select] element
    (lines 495-534) *)
Definition choose_option (h : nat) (v : string) (options : list OptionData) : M StepResult :=
  match options with
  | [] =>
      unmark h ;;
      ret (fatal_result "No options available in dropdown")
  | _ :: _ =>
      match best_option v options with
      | (Some bestMatch, bestScore) =>
          if score_ge bestScore (6 # 10) then
            write h (Dom.with_value (opt_value bestMatch)) ;;
            dispatch EvChange h ;;
            wait ACTION_DELAY ;;
            unmark h ;;
            ret ok_result
          else
            unmark h ;;
            ret (fatal_result (no_match_message v options))
      | (None, _) =>
          unmark h ;;
          ret (fatal_result (no_match_message v options))
      end
  end.

Definition executeSelect (step : ExecutionStep) (ents : gmap string string)
    (tok : option CancellationToken) : M StepResult :=
  throwIfCancelled_opt tok ;;
  if negb (Js.truthy_opt (target step)) then ret (fail_result "No selector specified")
  else
    let sel := Js.or_else (target step) "" in
    let v := resolve_value ents step in
    if negb (Js.truthy v) then ret (fatal_result "No value provided for selection")
    else
      element <- waitForElement sel 5000 ;;
      match element with
      | None => ret (fatal_result ("Element not found: " ++ sel))
      | Some el =>
          let h := node_id el in
          throwIfCancelled_opt tok ;;
          dispatch EvFocus h ;;
          mark h ;;
          all <- read h el_options [] ;;
          choose_option h v (valid_options all)
      end.

Definition executeCheck (step : ExecutionStep) (tok : option CancellationToken)
  : M StepResult :=
  throwIfCancelled_opt tok ;;
  if negb (Js.truthy_opt (target step)) then ret (fail_result "No selector specified")
  else
    let sel := Js.or_else (target step) "" in
    element <- waitForElement sel 5000 ;;
    match element with
    | None => ret (fail_result ("Element not found: " ++ sel))
    | Some el =>
        let h := node_id el in
        throwIfCancelled_opt tok ;;
        mark h ;;
        isChecked <- read h checked false ;;
        (if isChecked : bool then ret tt
         else
           write h (Dom.with_checked true) ;;
           dispatch EvChange h) ;;
        wait ACTION_DELAY ;;
        unmark h ;;
        ret ok_result
    end.

(** [result.element?.textContent?.trim() || 'Unknown error'] *)
Definition form_error_text (el : Node) : string :=
  Js.or_else (Some (Js.trim (Dom.textContent el))) "Unknown error".

(** the confirmation phase of a submit step (lines 593-610) *)
Definition awaitSubmitOutcome (step : ExecutionStep) : M StepResult :=
  if Js.truthy_opt (waitFor step) || Js.truthy_opt (errorSelector step) then
    result <- waitForEither (waitFor step) (errorSelector step) 10000 ;;
    match result with
    | FoundError el => ret (fatal_result ("Form error: " ++ form_error_text el))
    | TimedOut => ret (fail_result "Submission timed out")
    | FoundSuccess _ => ret ok_result
    end
  else ret ok_result.

Definition executeSubmit (step : ExecutionStep) (tok : option CancellationToken)
  : M StepResult :=
  throwIfCancelled_opt tok ;;
  if negb (Js.truthy_opt (target step)) then ret (fail_result "No submit selector specified")
  else
    let sel := Js.or_else (target step) "" in
    element <- waitForElement sel 5000 ;;
    match element with
    | None => ret (fail_result ("Submit button not found: " ++ sel))
    | Some el =>
        let h := node_id el in
        throwIfCancelled_opt tok ;;
        mark h ;;
        wait ACTION_DELAY ;;
        throwIfCancelled_opt tok ;;
        dispatch EvClick h ;;
        wait ACTION_DELAY ;;
        unmark h ;;
        awaitSubmitOutcome step
    end.

(** *** Rows and their action buttons (lines 729-821) *)

Definition lower_text (n : Node) : string := Js.toLowerCase (Dom.textContent n).

Definition listSelectors : list string :=
  [ ("[role=" ++ dquote ++ "row" ++ dquote ++ "]")%string;
    ".list-group-item";
    ("[class*=" ++ dquote ++ "row" ++ dquote ++ "]:not(table *)")%string;
    ("li[class*=" ++ dquote ++ "item" ++ dquote ++ "]")%string ].

Definition findMatchingRow (r : Node) (searchText : string) : option Node :=
  let searchLower := Js.trim (Js.toLowerCase searchText) in
  let hit := fun n => Js.includes (lower_text n) searchLower in
  let tables := List.filter (Dom.has_tag ["table"]) (map fst (Dom.walk None r)) in
  match head (List.filter hit (flat_map (select_in "tbody tr" r) tables)) with
  | Some row => Some row
  | None => head (List.filter hit (flat_map (fun sel => select_all sel r) listSelectors))
  end.

Definition attr_lower (name : string) (n : Node) : string :=
  match n with
  | ElementNode e _ => Js.toLowerCase (Js.or_else (Dom.getAttribute name e) "")
  | TextNode _ => ""
  end.

Definition class_lower (n : Node) : string :=
  match n with
  | ElementNode e _ => Js.toLowerCase (Dom.className e)
  | TextNode _ => ""
  end.

Definition searchTerms (isDelete isEdit : bool) (actionLower : string) : list string :=
  if isDelete then ["delete"; "remove"; "trash"; "destroy"]
  else if isEdit then ["edit"; "update"; "modify"; "pencil"]
  else [actionLower].

(** the test on the first [svg] inside a control (lines 797-810) *)
Definition icon_matches (isDelete isEdit : bool) (el : Node) : bool :=
  match head (List.filter (Dom.has_tag ["svg"]) (map fst (Dom.descendants el))) with
  | None => false
  | Some svg =>
      let svgClass := class_lower svg in
      let paths := List.filter (Dom.has_tag ["path"]) (map fst (Dom.descendants svg)) in
      let pathData :=
        Js.join " "
          (map (fun p => match p with
                         | ElementNode e _ => Js.or_else (Dom.getAttribute "d" e) ""
                         | TextNode _ => ""
                         end) paths) in
      (isDelete && (Js.includes svgClass "trash" || Js.includes svgClass "delete"))
      || (isEdit && (Js.includes svgClass "edit" || Js.includes svgClass "pencil"))
      || (isDelete && Js.includes pathData "M19 7l-.867 12.142")
      || (isEdit && Js.includes pathData "M11 4H4a2 2")
  end.

Definition button_matches (isDelete isEdit : bool) (actionLower : string) (el : Node) : bool :=
  let text := Js.trim (lower_text el) in
  let ariaLabel := attr_lower "aria-label" el in
  let title := attr_lower "title" el in
  let cls := class_lower el in
  existsb
    (fun term => Js.includes text term || Js.includes ariaLabel term
                 || Js.includes title term || Js.includes cls term)
    (searchTerms isDelete isEdit actionLower)
  || icon_matches isDelete isEdit el.

Definition findRowActionButton (r : Node) (row : Node) (act : string) : option Node :=
  let actionLower := Js.toLowerCase act in
  let isDelete := String.eqb actionLower "delete" || String.eqb actionLower "remove" in
  let isEdit := String.eqb actionLower "edit" || String.eqb actionLower "update" in
  let buttons :=
    select_in ("button, a, [role=" ++ dquote ++ "button" ++ dquote ++ "]") r row in
  match head (List.filter (button_matches isDelete isEdit actionLower) buttons) with
  | Some el => Some el
  | None =>
      if (0 <? length buttons)%nat then
        if isDelete then nth_error buttons (length buttons - 1)
        else if isEdit && (2 <=? length buttons)%nat then nth_error buttons (length buttons - 2)
        else if isEdit then nth_error buttons 0
        else None
      else None
  end.

(** the retry loop of [executeFindRow] (lines 846-852) *)
Fixpoint find_row_attempts (attempts : nat) (searchText : string)
    (tok : option CancellationToken) : M (option Node) :=
  match attempts with
  | O => ret None
  | S k =>
      row <- gets (fun w => findMatchingRow (root (page w)) searchText) ;;
      match row with
      | Some r => ret (Some r)
      | None =>
          wait 1000 ;;
          throwIfCancelled_opt tok ;;
          find_row_attempts k searchText tok
      end
  end.

Definition executeFindRow (step : ExecutionStep) (ents : gmap string string)
    (tok : option CancellationToken) : M StepResult :=
  throwIfCancelled_opt tok ;;
  let searchText := resolve_value ents step in
  let act := Js.or_else (action step) "edit" in
  if negb (Js.truthy searchText) then
    ret (fatal_result "No search text provided for find-row")
  else
    wait 500 ;;
    throwIfCancelled_opt tok ;;
    found <- find_row_attempts 3 searchText tok ;;
    match found with
    | None =>
        ret (fatal_result ("Could not find record matching " ++ dquote ++ searchText ++ dquote))
    | Some row =>
        let rh := node_id row in
        mark rh ;;
        scrollIntoView rh ;;
        wait ACTION_DELAY ;;
        throwIfCancelled_opt tok ;;
        actionBtn <- gets (fun w =>
                             let r := root (page w) in
                             findRowActionButton r (from_option id row (Dom.deref_node r rh)) act) ;;
        match actionBtn with
        | None =>
            unmark rh ;;
            ret (fatal_result ("Could not find " ++ act ++ " button in the row"))
        | Some btn =>
            let bh := node_id btn in
            let isDelete := String.eqb act "delete" || String.eqb act "remove" in
            originalConfirm <- gets windowConfirmStub ;;
            (if isDelete then modify (fun w => set_confirm true (timers w) w) else ret tt) ;;
            try_finally
              (mark bh ;;
               wait ACTION_DELAY ;;
               throwIfCancelled_opt tok ;;
               dispatch EvClick bh ;;
               wait ACTION_DELAY ;;
               unmark bh ;;
               unmark rh)
              (fun w =>
                 if isDelete
                 then set_confirm (windowConfirmStub w)
                        (timers w ++ [((now w + 2000)%Z, originalConfirm)]) w
                 else w) ;;
            await_appearance step ("Expected element did not appear after " ++ act ++ ": ")
        end
    end.

(** *** Dispatch on the step kind (lines 202-245) *)

Definition executeStep (step : ExecutionStep) (manifest : GlideManifest)
    (p : ExecutionPlan) (tok : option CancellationToken) : M StepResult :=
  throwIfCancelled_opt tok ;;
  match type step with
  | navigate => executeNavigate step manifest tok
  | click => executeClick step tok
  | wait_ =>
      wait (from_option id 0%Z (parseInt (Js.or_else (value step) "500"))) ;;
      throwIfCancelled_opt tok ;;
      ret ok_result
  | fill => executeFill step (entities p) tok
  | select => executeSelect step (entities p) tok
  | check => executeCheck step tok
  | submit => executeSubmit step tok
  | find_row => executeFindRow step (entities p) tok
  | notify => ret ok_result
  | other_type name => ret (fail_result ("Unknown step type: " ++ name))
  end.

(** [getStepMessage] (lines 707-724) *)
Definition getStepMessage (step : ExecutionStep) : string :=
  match type step with
  | navigate => "Navigating to " ++ from_option id "undefined" (target step) ++ "..."
  | click => "Opening form..."
  | fill => "Filling " ++ Js.or_else (value step) "field" ++ "..."
  | select => "Selecting " ++ Js.or_else (value step) "option" ++ "..."
  | submit => "Submitting..."
  | find_row => "Finding record..."
  | _ => "Processing..."
  end.

(** *** The engine (lines 62-197, 914-928) *)

(** [clearGhostHighlights] (lines 193-197) *)
Definition clearGhostHighlights : M unit :=
  modify (fun w =>
            let r := root (page w) in
            let marked := List.filter (Dom.has_class GHOST_CLASS) (Dom.all_elements r) in
            let r' :=
              fold_left
                (fun acc el => Dom.update (nid el) (Dom.classList_remove GHOST_CLASS) acc)
                marked r in
            set_page (set_root r' (page w)) w).

(** [onProgress?.(step, total, message)]: the calls of the observer, when
    one was passed, are recorded in [progress] *)
Definition report (onProgress : bool) (n total : nat) (msg : string) : M unit :=
  if onProgress then modify (fun w => set_progress (progress w ++ [(n, total, msg)]) w)
  else ret tt.

(** run a computation and hand back what it threw *)
Definition attempt {A} (m : M A) : M (A + Exn) :=
  fun w =>
    match m w with
    | (Returned a, w') => (Returned (inl a), w')
    | (Thrown e, w') => (Returned (inr e), w')
    end.

Definition rejected_result (total : nat) : ExecutionResult :=
  {| success := false; completedSteps := 0; totalSteps := total;
     res_message := "Execution already in progress";
     errors := None; navigating := false; cancelled := false |}.

Definition navigating_result (done total : nat) : ExecutionResult :=
  {| success := true; completedSteps := done; totalSteps := total;
     res_message := "Navigating... execution will continue on new page";
     errors := None; navigating := true; cancelled := false |}.

Definition cancelled_result (done total : nat) : ExecutionResult :=
  {| success := false; completedSteps := done; totalSteps := total;
     res_message := "Execution cancelled";
     errors := None; navigating := false; cancelled := true |}.

Definition final_result (currentStep total : nat) (errs : list string) : ExecutionResult :=
  let ok := (currentStep =? total)%nat && (length errs =? 0)%nat in
  {| success := ok; completedSteps := currentStep; totalSteps := total;
     res_message :=
       if ok then "Completed successfully"
       else "Completed with " ++ Js.show_nat (length errs) ++ " error(s)";
     errors := if (0 <? length errs)%nat then Some errs else None;
     navigating := false; cancelled := false |}.

Definition no_manifest_result : ExecutionResult :=
  {| success := false; completedSteps := 0; totalSteps := 0;
     res_message := "No manifest loaded";
     errors := None; navigating := false; cancelled := false |}.

(** How control leaves the [while] loop of [executeFromStep]: by its
    condition or a [break], by a [return] inside the loop, or by an
    exception that reaches the outer [catch]; the local variables
    [currentStep] and [errors] are carried along. *)
Inductive LoopExit :=
| LoopDone (currentStep : nat) (errs : list string)
| LoopReturn (r : ExecutionResult) (p : ExecutionPlan)
| LoopEscape (currentStep : nat) (e : Exn).

(** the body of the inner [try] (lines 114-139) *)
Definition try_step (step : ExecutionStep) (manifest : GlideManifest) (p : ExecutionPlan)
    (tok : option CancellationToken) (currentStep : nat)
  : M (StepResult + ExecutionResult * ExecutionPlan) :=
  result <- executeStep step manifest p tok ;;
  if needsNavigation result then
    let p' := set_status executing (set_currentStep (currentStep + 1) p) in
    t <- Date_now ;;
    saveExecutionState {| plan := p'; startedAt := t; lastUpdated := t |} ;;
    modify (set_activeCancellationToken None) ;;
    modify (set_isExecuting false) ;;
    ret (inr (navigating_result (currentStep + 1) (length (steps p)), p'))
  else ret (inl result).

(** the handler of the inner [catch] for a cancellation (lines 141-153) *)
Definition on_cancel_in_step (p : ExecutionPlan) (currentStep : nat) : M LoopExit :=
  clearExecutionState ;;
  clearGhostHighlights ;;
  modify (set_activeCancellationToken None) ;;
  ret (LoopReturn (cancelled_result currentStep (length (steps p))) p).

(** One pass of the [while] loop either goes on to the next step with
    the errors recorded so far, or leaves the loop. *)
Inductive BodyExit :=
| Continue (errs : list string)
| Leave (exit : LoopExit).

(** the loop body (lines 105-156) at cursor [currentStep] *)
Definition loop_body (manifest : GlideManifest) (p : ExecutionPlan) (onProgress : bool)
    (tok : option CancellationToken) (step : ExecutionStep)
    (currentStep : nat) (errs : list string) : M BodyExit :=
  pre <- attempt
           (throwIfCancelled_opt tok ;;
            report onProgress (currentStep + 1) (length (steps p)) (getStepMessage step)) ;;
  match pre with
  | inr e => ret (Leave (LoopEscape currentStep e))
  | inl _ =>
      r <- attempt (try_step step manifest p tok currentStep) ;;
      match r with
      | inr e =>
          if is_cancellation e then
            exit <- on_cancel_in_step p currentStep ;;
            ret (Leave exit)
          else ret (Leave (LoopDone currentStep (errs ++ [exn_message e])))
      | inl (inr (res, p')) => ret (Leave (LoopReturn res p'))
      | inl (inl result) =>
          if sr_success result then ret (Continue errs)
          else
            let errs' :=
              errs ++ [Js.or_else (sr_error result)
                         ("Step " ++ Js.show_nat (currentStep + 1) ++ " failed")] in
            if fatal result then ret (Leave (LoopDone currentStep errs'))
            else ret (Continue errs')
      end
  end.

(** The [while] loop (lines 104-157); [rest] is the part of [plan.steps]
    from [currentStep] on, so the loop condition
    [currentStep < plan.steps.length] is [rest <> []]. *)
Fixpoint run_loop (manifest : GlideManifest) (p : ExecutionPlan) (onProgress : bool)
    (tok : option CancellationToken) (rest : list ExecutionStep)
    (currentStep : nat) (errs : list string) : M LoopExit :=
  match rest with
  | [] => ret (LoopDone currentStep errs)
  | step :: rest' =>
      b <- loop_body manifest p onProgress tok step currentStep errs ;;
      match b with
      | Continue errs' => run_loop manifest p onProgress tok rest' (S currentStep) errs'
      | Leave exit => ret exit
      end
  end.

(** the entry of [executeFromStep] once the lock is taken (lines 93-101) *)
Definition take_lock (tok : option CancellationToken) : M unit :=
  modify (set_isExecuting true) ;;
  match tok with
  | Some t => modify (set_activeCancellationToken (Some t))
  | None => ret tt
  end.

(** what follows the loop: the completion (lines 159-171), a [return]
    made inside the loop, or the outer [catch] (lines 172-187) *)
Definition conclude (p : ExecutionPlan) (exit : LoopExit)
  : M (ExecutionResult * ExecutionPlan) :=
  match exit with
  | LoopReturn r p' => ret (r, p')
  | LoopDone c errs =>
      clearExecutionState ;;
      modify (set_activeCancellationToken None) ;;
      modify (set_isExecuting false) ;;
      ret (final_result c (length (steps p)) errs, p)
  | LoopEscape c e =>
      modify (set_isExecuting false) ;;
      if is_cancellation e then
        clearExecutionState ;;
        clearGhostHighlights ;;
        modify (set_activeCancellationToken None) ;;
        ret (cancelled_result c (length (steps p)), p)
      else throw e
  end.

Definition executeFromStep (p : ExecutionPlan) (manifest : GlideManifest)
    (onProgress : bool) (tok : option CancellationToken)
  : M (ExecutionResult * ExecutionPlan) :=
  locked <- gets isExecuting ;;
  if locked : bool then ret (rejected_result (length (steps p)), p)
  else
    take_lock tok ;;
    exit <- run_loop manifest p onProgress tok
              (skipn (currentStep p) (steps p)) (currentStep p) [] ;;
    conclude p exit.

(** [getManifest] ([src/content/manifestLoader.ts]) *)
Definition getManifest : M (option GlideManifest) := gets cachedManifest.

Definition resumeExecution (state : ExecutionState) (onProgress : bool)
    (tok : option CancellationToken) : M (ExecutionResult * ExecutionPlan) :=
  manifest <- getManifest ;;
  match manifest with
  | None =>
      clearExecutionState ;;
      ret (no_manifest_result, plan state)
  | Some m => executeFromStep (plan state) m onProgress tok
  end.

Definition executePlan (p : ExecutionPlan) (onProgress : bool)
    (tok : option CancellationToken) : M (ExecutionResult * ExecutionPlan) :=
  manifest <- getManifest ;;
  match manifest with
  | None => ret (no_manifest_result, p)
  | Some m =>
      let p' := set_currentStep 0 (set_status executing p) in
      executeFromStep p' m onProgress tok
  end.

(** *** Runs of the engine, for the statements below *)

(** The state of the loop after [n] passes that went on to the next
    step: the steps still to run, the cursor, the recorded errors and
    the world; [None] when the loop was left earlier. *)
Fixpoint advance (manifest : GlideManifest) (p : ExecutionPlan) (onProgress : bool)
    (tok : option CancellationToken) (n : nat) (rest : list ExecutionStep)
    (currentStep : nat) (errs : list string) (w : World)
  : option (list ExecutionStep * nat * list string * World) :=
  match n with
  | O => Some (rest, currentStep, errs, w)
  | S n' =>
      match rest with
      | [] => None
      | step :: rest' =>
          match loop_body manifest p onProgress tok step currentStep errs w with
          | (Returned (Continue errs'), w') =>
              advance manifest p onProgress tok n' rest' (S currentStep) errs' w'
          | _ => None
          end
      end
  end.

(** the loop state [n] finished steps into a run of [executeFromStep]
    that started in [w] with the lock free *)
Definition after_steps (manifest : GlideManifest) (p : ExecutionPlan) (onProgress : bool)
    (tok : option CancellationToken) (n : nat) (w : World)
  : option (list ExecutionStep * nat * list string * World) :=
  advance manifest p onProgress tok n
    (skipn (currentStep p) (steps p)) (currentStep p) [] (snd (take_lock tok w)).

(** the check at the head of the loop (line 107) throws *)
Definition raised_before_step (tok : option CancellationToken) (w : World) : Prop :=
  exists msg, fst (throwIfCancelled_opt tok w) = Thrown (CancellationError msg).

(** a check inside the step executor throws, within the inner [try] *)
Definition raised_in_step (manifest : GlideManifest) (p : ExecutionPlan) (onProgress : bool)
    (tok : option CancellationToken) (step : ExecutionStep) (currentStep : nat) (w : World)
  : Prop :=
  fst (throwIfCancelled_opt tok w) = Returned tt /\
  exists msg,
    fst (try_step step manifest p tok currentStep
           (snd (report onProgress (currentStep + 1) (length (steps p))
                   (getStepMessage step) w)))
    = Thrown (CancellationError msg).

(** What may happen in an execution context after a run: the host asks
    to start a plan, a resumer hands over a persisted state, a detector
    polls the durable slot, or time passes. *)
Inductive Request :=
| StartPlan (p : ExecutionPlan) (onProgress : bool) (tok : option CancellationToken)
| Resume (state : ExecutionState) (onProgress : bool) (tok : option CancellationToken)
| PollPending
| Pause (ms : Z).

Fixpoint serve (reqs : list Request) (w : World)
  : list (Outcome (ExecutionResult * ExecutionPlan)) * World :=
  match reqs with
  | [] => ([], w)
  | StartPlan p onProgress tok :: reqs' =>
      let (o, w') := executePlan p onProgress tok w in
      let (os, w'') := serve reqs' w' in
      (o :: os, w'')
  | Resume state onProgress tok :: reqs' =>
      let (o, w') := resumeExecution state onProgress tok w in
      let (os, w'') := serve reqs' w' in
      (o :: os, w'')
  | PollPending :: reqs' => serve reqs' (snd (checkPendingExecution w))
  | Pause ms :: reqs' => serve reqs' (snd (suspend ms w))
  end.

(** the requests of a list that ask for an execution *)
Definition is_attempt (r : Request) : bool :=
  match r with
  | StartPlan _ _ _ | Resume _ _ _ => true
  | PollPending | Pause _ => false
  end.

(** the calls an observer receives while the steps [started] are begun
    one after the other from cursor [c] in a plan of [total] steps *)
Fixpoint notices (total c : nat) (started : list ExecutionStep)
  : list (nat * nat * string) :=
  match started with
  | [] => []
  | step :: more => ((c + 1)%nat, total, getStepMessage step) :: notices total (S c) more
  end.

(** the world at the [i]-th test of a polling loop that began in [w] *)
Definition poll_world (i : nat) (w : World) : World :=
  Nat.iter i (fun x => snd (wait 100 x)) w.

Definition no_ghost (r : Node) : Prop :=
  Forall (fun e => Dom.has_class GHOST_CLASS e = false) (Dom.all_elements r).

End Engine.

(** What a step executor leaves alone: the lock, the active token
    reference, the manifest cache, the durable slot and the observer log. *)
Definition engine_frame (w w' : World) : Prop :=
  isExecuting w' = isExecuting w
  /\ activeCancellationToken w' = activeCancellationToken w
  /\ cachedManifest w' = cachedManifest w
  /\ storage w' = storage w
  /\ progress w' = progress w.

Definition keeps {A} (m : M A) : Prop := forall w, engine_frame w (snd (m w)).

(** a computation returns only values that satisfy [P] *)
Definition returns_only {A} (P : A -> Prop) (m : M A) : Prop :=
  forall w a w', m w = (Returned a, w') -> P a.

(** a write through the reference [h], seen from an element object *)
Definition touch (h : nat) (f : Element -> Element) (e : Element) : Element :=
  if Nat.eqb (nid e) h then f e else e.

Definition unghost (e : Element) : Element := Dom.classList_remove GHOST_CLASS e.

(** the world once the observer has been told of the step at cursor [c] *)
Definition reported (p : ExecutionPlan) (onProgress : bool) (step : ExecutionStep)
    (c : nat) (w : World) : World :=
  snd (report onProgress (c + 1) (length (steps p)) (getStepMessage step) w).

Definition notice (p : ExecutionPlan) (onProgress : bool) (step : ExecutionStep) (c : nat)
  : list (nat * nat * string) :=
  if onProgress then [((c + 1)%nat, length (steps p), getStepMessage step)] else [].

(** the number of reference tokens that stand in a containment relation
    with some candidate token *)
Definition matched_tokens (aWords bWords : list string) : nat :=
  length (List.filter (fun aWord => existsb (related_words aWord) bWords) aWords).

(** what a probe of the document for an optional selector finds *)
Definition absent (env : Environment) (sel : option string) (w : World) : Prop :=
  fst (probe env sel w) = Returned None.

Definition appears (env : Environment) (sel : option string) (w : World) (el : Node) : Prop :=
  fst (probe env sel w) = Returned (Some el).

(** the error a step returns is a missing-value error *)
Definition is_missing_value_error (r : StepResult) : Prop :=
  exists rest, sr_error r = Some ("No value provided" ++ rest)%string.

(** what the scan has found after a prefix of the options: the best score
    so far, and the first option that reaches it *)
Definition best_so_far (v : string) (seen : list OptionData) (acc : option OptionData * Q)
  : Prop :=
  (0 <= snd acc)%Q
  /\ (forall o, In o seen -> (option_score v o <= snd acc)%Q)
  /\ match fst acc with
     | Some o =>
         exists before after,
           seen = before ++ o :: after
           /\ option_score v o = snd acc
           /\ (0 < snd acc)%Q
           /\ forall x, In x before -> (option_score v x < snd acc)%Q
     | None => snd acc = 0%Q
     end.

(** what a label resolves to: the target of its [for] attribute, else a
    control nested in it, else the first control under its parent *)
Definition resolve_label (r : Node) (inputType : option string) (x : Node * option Node)
  : option Node :=
  match label_for r inputType (fst x) with
  | Some input => Some input
  | None =>
      match label_nested (fst x) with
      | Some nestedInput => Some nestedInput
      | None => label_adjacent inputType (snd x)
      end
  end.

(** the [label] elements of a document, each with its parent *)
Definition labels_of (r : Node) : list (Node * option Node) :=
  List.filter (fun x => Dom.has_tag ["label"] (fst x)) (Dom.walk None r).

(** the string has no [|] in it *)
Fixpoint no_bar (s : string) : bool :=
  match s with
  | EmptyString => true
  | String c s' => negb (Ascii.eqb c "|") && no_bar s'
  end.

(** ** Sample documents, plans and environments *)

Module Sample.

Definition element (n : nat) (tag i ty for_ : string) : Element :=
  {| nid := n; tagName := tag; el_id := i; classList := []; el_type := ty;
     htmlFor := for_; el_value := ""; checked := false; el_options := [];
     attributes := [] |}.

(** a selector engine for [#id] selectors *)
Definition id_matches (sel : string) (r : Node) (h : nat) : bool :=
  match Dom.deref r h with
  | Some e => String.eqb ("#" ++ el_id e) sel
  | None => false
  end.

(** a page without scripts; the host cancels during every suspension
    from the [k]-th interaction on, if [cancel_from] is [Some k] *)
Definition quiet (cancel_from : option nat) : Environment :=
  {| css_valid := Js.truthy;
     css_matches := id_matches;
     route_regex_test := fun _ _ => false;
     page_idle := fun _ pg => pg;
     page_react := fun _ _ _ pg => pg;
     host_cancels := fun n => match cancel_from with
                              | Some k => (k <=? n)%nat
                              | None => false
                              end;
     timer_late := fun _ => 0%nat |}.

(** [<label for="f1">Full Name</label><input id="f1">] *)
Definition name_form : Node :=
  ElementNode (element 0 "body" "" "" "")
    [ ElementNode (element 1 "label" "" "" "f1") [TextNode "Full Name"];
      ElementNode (element 2 "input" "f1" "text" "") [] ].

(** [<label>Age <input type="text" id="age"></label>] *)
Definition nested_form : Node :=
  ElementNode (element 0 "body" "" "" "")
    [ ElementNode (element 1 "label" "" "" "")
        [ TextNode "Age "; ElementNode (element 2 "input" "age" "text" "") [] ] ].

Definition manifest0 : GlideManifest := {| app_name := "demo"; navigation := [] |}.

Definition world (r : Node) : World :=
  {| isExecuting := false; activeCancellationToken := None; cancelledTokens := ∅;
     cachedManifest := Some manifest0; storage := ∅;
     page := {| root := r; pathname := "/" |};
     windowConfirmStub := false; timers := []; now := 0; ticks := 0; progress := [] |}.

Definition step (ty : ExecutionStepType) (tg v : option string) : ExecutionStep :=
  {| type := ty; target := tg; value := v; waitFor := None; errorSelector := None;
     message := None; action := None |}.

Definition plan_of (ents : gmap string string) (sts : list ExecutionStep) (c : nat)
    (st : PlanStatus) : ExecutionPlan :=
  {| plan_id := "plan_1"; intent := "demo"; confidence := 1; entities := ents;
     steps := sts; confirmMessage := "Proceed?"; currentStep := c; status := st;
     plan_error := None |}.

Definition empty_plan : ExecutionPlan := plan_of ∅ [] 0 confirmed.

Definition jane_plan : ExecutionPlan :=
  plan_of {[ "name" := "Jane Wambui" ]}
    [ step notify None None; step fill (Some "label:Full Name") (Some "name") ]
    0 confirmed.

(** a fill step whose [value] names a key the entity mapping lacks *)
Definition orphan_fill : ExecutionStep := step fill (Some "#f1") (Some "name").

Definition pending_state : ExecutionState :=
  {| plan := plan_of {[ "name" := "Jane Wambui" ]}
               [ step notify None None; step fill (Some "#f1") (Some "name") ]
               1 executing;
     startedAt := 0; lastUpdated := 0 |}.

Definition world_with_state : World :=
  set_storage {[ EXECUTION_STATE_KEY := pending_state ]} (world name_form).

Definition busy_world : World := set_isExecuting true (world name_form).

(** a form with a submit button; [with_error] adds the banner
    [<div id="err"> Name is required </div>] *)
Definition submit_form (with_error : bool) : Node :=
  ElementNode (element 0 "body" "" "" "")
    (ElementNode (element 1 "button" "save" "submit" "") [TextNode "Save"]
     :: if with_error
        then [ElementNode (element 2 "div" "err" "" "") [TextNode " Name is required "]]
        else []).

(** a page whose script shows the error banner during the [k]-th
    interaction *)
Definition failing_form (k : nat) : Environment :=
  {| css_valid := Js.truthy;
     css_matches := id_matches;
     route_regex_test := fun _ _ => false;
     page_idle := fun n pg =>
                    if (n =? k)%nat
                    then {| root := submit_form true; pathname := pathname pg |}
                    else pg;
     page_react := fun _ _ _ pg => pg;
     host_cancels := fun _ => false;
     timer_late := fun _ => 3%nat |}.

Definition submit_step : ExecutionStep :=
  {| type := submit; target := Some "#save"; value := None; waitFor := Some "#done";
     errorSelector := Some "#err"; message := None; action := None |}.

End Sample.

(** ** How a run of the engine can end *)

(** the run came to the completion block (lines 159-171) *)
Definition ended_completed (p : ExecutionPlan) (r : ExecutionResult) (p' : ExecutionPlan)
    (w' : World) : Prop :=
  p' = p
  /\ cancelled r = false /\ navigating r = false
  /\ (success r = true <-> errors r = None)
  /\ (errors r = None -> completedSteps r = length (steps p))
  /\ (forall l, errors r = Some l ->
                l <> [] /\ (length l <= length (steps p) - currentStep p)%nat)
  /\ storage w' !! EXECUTION_STATE_KEY = None
  /\ isExecuting w' = false
  /\ activeCancellationToken w' = None.

(** the run handed over to a navigation (lines 116-132) *)
Definition ended_navigating (p : ExecutionPlan) (r : ExecutionResult) (p' : ExecutionPlan)
    (w' : World) : Prop :=
  success r = true /\ navigating r = true /\ cancelled r = false /\ errors r = None
  /\ (1 <= completedSteps r)%nat
  /\ p' = set_status executing (set_currentStep (completedSteps r) p)
  /\ (exists t, storage w' !! EXECUTION_STATE_KEY
                = Some {| plan := p'; startedAt := t; lastUpdated := t |})
  /\ isExecuting w' = false
  /\ activeCancellationToken w' = None.

(** the run was cancelled (lines 141-153 and 174-185); [held] tells
    whether the lock is still set *)
Definition ended_cancelled (p : ExecutionPlan) (r : ExecutionResult) (p' : ExecutionPlan)
    (w' : World) (held : bool) : Prop :=
  p' = p
  /\ cancelled r = true /\ success r = false /\ navigating r = false /\ errors r = None
  /\ storage w' !! EXECUTION_STATE_KEY = None
  /\ no_ghost (root (page w'))
  /\ isExecuting w' = held
  /\ activeCancellationToken w' = None.

(** ** What a step executor may return *)

(** the shape of the result of a step of kind [ty]: only a navigation
    step asks for a hand-off; a success carries no error and is not
    fatal; a failure carries a message, which is what the engine
    records; only fill, select, submit and find-row steps fail fatally *)
Definition well_formed_result (ty : ExecutionStepType) (r : StepResult) : Prop :=
  (needsNavigation r = true -> ty = navigate /\ sr_success r = true)
  /\ (sr_success r = true -> sr_error r = None /\ fatal r = false)
  /\ (sr_success r = false ->
      exists msg, sr_error r = Some msg /\ forall d, Js.or_else (sr_error r) d = msg)
  /\ (fatal r = true -> ty = fill \/ ty = select \/ ty = submit \/ ty = find_row).

(** ** Highlights *)

(** the elements that carry the ghost class are among those the
    references in [held] point at *)
Definition marked_within (held : list nat) (r : Node) : Prop :=
  forall e, In e (Dom.all_elements r) ->
            Dom.has_class GHOST_CLASS e = true -> In (nid e) held.

(** the page's own scripts never put the ghost class on an element *)
Definition leaves_markers (env : Environment) : Prop :=
  forall held n pg,
    marked_within held (root pg) ->
    marked_within held (root (page_idle env n pg))
    /\ forall ev h, marked_within held (root (page_react env n ev h pg)).

(** a computation started in a document that satisfies [P] returns in
    one that satisfies [Q], and when it throws anything but a
    cancellation no element carries the ghost class *)
Definition triple {A} (P : Node -> Prop) (m : M A) (Q : A -> Node -> Prop) : Prop :=
  forall w, P (root (page w)) ->
    match m w with
    | (Returned a, w') => Q a (root (page w'))
    | (Thrown e, w') => is_cancellation e = true \/ marked_within [] (root (page w'))
    end.

(** the computation is entered with highlights on [held] at most and
    left with highlights on [held'] at most *)
Definition tidy {A} (held : list nat) (m : M A) (held' : list nat) : Prop :=
  triple (marked_within held) m (fun _ => marked_within held').

(** an update of an element that keeps its identity and its highlight *)
Definition keeps_highlight (f : Element -> Element) : Prop :=
  forall e, nid (f e) = nid e
            /\ Dom.has_class GHOST_CLASS (f e) = Dom.has_class GHOST_CLASS e.

(** what one pass of the loop leaves behind *)
Definition pass_tidy (b : BodyExit) (r : Node) : Prop :=
  match b with
  | Leave (LoopEscape _ e) => is_cancellation e = true \/ marked_within [] r
  | _ => marked_within [] r
  end.

Definition exit_tidy (x : LoopExit) (r : Node) : Prop :=
  match x with
  | LoopEscape _ e => is_cancellation e = true \/ marked_within [] r
  | _ => marked_within [] r
  end.

(** ** Pages without scripts *)

(** nothing but the engine changes the document: the page does not
    react to events and does nothing while the engine is suspended *)
Definition calm (env : Environment) : Prop :=
  forall n pg,
    page_idle env n pg = pg /\ forall ev h, page_react env n ev h pg = pg.

(** started on the page [pg], the computation returns [a] and leaves
    the page [pg'], whatever the rest of the world is *)
Definition yields {A} (m : M A) (pg : Page) (a : A) (pg' : Page) : Prop :=
  forall w, page w = pg -> exists w', m w = (Returned a, w') /\ page w' = pg'.

(** what the engine has done to the element it filled, selected in or
    checked, once the step is over *)
Definition filled (v : string) (e : Element) : Element :=
  unghost (Dom.with_value v (Dom.classList_add GHOST_CLASS e)).

Definition ticked (e : Element) : Element :=
  unghost (Dom.with_checked true (Dom.classList_add GHOST_CLASS e)).

(** ** Rows and their controls *)

(** the rows [findMatchingRow] looks through: the [tbody tr] rows of
    each table, then what the list selectors match *)
Definition table_rows (env : Environment) (r : Node) : list Node :=
  flat_map (select_in env "tbody tr" r)
    (List.filter (Dom.has_tag ["table"]) (map fst (Dom.walk None r))).

Definition list_items (env : Environment) (r : Node) : list Node :=
  flat_map (fun sel => select_all env sel r) listSelectors.

(** [rowText.includes(searchLower)] *)
Definition row_hit (searchText : string) (n : Node) : bool :=
  Js.includes (lower_text n) (Js.trim (Js.toLowerCase searchText)).

(** how [findRowActionButton] reads the action it is given *)
Definition is_delete_action (act : string) : bool :=
  String.eqb (Js.toLowerCase act) "delete" || String.eqb (Js.toLowerCase act) "remove".

Definition is_edit_action (act : string) : bool :=
  String.eqb (Js.toLowerCase act) "edit" || String.eqb (Js.toLowerCase act) "update".

(** [row.querySelectorAll('button, a, [role="button"]')] *)
Definition row_controls (env : Environment) (r row : Node) : list Node :=
  select_in env ("button, a, [role=" ++ dquote ++ "button" ++ dquote ++ "]") r row.

(** the controls of the row that the action's search terms or icon
    tests accept *)
Definition matching_controls (env : Environment) (r row : Node) (act : string) : list Node :=
  List.filter
    (button_matches (is_delete_action act) (is_edit_action act) (Js.toLowerCase act))
    (row_controls env r row).

(** ** Routes *)

(** the test [getCurrentRoute] makes on one route of the manifest *)
Definition route_hit (env : Environment) (currentPath : string) (route : NavRoute) : bool :=
  String.eqb (path route) currentPath
  || (is_dynamic (path route) && route_regex_test env (path route) currentPath).

(** ** The content script ([src/content/index.ts]) and the manifest
    loader ([src/content/manifestLoader.ts]) *)

Definition set_cachedManifest (m : option GlideManifest) (w : World) : World :=
  {| isExecuting := isExecuting w; activeCancellationToken := activeCancellationToken w;
     cancelledTokens := cancelledTokens w; cachedManifest := m;
     storage := storage w; page := page w; windowConfirmStub := windowConfirmStub w;
     timers := timers w; now := now w; ticks := ticks w; progress := progress w |}.

(** Where [loadManifest] looks: the value the app injected as
    [window.__GLIDE__]; the text of the manifest script tag, if there is
    one with a text, with what [JSON.parse] makes of it ([None] when it
    throws); and what fetching [/glide.manifest.json] gives ([None] when
    the request fails or the answer is not [ok]). *)
Record ManifestSources := {
  injected : option GlideManifest;
  script_tag : option (option GlideManifest);
  fetched : option GlideManifest;
}.

(** The module variables of the content script.  The token objects it
    creates are named by their number in the order of creation. *)
Record Tab := {
  tab_token : option CancellationToken;
  resumeInProgress : bool;
  lastUrl : string;
  tokens_created : nat;
}.

Definition set_tab_token (t : option CancellationToken) (tab : Tab) : Tab :=
  {| tab_token := t; resumeInProgress := resumeInProgress tab; lastUrl := lastUrl tab;
     tokens_created := tokens_created tab |}.

Definition set_resumeInProgress (b : bool) (tab : Tab) : Tab :=
  {| tab_token := tab_token tab; resumeInProgress := b; lastUrl := lastUrl tab;
     tokens_created := tokens_created tab |}.

Definition set_lastUrl (u : string) (tab : Tab) : Tab :=
  {| tab_token := tab_token tab; resumeInProgress := resumeInProgress tab; lastUrl := u;
     tokens_created := tokens_created tab |}.

(** [createCancellationToken()] *)
Definition createCancellationToken (tab : Tab) : CancellationToken * Tab :=
  (tokens_created tab,
   {| tab_token := tab_token tab; resumeInProgress := resumeInProgress tab;
      lastUrl := lastUrl tab; tokens_created := S (tokens_created tab) |}).

(** The messages of [handleMessage] that do not scan the page, and its
    answers. *)
Inductive Message :=
| PING
| GET_STATUS
| GET_MANIFEST
| EXECUTE_PLAN (plan : option ExecutionPlan)
| CANCEL_EXECUTION
| OtherMessage (type : string).

Inductive Response :=
| PONG
| STATUS (state : string) (manifestLoaded : bool) (appName currentRoute : option string)
| MANIFEST (manifest : option GlideManifest)
| EXECUTION_RESULT (result : ExecutionResult)
| SUCCESS (message : string)
| ERROR (error : string).

Section ContentScript.

Variable env : Environment.

(** [loadManifest] (manifestLoader.ts, lines 23-85); the check of the
    schema version only writes to the console *)
Definition loadManifest (sources : ManifestSources) : M (option GlideManifest) :=
  cached <- gets cachedManifest ;;
  match cached with
  | Some m => ret (Some m)
  | None =>
      let early :=
        match injected sources with
        | Some m => Some m
        | None =>
            match script_tag sources with
            | Some parsed => parsed
            | None => None
            end
        end in
      manifest <-
        match early with
        | Some m => ret (Some m)
        | None => suspend env 0 ;; ret (fetched sources)
        end ;;
      match manifest with
      | None => ret None
      | Some m => modify (set_cachedManifest (Some m)) ;; ret (Some m)
      end
  end.

(** [clearManifestCache] (manifestLoader.ts, lines 97-99) *)
Definition clearManifestCache : M unit := modify (set_cachedManifest None).

(** [getStatus] (index.ts, lines 143-156) *)
Definition getStatus (w : World) : Response :=
  match cachedManifest w with
  | Some m =>
      let currentRoute := getCurrentRoute_loop env (pathname (page w)) (navigation m) in
      STATUS "ready" true (Some (app_name m))
        (match currentRoute with
         | Some n => if Js.truthy n then Some n else None
         | None => None
         end)
  | None => STATUS "no-manifest" false None None
  end.

(** [handleMessage] (index.ts, lines 72-138).  A cancel request that
    was served while the run was suspended has both cancelled the token
    and cleared the variable: it is recognised by the token's flag. *)
Definition handleMessage (message : Message) (tab : Tab) (w : World)
  : Outcome Response * Tab * World :=
  match message with
  | PING => (Returned PONG, tab, w)
  | GET_STATUS => (Returned (getStatus w), tab, w)
  | GET_MANIFEST => (Returned (MANIFEST (cachedManifest w)), tab, w)
  | EXECUTE_PLAN None => (Returned (ERROR "No plan provided"), tab, w)
  | EXECUTE_PLAN (Some plan) =>
      let (token, tab1) := createCancellationToken tab in
      let tab2 := set_tab_token (Some token) tab1 in
      match executePlan env plan true (Some token) w with
      | (Returned (result, _), w') =>
          let tab3 := if isCancelled token w' then set_tab_token None tab2 else tab2 in
          let tab4 := if navigating result then tab3 else set_tab_token None tab3 in
          (Returned (EXECUTION_RESULT result), tab4, w')
      | (Thrown e, w') => (Thrown e, tab2, w')
      end
  | CANCEL_EXECUTION =>
      match tab_token tab with
      | Some _ =>
          (Returned (SUCCESS "Execution cancelled"), set_tab_token None tab,
           cancelActiveExecution w)
      | None => (Returned (ERROR "No active execution to cancel"), tab, w)
      end
  | OtherMessage type => (Returned (ERROR ("Unknown message type: " ++ type)), tab, w)
  end.

(** the resume shared by [initialize] and [checkUrlChange] (index.ts,
    lines 45-55 and 190-200) *)
Definition resume_with_new_token (pendingState : ExecutionState) (tab : Tab) (w : World)
  : Outcome unit * Tab * World :=
  let (token, tab1) := createCancellationToken tab in
  let tab2 := set_tab_token (Some token) tab1 in
  match resumeExecution env pendingState true (Some token) w with
  | (Returned _, w') => (Returned tt, set_resumeInProgress false (set_tab_token None tab2), w')
  | (Thrown e, w') => (Thrown e, set_resumeInProgress false tab2, w')
  end.

(** [initialize] (index.ts, lines 17-57) *)
Definition initialize (sources : ManifestSources) (tab : Tab) (w : World)
  : Outcome unit * Tab * World :=
  match loadManifest sources w with
  | (Thrown e, w1) => (Thrown e, tab, w1)
  | (Returned manifest, w1) =>
      if resumeInProgress tab then (Returned tt, tab, w1)
      else
        match checkPendingExecution env w1 with
        | (Thrown e, w2) => (Thrown e, tab, w2)
        | (Returned None, w2) => (Returned tt, tab, w2)
        | (Returned (Some pendingState), w2) =>
            match manifest with
            | None => (Returned tt, tab, w2)
            | Some _ =>
                let tab1 := set_resumeInProgress true tab in
                match wait env 800 w2 with
                | (Thrown e, w3) => (Thrown e, tab1, w3)
                | (Returned _, w3) => resume_with_new_token pendingState tab1 w3
                end
            end
        end
  end.

(** [checkUrlChange] (index.ts, lines 164-203), called when
    [window.location.href] is [href] *)
Definition checkUrlChange (href : string) (tab : Tab) (w : World)
  : Outcome unit * Tab * World :=
  if String.eqb href (lastUrl tab) then (Returned tt, tab, w)
  else
    let tab1 := set_lastUrl href tab in
    if resumeInProgress tab1 then (Returned tt, tab1, w)
    else
      match wait env 1000 w with
      | (Thrown e, w1) => (Thrown e, tab1, w1)
      | (Returned _, w1) =>
          if resumeInProgress tab1 then (Returned tt, tab1, w1)
          else
            match checkPendingExecution env w1 with
            | (Thrown e, w2) => (Thrown e, tab1, w2)
            | (Returned None, w2) => (Returned tt, tab1, w2)
            | (Returned (Some pendingState), w2) =>
                match cachedManifest w2 with
                | None => (Returned tt, tab1, w2)
                | Some _ =>
                    resume_with_new_token pendingState (set_resumeInProgress true tab1) w2
                end
            end
      end.

End ContentScript.

(** ** The stand-in for [window.confirm] *)

(** [window.confirm] is the stand-in that accepts everything, and
    every restore still pending puts such a stand-in back *)
Definition confirm_lost (w : World) : Prop :=
  windowConfirmStub w = true /\ Forall (fun x : Z * bool => snd x = true) (timers w).

Definition stays_lost {A} (m : M A) : Prop :=
  forall w, confirm_lost w -> confirm_lost (snd (m w)).

(** the update leaves [window.confirm] and the pending restores alone *)
Definition spares_confirm (f : World -> World) : Prop :=
  forall w, windowConfirmStub (f w) = windowConfirmStub w /\ timers (f w) = timers w.

(** [window.confirm] is the page's own and no restore is pending *)
Definition confirm_clean (w : World) : Prop :=
  windowConfirmStub w = false /\ timers w = [].

(** the stand-in is installed for the click of a delete step, and no
    restore is pending yet *)
Definition confirm_armed (w : World) : Prop :=
  windowConfirmStub w = true /\ timers w = [].

(** [window.confirm] is the page's own, or its restore is due within
    two seconds *)
Definition confirm_restoring (w : World) : Prop :=
  confirm_clean w
  \/ exists t, timers w = [(t, false)] /\ (t <= now w + 2000)%Z.

(** the computation keeps the property [I] of worlds, whether it
    returns or throws *)
Definition preserves (I : World -> Prop) {A} (m : M A) : Prop :=
  forall w, I w -> I (snd (m w)).

(** the property is about [window.confirm], the pending restores and
    the clock only *)
Definition about_confirm (I : World -> Prop) : Prop :=
  forall w w',
    windowConfirmStub w' = windowConfirmStub w -> timers w' = timers w ->
    now w' = now w -> I w -> I w'.

(** started in a world with [P], the computation ends, returning or
    throwing, in a world with [Q] *)
Definition moves (P Q : World -> Prop) {A} (m : M A) : Prop :=
  forall w, P w -> Q (snd (m w)).

(** ** Further sample documents and plans *)

Module Scenario.

(** [<a id="nav-students">Students</a>], the name form and a check box *)
Definition nav_page : Node :=
  ElementNode (Sample.element 0 "body" "" "" "")
    [ ElementNode (Sample.element 1 "a" "nav-students" "" "") [TextNode "Students"];
      ElementNode (Sample.element 2 "label" "" "" "f1") [TextNode "Full Name"];
      ElementNode (Sample.element 3 "input" "f1" "text" "") [];
      ElementNode (Sample.element 4 "input" "agree" "checkbox" "") [] ].

(** two routes; the second names its navigation element by an empty
    selector, which [querySelector] refuses *)
Definition manifest1 : GlideManifest :=
  {| app_name := "demo";
     navigation :=
       [ ("students", {| path := "/students"; description := "Student list";
                         selector := "#nav-students" |});
         ("reports", {| path := "/reports"; description := "Reports";
                        selector := "" |}) ] |}.

(** a fresh execution context on the page at [pathname], with the
    durable storage [st] *)
Definition context (st : gmap string ExecutionState) (path : string) : World :=
  {| isExecuting := false; activeCancellationToken := None; cancelledTokens := ∅;
     cachedManifest := Some manifest1; storage := st;
     page := {| root := nav_page; pathname := path |};
     windowConfirmStub := false; timers := []; now := 0; ticks := 0; progress := [] |}.

Definition home : World := context ∅ "/".

Definition names : gmap string string := {[ "name" := "Jo" ]}.

(** a step of an unknown kind, then a navigation, then a fill *)
Definition enrol_plan : ExecutionPlan :=
  Sample.plan_of names
    [ Sample.step (other_type "hover") (Some "#nav-students") None;
      Sample.step navigate (Some "students") None;
      Sample.step fill (Some "label:Full Name") (Some "name") ]
    0 confirmed.

(** a fill step without a value, then a notification *)
Definition valueless_plan : ExecutionPlan :=
  Sample.plan_of ∅
    [ Sample.step fill (Some "#f1") None; Sample.step notify None None ]
    0 confirmed.

(** a navigation to the route with the empty selector, then a notification *)
Definition reports_plan : ExecutionPlan :=
  Sample.plan_of ∅
    [ Sample.step navigate (Some "reports") None; Sample.step notify None None ]
    0 confirmed.

(** a fill, then a notification *)
Definition fill_then_notify : ExecutionPlan :=
  Sample.plan_of names
    [ Sample.step fill (Some "#f1") (Some "name"); Sample.step notify None None ]
    0 confirmed.

(** [<select id="grade">] with a placeholder and three grades, one of
    them disabled *)
Definition grade_select : Element :=
  {| nid := 1; tagName := "select"; el_id := "grade"; classList := []; el_type := "select-one";
     htmlFor := ""; el_value := ""; checked := false;
     el_options :=
       [ {| opt_value := ""; opt_text := "Choose a grade"; opt_disabled := false |};
         {| opt_value := "g7"; opt_text := "Grade 7"; opt_disabled := false |};
         {| opt_value := "g8"; opt_text := "Grade 8"; opt_disabled := true |};
         {| opt_value := "g9"; opt_text := "Grade 9"; opt_disabled := false |} ];
     attributes := [] |}.

Definition grade_page : Node :=
  ElementNode (Sample.element 0 "body" "" "" "") [ ElementNode grade_select [] ].

Definition grade_world : World :=
  {| isExecuting := false; activeCancellationToken := None; cancelledTokens := ∅;
     cachedManifest := Some manifest1; storage := ∅;
     page := {| root := grade_page; pathname := "/" |};
     windowConfirmStub := false; timers := []; now := 0; ticks := 0; progress := [] |}.

(** a selector engine for [#id] selectors, for [tbody tr] (in the sample
    documents every [tr] lies in a [tbody]) and for the controls of a
    row *)
Definition row_matches (sel : string) (r : Node) (h : nat) : bool :=
  match Dom.deref r h with
  | Some e =>
      if String.eqb sel "tbody tr" then String.eqb (tagName e) "tr"
      else if String.eqb sel ("button, a, [role=" ++ dquote ++ "button" ++ dquote ++ "]")
           then String.eqb (tagName e) "button" || String.eqb (tagName e) "a"
                || String.eqb (Js.or_else (Dom.getAttribute "role" e) "") "button"
           else String.eqb ("#" ++ el_id e) sel
  | None => false
  end.

(** a page without scripts, a punctual clock and a host that never
    cancels *)
Definition browser : Environment :=
  {| css_valid := Js.truthy;
     css_matches := row_matches;
     route_regex_test := fun _ _ => false;
     page_idle := fun _ pg => pg;
     page_react := fun _ _ _ pg => pg;
     host_cancels := fun _ => false;
     timer_late := fun _ => 0%nat |}.

Definition cell (n : nat) (kids : list Node) : Node :=
  ElementNode (Sample.element n "td" "" "" "") kids.

Definition button (n : nat) (label : string) : Node :=
  ElementNode (Sample.element n "button" "" "button" "") [TextNode label].

(** the row of Jane Wambui, whose only control archives the record *)
Definition jane_row : Node :=
  ElementNode (Sample.element 3 "tr" "" "" "")
    [ cell 4 [TextNode "Jane Wambui"]; cell 5 [button 6 "Archive"] ].

Definition john_row : Node :=
  ElementNode (Sample.element 7 "tr" "" "" "")
    [ cell 8 [TextNode "John Otieno"]; cell 9 [button 10 "Edit"; button 11 "Delete"] ].

Definition records_page : Node :=
  ElementNode (Sample.element 0 "body" "" "" "")
    [ ElementNode (Sample.element 1 "table" "" "" "")
        [ ElementNode (Sample.element 2 "tbody" "" "" "") [ jane_row; john_row ] ] ].

Definition records_world : World :=
  {| isExecuting := false; activeCancellationToken := None; cancelledTokens := ∅;
     cachedManifest := Some manifest1; storage := ∅;
     page := {| root := records_page; pathname := "/students" |};
     windowConfirmStub := false; timers := []; now := 0; ticks := 0; progress := [] |}.

(** the content script just loaded on [http://app.test/] *)
Definition tab0 : Tab :=
  {| tab_token := None; resumeInProgress := false; lastUrl := "http://app.test/";
     tokens_created := 0 |}.

(** nothing to load a manifest from *)
Definition no_sources : ManifestSources :=
  {| injected := None; script_tag := None; fetched := None |}.

(** a context in which a plan is running under the token [t] *)
Definition running (t : CancellationToken) : World :=
  set_activeCancellationToken (Some t) (set_isExecuting true home).

(** a find-row step that deletes the record of [who] *)
Definition delete_step (who : string) : ExecutionStep :=
  {| type := find_row; target := None; value := Some who; waitFor := None;
     errorSelector := None; message := None; action := Some "delete" |}.

Definition purge_plan : ExecutionPlan :=
  Sample.plan_of ∅ [ delete_step "jane"; delete_step "john" ] 0 confirmed.

(** a wait step of [ms] milliseconds, its value written as a template
    literal would *)
Definition pause_step (ms : nat) : ExecutionStep :=
  {| type := wait_; target := None; value := Some (Js.show_nat ms); waitFor := None;
     errorSelector := None; message := None; action := None |}.

End Scenario.

(** * Properties *)

Arguments suspend : simpl never.
Arguments clearExecutionState : simpl never.
Arguments saveExecutionState : simpl never.
Arguments clearGhostHighlights : simpl never.
Arguments take_lock : simpl never.
Arguments executeStep : simpl never.

Lemma bind_returned {A B} (m : M A) (k : A -> M B) w a w' :
  m w = (Returned a, w') -> bind m k w = k a w'.
Proof. intros H. unfold bind. rewrite H. reflexivity. Qed.

Lemma bind_thrown {A B} (m : M A) (k : A -> M B) w e w' :
  m w = (Thrown e, w') -> bind m k w = (Thrown e, w').
Proof. intros H. unfold bind. rewrite H. reflexivity. Qed.

(** ** The frame of the step executors *)

Lemma engine_frame_refl w : engine_frame w w.
Proof. repeat split. Qed.

Lemma engine_frame_trans w1 w2 w3 :
  engine_frame w1 w2 -> engine_frame w2 w3 -> engine_frame w1 w3.
Proof.
  unfold engine_frame. intros (a1 & a2 & a3 & a4 & a5) (b1 & b2 & b3 & b4 & b5).
  repeat split; congruence.
Qed.

Lemma keeps_ret {A} (a : A) : keeps (ret a).
Proof. intros w. apply engine_frame_refl. Qed.

Lemma keeps_throw {A} (e : Exn) : keeps (@throw A e).
Proof. intros w. apply engine_frame_refl. Qed.

Lemma keeps_gets {A} (f : World -> A) : keeps (gets f).
Proof. intros w. apply engine_frame_refl. Qed.

Lemma keeps_bind {A B} (m : M A) (k : A -> M B) :
  keeps m -> (forall a, keeps (k a)) -> keeps (bind m k).
Proof.
  intros Hm Hk w. unfold bind. specialize (Hm w).
  destruct (m w) as [[a | e] w1]; simpl in *.
  - eapply engine_frame_trans; [exact Hm | apply Hk].
  - exact Hm.
Qed.

Lemma keeps_try_finally {A} (m : M A) (f : World -> World) :
  keeps m -> (forall w, engine_frame w (f w)) -> keeps (try_finally m f).
Proof.
  intros Hm Hf w. unfold try_finally. specialize (Hm w).
  destruct (m w) as [o w1]; simpl in *.
  eapply engine_frame_trans; [exact Hm | apply Hf].
Qed.

Lemma keeps_throwIfCancelled_opt tok : keeps (throwIfCancelled_opt tok).
Proof.
  intros w. destruct tok as [t|]; simpl; [|apply engine_frame_refl].
  unfold throwIfCancelled. destruct (isCancelled t w); apply engine_frame_refl.
Qed.

Lemma cancelActiveExecution_frame w : engine_frame w (cancelActiveExecution w).
Proof.
  unfold cancelActiveExecution, cancel.
  destruct (activeCancellationToken w) as [t|]; [|apply engine_frame_refl].
  destruct (isCancelled t w); repeat split.
Qed.

Section FrameLemmas.

Variable env : Environment.

Lemma keeps_suspend ms : keeps (suspend env ms).
Proof.
  intros w. unfold suspend. simpl.
  destruct (host_cancels env (ticks w)).
  - eapply engine_frame_trans; [|apply cancelActiveExecution_frame]. repeat split.
  - repeat split.
Qed.

Lemma keeps_wait ms : keeps (wait env ms).
Proof. apply keeps_suspend. Qed.

Lemma keeps_write h f : keeps (write h f).
Proof. intros w. repeat split. Qed.

Lemma keeps_read {A} h (f : Element -> A) d : keeps (read h f d).
Proof. apply keeps_gets. Qed.

Lemma keeps_dispatch ev h : keeps (dispatch env ev h).
Proof. intros w. repeat split. Qed.

Lemma keeps_querySelector sel : keeps (querySelector env sel).
Proof.
  intros w. unfold querySelector. destruct (css_valid env sel); apply engine_frame_refl.
Qed.

End FrameLemmas.

Create HintDb keeps.
#[export] Hint Resolve keeps_ret keeps_throw keeps_gets keeps_throwIfCancelled_opt
  keeps_suspend keeps_wait keeps_write keeps_read keeps_dispatch keeps_querySelector : keeps.

Ltac keeps_step :=
  cbv zeta;
  match goal with
  | |- keeps (bind _ _) => apply keeps_bind; [| intros]
  | |- keeps (try_finally _ _) => apply keeps_try_finally
  | |- keeps (if ?b then _ else _) => destruct b
  | |- keeps (match ?x with _ => _ end) => destruct x
  | |- keeps _ => solve [eauto with keeps]
  end.

Ltac keeps_auto := repeat keeps_step.

Lemma keeps_findElement env sel : keeps (findElement env sel).
Proof. unfold findElement. keeps_auto. Qed.
#[export] Hint Resolve keeps_findElement : keeps.

Lemma keeps_waitForElement_loop env fuel sel startTime timeout :
  keeps (waitForElement_loop env fuel sel startTime timeout).
Proof.
  induction fuel as [|fuel IH]; simpl; [apply keeps_ret|].
  unfold Date_now. keeps_auto; try exact IH.
Qed.
#[export] Hint Resolve keeps_waitForElement_loop : keeps.

Lemma keeps_waitForElement env sel timeout : keeps (waitForElement env sel timeout).
Proof. unfold waitForElement, Date_now. keeps_auto. Qed.
#[export] Hint Resolve keeps_waitForElement : keeps.

Lemma keeps_probe env sel : keeps (probe env sel).
Proof. unfold probe. keeps_auto. Qed.
#[export] Hint Resolve keeps_probe : keeps.

Lemma keeps_waitForEither_loop env fuel s e startTime timeout :
  keeps (waitForEither_loop env fuel s e startTime timeout).
Proof.
  induction fuel as [|fuel IH]; simpl; [apply keeps_ret|].
  unfold Date_now. keeps_auto; try exact IH.
Qed.
#[export] Hint Resolve keeps_waitForEither_loop : keeps.

Lemma keeps_waitForEither env s e timeout : keeps (waitForEither env s e timeout).
Proof. unfold waitForEither, Date_now. keeps_auto. Qed.
#[export] Hint Resolve keeps_waitForEither : keeps.

Lemma keeps_mark h : keeps (mark h).
Proof. apply keeps_write. Qed.

Lemma keeps_unmark h : keeps (unmark h).
Proof. apply keeps_write. Qed.

Lemma keeps_scrollIntoView h : keeps (scrollIntoView h).
Proof. apply keeps_ret. Qed.

Lemma keeps_setInputValue h v : keeps (setInputValue h v).
Proof. apply keeps_write. Qed.
#[export] Hint Resolve keeps_mark keeps_unmark keeps_scrollIntoView keeps_setInputValue : keeps.

Lemma keeps_await_appearance env step msg : keeps (await_appearance env step msg).
Proof. unfold await_appearance. keeps_auto. Qed.
#[export] Hint Resolve keeps_await_appearance : keeps.

Lemma keeps_executeNavigate env step manifest tok : keeps (executeNavigate env step manifest tok).
Proof. unfold executeNavigate, getCurrentRoute. keeps_auto. Qed.

Lemma keeps_executeClick env step tok : keeps (executeClick env step tok).
Proof. unfold executeClick. keeps_auto. Qed.

Lemma keeps_type_chars env tok h chars : keeps (type_chars env tok h chars).
Proof.
  induction chars as [|c rest IH]; simpl; [apply keeps_ret|].
  keeps_auto; try exact IH.
Qed.
#[export] Hint Resolve keeps_type_chars : keeps.

Lemma keeps_executeFill env step ents tok : keeps (executeFill env step ents tok).
Proof. unfold executeFill. keeps_auto. Qed.

Lemma keeps_choose_option env h v options : keeps (choose_option env h v options).
Proof. unfold choose_option. keeps_auto. Qed.
#[export] Hint Resolve keeps_choose_option : keeps.

Lemma keeps_executeSelect env step ents tok : keeps (executeSelect env step ents tok).
Proof. unfold executeSelect. keeps_auto. Qed.

Lemma keeps_executeCheck env step tok : keeps (executeCheck env step tok).
Proof. unfold executeCheck. keeps_auto. Qed.

Lemma keeps_awaitSubmitOutcome env step : keeps (awaitSubmitOutcome env step).
Proof. unfold awaitSubmitOutcome. keeps_auto. Qed.
#[export] Hint Resolve keeps_awaitSubmitOutcome : keeps.

Lemma keeps_executeSubmit env step tok : keeps (executeSubmit env step tok).
Proof. unfold executeSubmit. keeps_auto. Qed.

Lemma keeps_find_row_attempts env n searchText tok : keeps (find_row_attempts env n searchText tok).
Proof.
  induction n as [|n IH]; simpl; [apply keeps_ret|].
  keeps_auto; try exact IH.
Qed.
#[export] Hint Resolve keeps_find_row_attempts : keeps.

Lemma keeps_executeFindRow env step ents tok : keeps (executeFindRow env step ents tok).
Proof.
  unfold executeFindRow. keeps_auto;
    intros w; try match goal with |- context [if ?b then _ else _] => destruct b end;
    repeat split.
Qed.

#[export] Hint Resolve keeps_executeNavigate keeps_executeClick keeps_executeFill
  keeps_executeSelect keeps_executeCheck keeps_executeSubmit keeps_executeFindRow : keeps.

Lemma keeps_executeStep env step manifest p tok : keeps (executeStep env step manifest p tok).
Proof. unfold executeStep. keeps_auto. Qed.

(** ** The engine *)

Section EngineFacts.

Variable env : Environment.

Lemma suspend_returns ms w : fst (suspend env ms w) = Returned tt.
Proof. reflexivity. Qed.

Lemma suspend_page ms w :
  page (snd (suspend env ms w)) = page_idle env (ticks w) (page w).
Proof.
  unfold suspend. simpl. destruct (host_cancels env (ticks w)); [|reflexivity].
  unfold cancelActiveExecution, cancel. simpl.
  destruct (activeCancellationToken w) as [t|]; [|reflexivity].
  match goal with |- context [if ?b then _ else _] => destruct b end; reflexivity.
Qed.

Lemma clearExecutionState_spec w :
  exists w',
    clearExecutionState env w = (Returned tt, w')
    /\ storage w' = delete EXECUTION_STATE_KEY (storage w)
    /\ isExecuting w' = isExecuting w
    /\ activeCancellationToken w' = activeCancellationToken w
    /\ cachedManifest w' = cachedManifest w
    /\ progress w' = progress w
    /\ page w' = page_idle env (ticks w) (page w).
Proof.
  unfold clearExecutionState, bind, modify.
  destruct (suspend env 0 (set_storage (delete EXECUTION_STATE_KEY (storage w)) w))
    as [o w'] eqn:E.
  pose proof (keeps_suspend env 0 (set_storage (delete EXECUTION_STATE_KEY (storage w)) w))
    as (h1 & h2 & h3 & h4 & h5).
  pose proof (suspend_page 0 (set_storage (delete EXECUTION_STATE_KEY (storage w)) w)) as hp.
  pose proof (suspend_returns 0 (set_storage (delete EXECUTION_STATE_KEY (storage w)) w)) as hr.
  rewrite E in *. simpl in *. subst o.
  exists w'. repeat split; assumption.
Qed.

Lemma storage_cleared w w' :
  storage w' = delete EXECUTION_STATE_KEY (storage w) ->
  storage w' !! EXECUTION_STATE_KEY = None.
Proof. intros ->. apply lookup_delete_eq. Qed.

End EngineFacts.

Lemma executeFromStep_locked env q manifest onProgress tok w :
  isExecuting w = true ->
  executeFromStep env q manifest onProgress tok w
  = (Returned (rejected_result (length (steps q)), q), w).
Proof.
  intros Hlock. unfold executeFromStep, bind, gets. rewrite Hlock. reflexivity.
Qed.

(** C2.  While the lock is held, [executeFromStep] returns the rejection
    "Execution already in progress" with [success = false] and leaves the
    whole world, and the plan object it was given, as they were; through
    the two entry points [executePlan] and [resumeExecution] of a context
    whose manifest is loaded the result and the world are the same (the
    plan object handed to [executePlan] has by then been reset to status
    [executing] and cursor 0, which is not the active execution's). *)
Theorem C2_single_flight_rejects env p manifest onProgress tok w :
  isExecuting w = true ->
  executeFromStep env p manifest onProgress tok w
    = (Returned (rejected_result (length (steps p)), p), w)
  /\ success (rejected_result (length (steps p))) = false
  /\ res_message (rejected_result (length (steps p))) = "Execution already in progress"
  /\ (cachedManifest w = Some manifest ->
      executePlan env p onProgress tok w
        = (Returned (rejected_result (length (steps p)),
                     set_currentStep 0 (set_status executing p)), w)
      /\ forall state,
          resumeExecution env state onProgress tok w
            = (Returned (rejected_result (length (steps (plan state))), plan state), w)).
Proof.
  intros Hlock.
  assert (Hrej : forall q, executeFromStep env q manifest onProgress tok w
                           = (Returned (rejected_result (length (steps q)), q), w)).
  { intros q. apply executeFromStep_locked, Hlock. }
  split; [apply Hrej|]. split; [reflexivity|]. split; [reflexivity|].
  intros Hm. split.
  - unfold executePlan, getManifest, bind, gets. rewrite Hm.
    change (executeFromStep env (set_currentStep 0 (set_status executing p)) manifest
              onProgress tok w = (Returned (rejected_result
                 (length (steps (set_currentStep 0 (set_status executing p)))),
                 set_currentStep 0 (set_status executing p)), w)).
    apply Hrej.
  - intros state. unfold resumeExecution, getManifest, bind, gets. rewrite Hm. apply Hrej.
Qed.

Lemma C2_single_flight_rejects_witness :
  isExecuting Sample.busy_world = true
  /\ executeFromStep (Sample.quiet None) Sample.jane_plan Sample.manifest0 true (Some 7%nat)
       Sample.busy_world
     = (Returned (rejected_result 2, Sample.jane_plan), Sample.busy_world).
Proof.
  split; [reflexivity|].
  refine (proj1 (C2_single_flight_rejects (Sample.quiet None) Sample.jane_plan
                   Sample.manifest0 true (Some 7%nat) Sample.busy_world _)).
  reflexivity.
Defined.

(** C3, as stated, fails: with the manifest loaded and the lock free, a
    plan without steps is reported as a success, and the durable slot,
    when it held a state, is emptied. *)
Lemma C3_empty_plan_counterexample :
  steps Sample.empty_plan = []
  /\ exists r p' w',
      executePlan (Sample.quiet None) Sample.empty_plan false None Sample.world_with_state
        = (Returned (r, p'), w')
      /\ success r = true
      /\ storage Sample.world_with_state !! EXECUTION_STATE_KEY = Some Sample.pending_state
      /\ storage w' !! EXECUTION_STATE_KEY = None.
Proof.
  split; [reflexivity|].
  eexists _, _, _. split; [vm_compute; reflexivity|].
  split; [reflexivity|]. split; vm_compute; reflexivity.
Qed.

(** C3, amended.  For a plan without steps no step executor runs and the
    engine writes nothing to the document: if the manifest is missing, or
    if the lock is held, [executePlan] reports a failure and changes
    nothing; otherwise it removes the durable execution-state slot,
    leaves the observer uncalled and the lock free, and reports
    [success = true] with [completedSteps = totalSteps = 0]; the document
    is then what the page itself made of it during the one suspension. *)
Theorem C3_empty_plan env p onProgress tok w :
  steps p = [] ->
  (cachedManifest w = None ->
   executePlan env p onProgress tok w = (Returned (no_manifest_result, p), w)
   /\ success no_manifest_result = false)
  /\ (forall m, cachedManifest w = Some m -> isExecuting w = true ->
      executePlan env p onProgress tok w
        = (Returned (rejected_result 0, set_currentStep 0 (set_status executing p)), w)
      /\ success (rejected_result 0) = false)
  /\ (forall m, cachedManifest w = Some m -> isExecuting w = false ->
      exists r w',
        executePlan env p onProgress tok w
          = (Returned (r, set_currentStep 0 (set_status executing p)), w')
        /\ success r = true /\ completedSteps r = 0%nat /\ totalSteps r = 0%nat
        /\ res_message r = "Completed successfully"
        /\ errors r = None /\ cancelled r = false /\ navigating r = false
        /\ storage w' = delete EXECUTION_STATE_KEY (storage w)
        /\ page w' = page_idle env (ticks w) (page w)
        /\ progress w' = progress w
        /\ isExecuting w' = false).
Proof.
  intros Hsteps. split; [|split].
  - intros Hm. unfold executePlan, getManifest, bind, gets. rewrite Hm. split; reflexivity.
  - intros m Hm Hlock.
    unfold executePlan, getManifest.
    rewrite (bind_returned _ _ w (Some m) w) by (unfold gets; congruence).
    rewrite (executeFromStep_locked env _ m onProgress tok w Hlock).
    simpl steps. rewrite Hsteps. split; reflexivity.
  - intros m Hm Hlock.
    unfold executePlan, getManifest, bind at 1, gets. rewrite Hm.
    unfold executeFromStep. rewrite (bind_returned _ _ w false w) by (unfold gets; congruence).
    set (w1 := snd (take_lock tok w)).
    assert (Hw1 : storage w1 = storage w /\ page w1 = page w /\ progress w1 = progress w
                  /\ ticks w1 = ticks w).
    { unfold w1, take_lock, bind, modify. destruct tok; simpl; repeat split. }
    destruct Hw1 as (hs & hp & hg & ht).
    assert (Hret : take_lock tok w = (Returned tt, w1)).
    { unfold w1, take_lock, bind, modify. destruct tok; reflexivity. }
    rewrite (bind_returned _ _ _ _ _ Hret).
    simpl steps. simpl currentStep. rewrite Hsteps. simpl skipn.
    rewrite (bind_returned _ _ w1 (LoopDone 0 []) w1) by reflexivity.
    simpl conclude.
    destruct (clearExecutionState_spec env w1) as (w2 & E & c1 & c2 & c3 & c4 & c5 & c6).
    rewrite (bind_returned _ _ _ _ _ E).
    eexists _, _. split; [reflexivity|]. simpl. rewrite ?Hsteps. simpl.
    repeat split; try reflexivity; try congruence.
Qed.

Lemma C3_empty_plan_witness :
  steps Sample.empty_plan = []
  /\ exists r w',
      executePlan (Sample.quiet None) Sample.empty_plan false None Sample.world_with_state
        = (Returned (r, set_currentStep 0 (set_status executing Sample.empty_plan)), w')
      /\ success r = true /\ completedSteps r = 0%nat /\ totalSteps r = 0%nat.
Proof.
  split; [reflexivity|].
  destruct (C3_empty_plan (Sample.quiet None) Sample.empty_plan false None
              Sample.world_with_state eq_refl) as (_ & _ & H).
  destruct (H Sample.manifest0 eq_refl eq_refl)
    as (r & w' & E & h1 & h2 & h3 & _).
  exists r, w'. repeat split; assumption.
Defined.

(** ** Clearing the ghost markers *)

Lemma all_elements_update h f n :
  Dom.all_elements (Dom.update h f n) = map (touch h f) (Dom.all_elements n).
Proof.
  induction n as [data | e kids IH] using Node_tree_ind; [reflexivity|].
  simpl. f_equal.
  induction IH as [| k kids' Hk _ IHkids]; [reflexivity|].
  simpl. rewrite map_app. f_equal; assumption.
Qed.

Lemma classList_remove_clean g e : Dom.has_class g (Dom.classList_remove g e) = false.
Proof.
  unfold Dom.classList_remove, Dom.has_class. simpl.
  induction (classList e) as [|c cs IH]; [reflexivity|].
  simpl. destruct (String.eqb g c) eqn:E; simpl; [exact IH|].
  rewrite E. exact IH.
Qed.

Lemma unghost_clean e : Dom.has_class GHOST_CLASS (unghost e) = false.
Proof. apply classList_remove_clean. Qed.

Lemma unghost_nid e : nid (unghost e) = nid e.
Proof. reflexivity. Qed.

Lemma touch_unghost_clean h e :
  Dom.has_class GHOST_CLASS e = false ->
  Dom.has_class GHOST_CLASS (touch h unghost e) = false.
Proof.
  intros H. unfold touch. destruct (Nat.eqb (nid e) h); [apply unghost_clean | exact H].
Qed.

Lemma touch_nid h e : nid (touch h unghost e) = nid e.
Proof. unfold touch. destruct (Nat.eqb (nid e) h); reflexivity. Qed.

Lemma all_elements_sweep (marked : list Element) (r : Node) :
  Dom.all_elements
    (fold_left (fun acc el => Dom.update (nid el) unghost acc) marked r)
  = map (fun e => fold_left (fun e' el => touch (nid el) unghost e') marked e)
      (Dom.all_elements r).
Proof.
  revert r. induction marked as [|m ms IH]; intros r; simpl.
  - symmetry. apply map_id.
  - rewrite IH, all_elements_update, map_map. reflexivity.
Qed.

Lemma sweep_keeps_clean (marked : list Element) e :
  Dom.has_class GHOST_CLASS e = false ->
  Dom.has_class GHOST_CLASS
    (fold_left (fun e' el => touch (nid el) unghost e') marked e) = false.
Proof.
  revert e. induction marked as [|m ms IH]; intros e H; simpl; [exact H|].
  apply IH, touch_unghost_clean, H.
Qed.

Lemma sweep_cleans (marked : list Element) e :
  In (nid e) (map nid marked) ->
  Dom.has_class GHOST_CLASS
    (fold_left (fun e' el => touch (nid el) unghost e') marked e) = false.
Proof.
  revert e. induction marked as [|m ms IH]; intros e H; simpl in *; [contradiction|].
  destruct (Nat.eqb (nid e) (nid m)) eqn:E.
  - apply sweep_keeps_clean. unfold touch. rewrite E. apply unghost_clean.
  - apply IH. rewrite touch_nid. destruct H as [H|H]; [|exact H].
    apply Nat.eqb_neq in E. congruence.
Qed.

Lemma clearGhostHighlights_spec w :
  exists w',
    clearGhostHighlights w = (Returned tt, w')
    /\ no_ghost (root (page w'))
    /\ storage w' = storage w
    /\ isExecuting w' = isExecuting w
    /\ cachedManifest w' = cachedManifest w
    /\ progress w' = progress w
    /\ activeCancellationToken w' = activeCancellationToken w.
Proof.
  unfold clearGhostHighlights, modify. eexists. split; [reflexivity|].
  split; [|repeat split].
  unfold no_ghost. simpl.
  change (Dom.classList_remove GHOST_CLASS) with unghost.
  rewrite all_elements_sweep.
  apply List.Forall_forall. intros e' Hin.
  apply in_map_iff in Hin. destruct Hin as (e & <- & Hin).
  destruct (Dom.has_class GHOST_CLASS e) eqn:Hg.
  - apply sweep_cleans. apply in_map. apply filter_In. split; assumption.
  - apply sweep_keeps_clean, Hg.
Qed.

(** ** One pass of the loop *)

Lemma throwIfCancelled_opt_cases tok w :
  throwIfCancelled_opt tok w = (Returned tt, w)
  \/ throwIfCancelled_opt tok w = (Thrown (CancellationError "Operation was cancelled"), w).
Proof.
  destruct tok as [t|]; simpl; [|left; reflexivity].
  unfold throwIfCancelled. destruct (isCancelled t w); [right | left]; reflexivity.
Qed.

Lemma saveExecutionState_spec env state w :
  exists w',
    saveExecutionState env state w = (Returned tt, w')
    /\ storage w' = <[EXECUTION_STATE_KEY := state]> (storage w)
    /\ isExecuting w' = isExecuting w
    /\ cachedManifest w' = cachedManifest w
    /\ progress w' = progress w.
Proof.
  unfold saveExecutionState, bind, modify.
  set (w0 := set_storage _ w).
  pose proof (keeps_suspend env 0 w0) as (h1 & h2 & h3 & h4 & h5).
  pose proof (suspend_returns env 0 w0) as hr.
  destruct (suspend env 0 w0) as [o w'] eqn:E. simpl in *. subst o.
  exists w'. repeat split; assumption.
Qed.

Section OnePass.

Variable env : Environment.
Variable manifest : GlideManifest.
Variable p : ExecutionPlan.
Variable onProgress : bool.
Variable tok : option CancellationToken.

Lemma report_returns step c w :
  report onProgress (c + 1) (length (steps p)) (getStepMessage step) w
  = (Returned tt, reported p onProgress step c w).
Proof. unfold reported, report. destruct onProgress; reflexivity. Qed.

Lemma reported_frame step c w :
  isExecuting (reported p onProgress step c w) = isExecuting w
  /\ cachedManifest (reported p onProgress step c w) = cachedManifest w
  /\ storage (reported p onProgress step c w) = storage w
  /\ activeCancellationToken (reported p onProgress step c w) = activeCancellationToken w
  /\ progress (reported p onProgress step c w)
     = progress w ++ (if onProgress
                      then [((c + 1)%nat, length (steps p), getStepMessage step)]
                      else []).
Proof.
  unfold reported, report. destruct onProgress; simpl; repeat split.
  symmetry. apply app_nil_r.
Qed.

(** what the inner [try] body does, by what the step executor did *)
Lemma try_step_cases step c w1 :
  (exists e w2,
      executeStep env step manifest p tok w1 = (Thrown e, w2)
      /\ try_step env step manifest p tok c w1 = (Thrown e, w2))
  \/ (exists result w2,
         executeStep env step manifest p tok w1 = (Returned result, w2)
         /\ needsNavigation result = false
         /\ try_step env step manifest p tok c w1 = (Returned (inl result), w2))
  \/ (exists result w2 w3,
         executeStep env step manifest p tok w1 = (Returned result, w2)
         /\ needsNavigation result = true
         /\ try_step env step manifest p tok c w1
            = (Returned (inr (navigating_result (c + 1) (length (steps p)),
                             set_status executing (set_currentStep (c + 1) p))), w3)
         /\ storage w3 !! EXECUTION_STATE_KEY
            = Some {| plan := set_status executing (set_currentStep (c + 1) p);
                      startedAt := now w2; lastUpdated := now w2 |}
         /\ isExecuting w3 = false
         /\ cachedManifest w3 = cachedManifest w2
         /\ progress w3 = progress w2).
Proof.
  unfold try_step.
  destruct (executeStep env step manifest p tok w1) as [[result | e] w2] eqn:E.
  - destruct (needsNavigation result) eqn:N.
    + right. right. exists result, w2.
      destruct (saveExecutionState_spec env
                  {| plan := set_status executing (set_currentStep (c + 1) p);
                     startedAt := now w2; lastUpdated := now w2 |} w2)
        as (w3 & S & s1 & s2 & s3 & s4).
      exists (set_isExecuting false (set_activeCancellationToken None w3)).
      split; [reflexivity|]. split; [exact N|].
      split.
      { rewrite (bind_returned _ _ _ _ _ E). rewrite N.
        unfold Date_now. rewrite (bind_returned _ _ w2 (now w2) w2) by reflexivity.
        rewrite (bind_returned _ _ _ _ _ S). reflexivity. }
      simpl. rewrite s1, lookup_insert_eq. repeat split; assumption.
    + right. left. exists result, w2. split; [reflexivity|]. split; [exact N|].
      rewrite (bind_returned _ _ _ _ _ E). rewrite N. reflexivity.
  - left. exists e, w2. split; [reflexivity|].
    apply bind_thrown. exact E.
Qed.

Lemma on_cancel_in_step_spec c w :
  exists w',
    on_cancel_in_step env p c w
    = (Returned (LoopReturn (cancelled_result c (length (steps p))) p), w')
    /\ storage w' !! EXECUTION_STATE_KEY = None
    /\ no_ghost (root (page w'))
    /\ isExecuting w' = isExecuting w
    /\ cachedManifest w' = cachedManifest w
    /\ activeCancellationToken w' = None
    /\ progress w' = progress w.
Proof.
  unfold on_cancel_in_step.
  destruct (clearExecutionState_spec env w) as (w1 & E1 & a1 & a2 & a3 & a4 & a5 & a6).
  destruct (clearGhostHighlights_spec w1) as (w2 & E2 & b1 & b2 & b3 & b4 & b5 & b6).
  rewrite (bind_returned _ _ _ _ _ E1), (bind_returned _ _ _ _ _ E2).
  eexists. split; [reflexivity|]. simpl.
  repeat split; try congruence.
  rewrite b2, a1. apply lookup_delete_eq.
Qed.

(** the head check throws: control goes to the outer [catch] *)
Lemma loop_body_raised_before step c errs w :
  raised_before_step tok w ->
  exists msg,
    loop_body env manifest p onProgress tok step c errs w
    = (Returned (Leave (LoopEscape c (CancellationError msg))), w).
Proof.
  intros [msg H]. exists msg. unfold loop_body.
  destruct (throwIfCancelled_opt_cases tok w) as [E|E]; rewrite E in H; simpl in H;
    [discriminate|].
  injection H as <-.
  unfold bind at 1. unfold attempt. rewrite (bind_thrown _ _ _ _ _ E). reflexivity.
Qed.

(** a check inside the executor throws: the inner [catch] returns *)
Lemma loop_body_raised_in step c errs w :
  raised_in_step env manifest p onProgress tok step c w ->
  exists w',
    loop_body env manifest p onProgress tok step c errs w
    = (Returned (Leave (LoopReturn (cancelled_result c (length (steps p))) p)), w')
    /\ storage w' !! EXECUTION_STATE_KEY = None
    /\ no_ghost (root (page w'))
    /\ isExecuting w' = isExecuting w
    /\ cachedManifest w' = cachedManifest w
    /\ activeCancellationToken w' = None.
Proof.
  intros [Hpre [msg Hin]]. fold (reported p onProgress step c w) in Hin.
  destruct (throwIfCancelled_opt_cases tok w) as [E|E]; rewrite E in Hpre; simpl in Hpre;
    [|discriminate].
  destruct (try_step_cases step c (reported p onProgress step c w))
    as [(e & w2 & X & T) | [(r & w2 & X & N & T) | (r & w2 & w3 & X & N & T & _)]];
    rewrite T in Hin; simpl in Hin; try discriminate.
  injection Hin as ->.
  pose proof (keeps_executeStep env step manifest p tok (reported p onProgress step c w)) as F.
  rewrite X in F. simpl in F. destruct F as (f1 & f2 & f3 & f4 & f5).
  destruct (reported_frame step c w) as (g1 & g2 & g3 & g4 & g5).
  destruct (on_cancel_in_step_spec c w2) as (w' & O & o1 & o2 & o3 & o4 & o5 & o6).
  exists w'. split.
  - unfold loop_body. unfold bind at 1. unfold attempt at 1.
    rewrite (bind_returned _ _ _ _ _ E), report_returns.
    unfold bind at 1. unfold attempt. rewrite T.
    change (is_cancellation (CancellationError msg)) with true. cbv iota.
    rewrite (bind_returned _ _ _ _ _ O). reflexivity.
  - repeat split; try assumption; congruence.
Qed.

(** a pass that goes on leaves the lock, the manifest and the durable
    slot alone, and calls the observer once *)
Lemma loop_body_continue step c errs errs' w w' :
  loop_body env manifest p onProgress tok step c errs w = (Returned (Continue errs'), w') ->
  isExecuting w' = isExecuting w
  /\ cachedManifest w' = cachedManifest w
  /\ storage w' = storage w
  /\ progress w'
     = progress w ++ (if onProgress
                      then [((c + 1)%nat, length (steps p), getStepMessage step)]
                      else []).
Proof.
  unfold loop_body. unfold bind at 1. unfold attempt at 1.
  destruct (throwIfCancelled_opt_cases tok w) as [E|E].
  - rewrite (bind_returned _ _ _ _ _ E), report_returns.
    unfold bind at 1. unfold attempt.
    destruct (try_step_cases step c (reported p onProgress step c w))
      as [(e & w2 & X & T) | [(r & w2 & X & N & T) | (r & w2 & w3 & X & N & T & _)]];
      rewrite T.
    + destruct (is_cancellation e).
      * destruct (on_cancel_in_step_spec c w2) as (w3 & O & _).
        rewrite (bind_returned _ _ _ _ _ O). discriminate.
      * discriminate.
    + pose proof (keeps_executeStep env step manifest p tok (reported p onProgress step c w)) as F.
      rewrite X in F. simpl in F. destruct F as (f1 & f2 & f3 & f4 & f5).
      destruct (reported_frame step c w) as (g1 & g2 & g3 & g4 & g5).
      destruct (sr_success r); [|destruct (fatal r)]; intros H; inversion H; subst;
        repeat split; congruence.
    + discriminate.
  - rewrite (bind_thrown _ _ _ _ _ E). discriminate.
Qed.

(** a pass always comes back with a verdict *)
Lemma loop_body_returns step c errs w :
  exists b w', loop_body env manifest p onProgress tok step c errs w = (Returned b, w').
Proof.
  unfold loop_body. unfold bind at 1. unfold attempt at 1.
  destruct (throwIfCancelled_opt_cases tok w) as [E|E].
  - rewrite (bind_returned _ _ _ _ _ E), report_returns.
    unfold bind at 1. unfold attempt.
    destruct (try_step_cases step c (reported p onProgress step c w))
      as [(e & w2 & X & T) | [(r & w2 & X & N & T) | (r & w2 & w3 & X & N & T & _)]];
      rewrite T.
    + destruct (is_cancellation e); [|eauto].
      destruct (on_cancel_in_step_spec c w2) as (w3 & O & _).
      rewrite (bind_returned _ _ _ _ _ O). eauto.
    + destruct (sr_success r); [|destruct (fatal r)]; eauto.
    + eauto.
  - rewrite (bind_thrown _ _ _ _ _ E). eauto.
Qed.

End OnePass.

(** ** Whole runs *)

Section Runs.

Variable env : Environment.
Variable manifest : GlideManifest.
Variable p : ExecutionPlan.
Variable onProgress : bool.
Variable tok : option CancellationToken.

Lemma take_lock_spec w :
  exists w1,
    take_lock tok w = (Returned tt, w1)
    /\ isExecuting w1 = true
    /\ storage w1 = storage w
    /\ cachedManifest w1 = cachedManifest w
    /\ progress w1 = progress w
    /\ page w1 = page w
    /\ cancelledTokens w1 = cancelledTokens w.
Proof.
  unfold take_lock, bind, modify. destruct tok; eexists; split; try reflexivity;
    repeat split.
Qed.

Lemma executeFromStep_unlocked w :
  isExecuting w = false ->
  executeFromStep env p manifest onProgress tok w
  = bind (run_loop env manifest p onProgress tok
            (skipn (currentStep p) (steps p)) (currentStep p) [])
      (conclude env p) (snd (take_lock tok w)).
Proof.
  intros H. unfold executeFromStep.
  rewrite (bind_returned _ _ w false w) by (unfold gets; congruence).
  destruct (take_lock_spec w) as (w1 & E & _).
  rewrite (bind_returned _ _ _ _ _ E), E. reflexivity.
Qed.

Lemma advance_run_loop n :
  forall rest c errs w rest' c' errs' w',
    advance env manifest p onProgress tok n rest c errs w = Some (rest', c', errs', w') ->
    run_loop env manifest p onProgress tok rest c errs w
    = run_loop env manifest p onProgress tok rest' c' errs' w'
    /\ c' = (c + n)%nat
    /\ (exists started, rest = started ++ rest' /\ length started = n
          /\ progress w'
             = progress w ++ (if onProgress
                              then notices (length (steps p)) c started else []))
    /\ isExecuting w' = isExecuting w
    /\ cachedManifest w' = cachedManifest w
    /\ storage w' = storage w.
Proof.
  induction n as [|n IH]; intros rest c errs w rest' c' errs' w' H; simpl in H.
  - injection H as -> -> -> ->. split; [reflexivity|]. split; [lia|].
    split; [|repeat split].
    exists []. repeat split. destruct onProgress; simpl; symmetry; apply app_nil_r.
  - destruct rest as [|step rest0]; [discriminate|].
    destruct (loop_body env manifest p onProgress tok step c errs w) as [[[e1|x]|x] w1] eqn:B;
      try discriminate.
    destruct (IH _ _ _ _ _ _ _ _ H) as (R & C & (started & S1 & S2 & S3) & I1 & I2 & I3).
    destruct (loop_body_continue _ _ _ _ _ _ _ _ _ _ _ B) as (b1 & b2 & b3 & b4).
    split.
    { simpl. rewrite (bind_returned _ _ _ _ _ B). exact R. }
    split; [lia|]. split; [|repeat split; congruence].
    exists (step :: started). split; [simpl; congruence|]. split; [simpl; lia|].
    rewrite S3, b4. destruct onProgress; simpl.
    + rewrite <- app_assoc. reflexivity.
    + rewrite !app_nil_r. reflexivity.
Qed.

Lemma conclude_done c errs w :
  exists w',
    conclude env p (LoopDone c errs) w
    = (Returned (final_result c (length (steps p)) errs, p), w')
    /\ storage w' !! EXECUTION_STATE_KEY = None
    /\ isExecuting w' = false
    /\ activeCancellationToken w' = None
    /\ progress w' = progress w.
Proof.
  simpl conclude.
  destruct (clearExecutionState_spec env w) as (w1 & E & a1 & a2 & a3 & a4 & a5 & a6).
  rewrite (bind_returned _ _ _ _ _ E).
  eexists. split; [reflexivity|]. simpl. repeat split; try assumption.
  rewrite a1. apply lookup_delete_eq.
Qed.

Lemma conclude_escape_cancel c msg w :
  exists w',
    conclude env p (LoopEscape c (CancellationError msg)) w
    = (Returned (cancelled_result c (length (steps p)), p), w')
    /\ storage w' !! EXECUTION_STATE_KEY = None
    /\ no_ghost (root (page w'))
    /\ isExecuting w' = false
    /\ activeCancellationToken w' = None
    /\ progress w' = progress w.
Proof.
  simpl conclude.
  rewrite (bind_returned _ _ w tt (set_isExecuting false w)) by reflexivity.
  destruct (clearExecutionState_spec env (set_isExecuting false w))
    as (w1 & E & a1 & a2 & a3 & a4 & a5 & a6).
  destruct (clearGhostHighlights_spec w1) as (w2 & E2 & b1 & b2 & b3 & b4 & b5 & b6).
  rewrite (bind_returned _ _ _ _ _ E), (bind_returned _ _ _ _ _ E2).
  simpl in a2, a3, a4, a5, a6.
  eexists. split; [reflexivity|]. simpl.
  split; [rewrite b2, a1; apply lookup_delete_eq|].
  repeat split; try assumption; congruence.
Qed.

End Runs.

(** C4.  Let a run of [executeFromStep], started with the lock free, have
    finished [n] steps, and let a cancellation check then throw, either
    the one at the head of the loop or one inside the executor of the
    next step.  Then the run returns the cancelled result: [cancelled =
    true], [success = false], [completedSteps] the cursor, which is the
    plan's cursor at the start plus the [n] finished steps; the durable
    slot is empty and no element of the document carries the ghost
    class. *)
Theorem C4_cancellation_result env manifest p onProgress tok w n step rest c errs wn :
  isExecuting w = false ->
  after_steps env manifest p onProgress tok n w = Some (step :: rest, c, errs, wn) ->
  raised_before_step tok wn
  \/ raised_in_step env manifest p onProgress tok step c wn ->
  exists r w',
    executeFromStep env p manifest onProgress tok w = (Returned (r, p), w')
    /\ cancelled r = true
    /\ success r = false
    /\ completedSteps r = (currentStep p + n)%nat
    /\ totalSteps r = length (steps p)
    /\ storage w' !! EXECUTION_STATE_KEY = None
    /\ no_ghost (root (page w')).
Proof.
  intros Hlock Hadv Hraise.
  rewrite (executeFromStep_unlocked _ _ _ _ _ _ Hlock).
  unfold after_steps in Hadv.
  destruct (advance_run_loop _ _ _ _ _ _ _ _ _ _ _ _ _ _ Hadv) as (R & C & _).
  unfold bind at 1. rewrite R. simpl run_loop.
  destruct Hraise as [Hb | Hi].
  - destruct (loop_body_raised_before env manifest p onProgress tok step c errs wn Hb)
      as (msg & B).
    rewrite (bind_returned _ _ _ _ _ B). unfold ret at 1.
    destruct (conclude_escape_cancel env p c msg wn) as (w' & E & e1 & e2 & e3 & e4 & e5).
    rewrite E. eexists _, w'. split; [reflexivity|]. simpl. repeat split; assumption.
  - destruct (loop_body_raised_in env manifest p onProgress tok step c errs wn Hi)
      as (w' & B & b1 & b2 & b3 & b4 & b5).
    rewrite (bind_returned _ _ _ _ _ B). unfold ret at 1. simpl conclude. unfold ret.
    eexists _, w'. split; [reflexivity|]. simpl. repeat split; assumption.
Qed.

Lemma C4_cancellation_result_witness :
  isExecuting (Sample.world Sample.name_form) = false
  /\ exists r w',
      executeFromStep (Sample.quiet (Some 4%nat)) Sample.jane_plan Sample.manifest0 true
        (Some 7%nat) (Sample.world Sample.name_form)
      = (Returned (r, Sample.jane_plan), w')
      /\ cancelled r = true
      /\ success r = false
      /\ completedSteps r = (currentStep Sample.jane_plan + 1)%nat
      /\ totalSteps r = length (steps Sample.jane_plan)
      /\ storage w' !! EXECUTION_STATE_KEY = None
      /\ no_ghost (root (page w')).
Proof.
  split; [reflexivity|].
  eapply (C4_cancellation_result (Sample.quiet (Some 4%nat)) Sample.manifest0
            Sample.jane_plan true (Some 7%nat) (Sample.world Sample.name_form) 1).
  - reflexivity.
  - vm_compute. reflexivity.
  - right. split.
    + vm_compute. reflexivity.
    + eexists. vm_compute. reflexivity.
Defined.

(** ** The observer's log *)

Section Progress.

Variable env : Environment.
Variable manifest : GlideManifest.
Variable p : ExecutionPlan.
Variable onProgress : bool.
Variable tok : option CancellationToken.

Lemma loop_body_progress step c errs w :
  exists b w',
    loop_body env manifest p onProgress tok step c errs w = (Returned b, w')
    /\ ((fst (throwIfCancelled_opt tok w) <> Returned tt
         /\ (exists e, b = Leave (LoopEscape c e)) /\ progress w' = progress w)
        \/ (fst (throwIfCancelled_opt tok w) = Returned tt
            /\ progress w' = progress w ++ notice p onProgress step c)).
Proof.
  unfold loop_body. unfold bind at 1. unfold attempt at 1.
  destruct (throwIfCancelled_opt_cases tok w) as [E|E].
  - rewrite (bind_returned _ _ _ _ _ E), report_returns.
    unfold bind at 1. unfold attempt.
    destruct (reported_frame p onProgress step c w) as (g1 & g2 & g3 & g4 & g5).
    fold (notice p onProgress step c) in g5.
    destruct (try_step_cases env manifest p tok step c (reported p onProgress step c w))
      as [(e & w2 & X & T) | [(r & w2 & X & N & T)
                             | (r & w2 & w3 & X & N & T & t1 & t2 & t3 & t4)]];
      rewrite T;
      pose proof (keeps_executeStep env step manifest p tok (reported p onProgress step c w))
        as F; rewrite X in F; simpl in F; destruct F as (f1 & f2 & f3 & f4 & f5).
    + destruct (is_cancellation e).
      * destruct (on_cancel_in_step_spec env p c w2) as (w3 & O & _ & _ & _ & _ & _ & o6).
        rewrite (bind_returned _ _ _ _ _ O).
        eexists _, _. split; [reflexivity|]. right. rewrite E. split; [reflexivity|].
        congruence.
      * eexists _, _. split; [reflexivity|]. right. rewrite E. split; [reflexivity|].
        congruence.
    + destruct (sr_success r); [|destruct (fatal r)];
        (eexists _, _; split; [reflexivity|]; right; rewrite E; split; [reflexivity|];
         congruence).
    + eexists _, _. split; [reflexivity|]. right. rewrite E. split; [reflexivity|].
      congruence.
  - rewrite (bind_thrown _ _ _ _ _ E).
    eexists _, _. split; [reflexivity|]. left. rewrite E. simpl.
    split; [discriminate|]. split; [eauto | reflexivity].
Qed.

(** the observer hears of a run of consecutive steps, beginning at the
    cursor the loop was entered with *)
Lemma run_loop_progress rest :
  forall c errs w,
  exists exit w' k,
    run_loop env manifest p onProgress tok rest c errs w = (Returned exit, w')
    /\ (k <= length rest)%nat
    /\ progress w'
       = progress w ++ (if onProgress then notices (length (steps p)) c (firstn k rest)
                        else [])
    /\ (rest <> [] -> fst (throwIfCancelled_opt tok w) = Returned tt -> (1 <= k)%nat).
Proof.
  induction rest as [|step rest IH]; intros c errs w.
  - exists (LoopDone c errs), w, 0%nat. split; [reflexivity|]. split; [simpl; lia|].
    split; [|congruence]. destruct onProgress; simpl; symmetry; apply app_nil_r.
  - simpl run_loop.
    destruct (loop_body_progress step c errs w)
      as (b & w1 & B & [(H1 & (e & ->) & H2) | (H1 & H2)]);
      rewrite (bind_returned _ _ _ _ _ B).
    + exists (LoopEscape c e), w1, 0%nat. split; [reflexivity|]. split; [simpl; lia|].
      split; [|congruence]. rewrite H2. destruct onProgress; simpl; symmetry; apply app_nil_r.
    + destruct b as [errs' | exit].
      * destruct (IH (S c) errs' w1) as (exit & w' & k & R & K & P & _).
        exists exit, w', (S k). split; [exact R|]. split; [simpl; lia|].
        split; [|intros; lia]. rewrite P, H2. unfold notice.
        destruct onProgress; simpl.
        -- rewrite <- app_assoc. reflexivity.
        -- rewrite !app_nil_r. reflexivity.
      * exists exit, w1, 1%nat. split; [reflexivity|]. split; [simpl; lia|].
        split; [|intros; lia]. rewrite H2. unfold notice.
        destruct onProgress; simpl; reflexivity.
Qed.

Lemma conclude_progress exit w : progress (snd (conclude env p exit w)) = progress w.
Proof.
  destruct exit as [c errs | r p' | c e].
  - destruct (conclude_done env p c errs w) as (w' & E & _ & _ & _ & P). rewrite E. exact P.
  - reflexivity.
  - destruct e as [msg | msg].
    + destruct (conclude_escape_cancel env p c msg w) as (w' & E & _ & _ & _ & _ & P).
      rewrite E. exact P.
    + reflexivity.
Qed.

End Progress.

(** ** After a run *)

Lemma loadExecutionState_spec env w :
  exists w',
    loadExecutionState env w = (Returned (storage w !! EXECUTION_STATE_KEY), w')
    /\ storage w' = storage w
    /\ isExecuting w' = isExecuting w
    /\ cachedManifest w' = cachedManifest w.
Proof.
  unfold loadExecutionState.
  rewrite (bind_returned _ _ w (storage w !! EXECUTION_STATE_KEY) w) by reflexivity.
  pose proof (keeps_suspend env 0 w) as (h1 & h2 & h3 & h4 & h5).
  pose proof (suspend_returns env 0 w) as hr.
  destruct (suspend env 0 w) as [o w'] eqn:E. simpl in *. subst o.
  rewrite (bind_returned _ _ _ _ _ E).
  exists w'. repeat split; assumption.
Qed.

Lemma checkPendingExecution_lock env w :
  isExecuting (snd (checkPendingExecution env w)) = isExecuting w
  /\ cachedManifest (snd (checkPendingExecution env w)) = cachedManifest w.
Proof.
  unfold checkPendingExecution.
  destruct (loadExecutionState_spec env w) as (w1 & L & l1 & l2 & l3).
  rewrite (bind_returned _ _ _ _ _ L).
  destruct (storage w !! EXECUTION_STATE_KEY) as [s|]; [|simpl; split; assumption].
  destruct (is_executing (status (plan s))); [|simpl; split; assumption].
  destruct (clearExecutionState_spec env w1) as (w2 & C & c1 & c2 & c3 & c4 & c5 & c6).
  rewrite (bind_returned _ _ _ _ _ C). simpl. split; congruence.
Qed.

(** with the lock held and the manifest loaded, whatever is asked of the
    context, every request for an execution is turned down *)
Lemma serve_locked env manifest reqs :
  forall w,
    isExecuting w = true ->
    cachedManifest w = Some manifest ->
    isExecuting (snd (serve env reqs w)) = true
    /\ length (fst (serve env reqs w)) = length (List.filter is_attempt reqs)
    /\ Forall (fun o => exists q, o = Returned (rejected_result (length (steps q)), q))
         (fst (serve env reqs w)).
Proof.
  induction reqs as [|r reqs IH]; intros w Hl Hm.
  - simpl. repeat split; [assumption | constructor].
  - destruct r as [q onP t | st onP t | | ms]; cbn [serve].
    + assert (E : executePlan env q onP t w
                  = (Returned (rejected_result (length (steps q)),
                               set_currentStep 0 (set_status executing q)), w)).
      { unfold executePlan, getManifest. rewrite (bind_returned _ _ w (Some manifest) w)
          by (unfold gets; congruence).
        apply (executeFromStep_locked env (set_currentStep 0 (set_status executing q))), Hl. }
      rewrite E. destruct (IH w Hl Hm) as (i1 & i2 & i3).
      destruct (serve env reqs w) as [os w'']. simpl in *.
      split; [assumption|]. split; [congruence|].
      constructor; [|assumption].
      exists (set_currentStep 0 (set_status executing q)). reflexivity.
    + assert (E : resumeExecution env st onP t w
                  = (Returned (rejected_result (length (steps (plan st))), plan st), w)).
      { unfold resumeExecution, getManifest. rewrite (bind_returned _ _ w (Some manifest) w)
          by (unfold gets; congruence).
        apply executeFromStep_locked, Hl. }
      rewrite E. destruct (IH w Hl Hm) as (i1 & i2 & i3).
      destruct (serve env reqs w) as [os w'']. simpl in *.
      split; [assumption|]. split; [congruence|].
      constructor; [|assumption]. eexists. reflexivity.
    + destruct (checkPendingExecution_lock env w) as (c1 & c2).
      apply IH; congruence.
    + pose proof (keeps_suspend env ms w) as (h1 & h2 & h3 & h4 & h5).
      apply IH; congruence.
Qed.

(** C5.  Let a run of [executeFromStep], started with the lock free in a
    context whose manifest is loaded, have finished [n] steps, and let a
    cancellation check inside the executor of the next step throw.  The
    run returns the cancelled result and leaves [isExecuting] set; from
    then on, whatever requests the context serves, the lock stays set and
    every request to start or to resume an execution is answered with the
    rejection "Execution already in progress". *)
Theorem C5_lock_stays_held_after_cancel_in_step
    env manifest p onProgress tok w n step rest c errs wn :
  isExecuting w = false ->
  cachedManifest w = Some manifest ->
  after_steps env manifest p onProgress tok n w = Some (step :: rest, c, errs, wn) ->
  raised_in_step env manifest p onProgress tok step c wn ->
  exists r w',
    executeFromStep env p manifest onProgress tok w = (Returned (r, p), w')
    /\ cancelled r = true
    /\ isExecuting w' = true
    /\ forall reqs,
        isExecuting (snd (serve env reqs w')) = true
        /\ length (fst (serve env reqs w')) = length (List.filter is_attempt reqs)
        /\ Forall (fun o => exists q,
                       o = Returned (rejected_result (length (steps q)), q)
                       /\ res_message (rejected_result (length (steps q)))
                          = "Execution already in progress")
             (fst (serve env reqs w')).
Proof.
  intros Hlock Hman Hadv Hin.
  rewrite (executeFromStep_unlocked _ _ _ _ _ _ Hlock).
  unfold after_steps in Hadv.
  destruct (take_lock_spec tok w) as (w1 & T & t1 & t2 & t3 & _).
  rewrite T in *. simpl snd in *.
  destruct (advance_run_loop _ _ _ _ _ _ _ _ _ _ _ _ _ _ Hadv) as (R & C & _ & I1 & I2 & _).
  unfold bind at 1. rewrite R. simpl run_loop.
  destruct (loop_body_raised_in env manifest p onProgress tok step c errs wn Hin)
    as (w' & B & b1 & b2 & b3 & b4 & b5).
  rewrite (bind_returned _ _ _ _ _ B). unfold ret at 1. simpl conclude. unfold ret.
  assert (Hl' : isExecuting w' = true) by congruence.
  assert (Hm' : cachedManifest w' = Some manifest) by congruence.
  eexists _, w'. split; [reflexivity|]. split; [reflexivity|]. split; [exact Hl'|].
  intros reqs. destruct (serve_locked env manifest reqs w' Hl' Hm') as (s1 & s2 & s3).
  split; [exact s1|]. split; [exact s2|].
  eapply List.Forall_impl; [|exact s3]. intros o [q ->]. exists q. split; reflexivity.
Qed.

Lemma C5_lock_stays_held_after_cancel_in_step_witness :
  isExecuting (Sample.world Sample.name_form) = false
  /\ exists r w',
      executeFromStep (Sample.quiet (Some 4%nat)) Sample.jane_plan Sample.manifest0 true
        (Some 7%nat) (Sample.world Sample.name_form)
      = (Returned (r, Sample.jane_plan), w')
      /\ cancelled r = true
      /\ isExecuting w' = true
      /\ fst (serve (Sample.quiet None)
                [StartPlan Sample.jane_plan false None] w')
         = [Returned (rejected_result 2,
                      set_currentStep 0 (set_status executing Sample.jane_plan))].
Proof.
  split; [reflexivity|].
  destruct (C5_lock_stays_held_after_cancel_in_step (Sample.quiet (Some 4%nat))
              Sample.manifest0 Sample.jane_plan true (Some 7%nat)
              (Sample.world Sample.name_form) 1
              (Sample.step fill (Some "label:Full Name") (Some "name")) [] 1 []
              (snd (report true 1 2 "Processing..."
                      (snd (take_lock (Some 7%nat) (Sample.world Sample.name_form))))))
    as (r & w' & E & h1 & h2 & _).
  - reflexivity.
  - reflexivity.
  - vm_compute. reflexivity.
  - split.
    + vm_compute. reflexivity.
    + eexists. vm_compute. reflexivity.
  - exists r, w'. split; [exact E|]. split; [exact h1|]. split; [exact h2|].
    vm_compute in E. injection E as <- <-. vm_compute. reflexivity.
Defined.

(** C10.  Let a run of [executeFromStep], started with the lock free on a
    plan whose cursor lies within its steps, go on pass after pass until
    no step is left, with no error recorded.  Then it returns [success =
    true] with [completedSteps = totalSteps = steps.length] and no error
    list, the durable slot is empty, and the lock is free again. *)
Theorem C10_clean_run_succeeds env manifest p onProgress tok w n c wn :
  isExecuting w = false ->
  (currentStep p <= length (steps p))%nat ->
  after_steps env manifest p onProgress tok n w = Some ([], c, [], wn) ->
  exists r w',
    executeFromStep env p manifest onProgress tok w = (Returned (r, p), w')
    /\ success r = true
    /\ completedSteps r = length (steps p)
    /\ totalSteps r = length (steps p)
    /\ errors r = None
    /\ cancelled r = false
    /\ navigating r = false
    /\ storage w' !! EXECUTION_STATE_KEY = None
    /\ isExecuting w' = false.
Proof.
  intros Hlock Hcur Hadv.
  rewrite (executeFromStep_unlocked _ _ _ _ _ _ Hlock).
  unfold after_steps in Hadv.
  destruct (advance_run_loop _ _ _ _ _ _ _ _ _ _ _ _ _ _ Hadv)
    as (R & C & (started & S1 & S2 & _) & _).
  assert (Hc : c = length (steps p)).
  { rewrite app_nil_r in S1.
    assert (L : length (skipn (currentStep p) (steps p)) = n) by (rewrite S1; exact S2).
    rewrite length_skipn in L. lia. }
  unfold bind at 1. rewrite R. simpl run_loop. unfold ret at 1.
  destruct (conclude_done env p c [] wn) as (w' & E & e1 & e2 & e3 & e4).
  rewrite E. eexists _, w'. split; [reflexivity|]. simpl.
  rewrite Hc, Nat.eqb_refl. repeat split; assumption.
Qed.

Lemma C10_clean_run_succeeds_witness :
  isExecuting (Sample.world Sample.name_form) = false
  /\ (currentStep Sample.jane_plan <= length (steps Sample.jane_plan))%nat
  /\ exists r w',
      executeFromStep (Sample.quiet None) Sample.jane_plan Sample.manifest0 true
        (Some 7%nat) (Sample.world Sample.name_form)
      = (Returned (r, Sample.jane_plan), w')
      /\ success r = true
      /\ completedSteps r = 2%nat
      /\ totalSteps r = 2%nat
      /\ storage w' !! EXECUTION_STATE_KEY = None.
Proof.
  split; [reflexivity|]. split; [simpl; lia|].
  edestruct (C10_clean_run_succeeds (Sample.quiet None) Sample.manifest0 Sample.jane_plan
               true (Some 7%nat) (Sample.world Sample.name_form) 2)
    as (r & w' & E & h1 & h2 & h3 & _ & _ & _ & h7 & _).
  - reflexivity.
  - simpl. lia.
  - vm_compute. reflexivity.
  - exists r, w'. repeat split; assumption.
Defined.

(** C1.  When the durable slot holds a state whose plan is [executing],
    [checkPendingExecution] returns that state and has emptied the slot
    by then: a later read of the slot, and a later
    [checkPendingExecution], find nothing.  Resuming the returned state
    in a context whose manifest is loaded and whose lock is free starts
    at the persisted cursor: the observer is told of a run of consecutive
    steps of the plan beginning with step [currentStep] (numbered
    [currentStep + 1]), and of at least that one when the cursor lies
    within the plan and the token is not cancelled at the start. *)
Theorem C1_pending_state_is_handed_over_once env w state :
  storage w !! EXECUTION_STATE_KEY = Some state ->
  status (plan state) = executing ->
  exists w1,
    checkPendingExecution env w = (Returned (Some state), w1)
    /\ storage w1 !! EXECUTION_STATE_KEY = None
    /\ fst (loadExecutionState env w1) = Returned None
    /\ fst (checkPendingExecution env w1) = Returned None
    /\ forall manifest tok w2,
        cachedManifest w2 = Some manifest ->
        isExecuting w2 = false ->
        exists k,
          (k <= length (skipn (currentStep (plan state)) (steps (plan state))))%nat
          /\ progress (snd (resumeExecution env state true tok w2))
             = progress w2
               ++ notices (length (steps (plan state))) (currentStep (plan state))
                    (firstn k (skipn (currentStep (plan state)) (steps (plan state))))
          /\ ((currentStep (plan state) < length (steps (plan state)))%nat ->
              fst (throwIfCancelled_opt tok w2) = Returned tt ->
              (1 <= k)%nat).
Proof.
  intros Hslot Hstatus.
  destruct (loadExecutionState_spec env w) as (wa & L & l1 & _).
  destruct (clearExecutionState_spec env wa) as (w1 & C & c1 & _).
  assert (Hnone : storage w1 !! EXECUTION_STATE_KEY = None).
  { rewrite c1. apply lookup_delete_eq. }
  exists w1. split.
  { unfold checkPendingExecution. rewrite (bind_returned _ _ _ _ _ L), Hslot, Hstatus.
    change (is_executing executing) with true. cbv iota.
    rewrite (bind_returned _ _ _ _ _ C). reflexivity. }
  split; [exact Hnone|].
  destruct (loadExecutionState_spec env w1) as (wb & L2 & _).
  split; [rewrite L2, Hnone; reflexivity|].
  split.
  { unfold checkPendingExecution. rewrite (bind_returned _ _ _ _ _ L2), Hnone. reflexivity. }
  intros manifest tok w2 Hman Hlock.
  unfold resumeExecution, getManifest.
  rewrite (bind_returned _ _ w2 (Some manifest) w2) by (unfold gets; congruence).
  rewrite (executeFromStep_unlocked _ _ _ _ _ _ Hlock).
  destruct (take_lock_spec tok w2) as (w3 & T & _ & _ & _ & t4 & _ & t6).
  rewrite T. simpl snd.
  destruct (run_loop_progress env manifest (plan state) true tok
              (skipn (currentStep (plan state)) (steps (plan state)))
              (currentStep (plan state)) [] w3) as (exit & w4 & k & R & K & P & F).
  exists k. split; [exact K|].
  rewrite (bind_returned _ _ _ _ _ R), conclude_progress, P, t4.
  split; [reflexivity|].
  intros Hlt Hok. apply F.
  - intros Hnil. apply (f_equal (@length _)) in Hnil. rewrite length_skipn in Hnil.
    simpl in Hnil. lia.
  - assert (X : fst (throwIfCancelled_opt tok w3) = fst (throwIfCancelled_opt tok w2)).
    { destruct tok as [t|]; [|reflexivity].
      simpl. unfold throwIfCancelled, isCancelled. rewrite t6.
      destruct (bool_decide (t ∈ cancelledTokens w2)); reflexivity. }
    rewrite X. exact Hok.
Qed.

Lemma C1_pending_state_is_handed_over_once_witness :
  storage Sample.world_with_state !! EXECUTION_STATE_KEY = Some Sample.pending_state
  /\ status (plan Sample.pending_state) = executing
  /\ exists w1,
      checkPendingExecution (Sample.quiet None) Sample.world_with_state
      = (Returned (Some Sample.pending_state), w1)
      /\ storage w1 !! EXECUTION_STATE_KEY = None
      /\ fst (checkPendingExecution (Sample.quiet None) w1) = Returned None.
Proof.
  split; [vm_compute; reflexivity|]. split; [reflexivity|].
  edestruct (C1_pending_state_is_handed_over_once (Sample.quiet None)
               Sample.world_with_state Sample.pending_state)
    as (w1 & E & h1 & _ & h3 & _).
  - vm_compute. reflexivity.
  - reflexivity.
  - exists w1. repeat split; assumption.
Defined.

(** ** Values referenced by fill and select steps *)

Lemma ro_ret {A} (P : A -> Prop) a : P a -> returns_only P (ret a).
Proof. intros H w a' w' E. injection E as <- _. exact H. Qed.

Lemma ro_bind {A B} (P : B -> Prop) (m : M A) (k : A -> M B) :
  (forall a, returns_only P (k a)) -> returns_only P (bind m k).
Proof.
  intros Hk w b w' E. unfold bind in E.
  destruct (m w) as [[a | e] w1]; [|discriminate].
  exact (Hk a w1 b w' E).
Qed.

Ltac ro_step :=
  cbv zeta;
  match goal with
  | |- returns_only _ (bind _ _) => apply ro_bind; intros
  | |- returns_only _ (if ?b then _ else _) => destruct b
  | |- returns_only _ (match ?x with _ => _ end) => destruct x
  | |- returns_only _ (ret _) => apply ro_ret
  end.

Lemma resolve_value_empty ents step :
  resolve_value ents step = ""
  <-> Js.truthy_opt (value step) = false /\ Js.truthy_opt (ents !! "") = false.
Proof.
  unfold resolve_value, Js.or_else, Js.truthy_opt.
  destruct (value step) as [v|].
  - destruct (Js.truthy v) eqn:Tv.
    + destruct (ents !! v) as [x|].
      * destruct (Js.truthy x) eqn:Tx.
        -- split; [intros ->; discriminate | intros [? _]; discriminate].
        -- split; [intros ->; discriminate | intros [? _]; discriminate].
      * split; [intros ->; discriminate | intros [? _]; discriminate].
    + unfold Js.truthy in Tv. apply negb_false_iff, String.eqb_eq in Tv. subst v.
      destruct (ents !! "") as [x|].
      * destruct (Js.truthy x) eqn:Tx.
        -- split; [intros ->; discriminate | intros [_ ?]; discriminate].
        -- split; [intros _; split; reflexivity | reflexivity].
      * split; [intros _; split; reflexivity | reflexivity].
  - destruct (ents !! "") as [x|].
    + destruct (Js.truthy x) eqn:Tx.
      * split; [intros ->; discriminate | intros [_ ?]; discriminate].
      * split; [intros _; split; reflexivity | reflexivity].
    + split; [intros _; split; reflexivity | reflexivity].
Qed.

Lemma fill_past_value_check env step ents tok :
  Js.truthy (resolve_value ents step) = true ->
  returns_only (fun r => ~ is_missing_value_error r) (executeFill env step ents tok).
Proof.
  intros Hv. unfold executeFill. apply ro_bind; intros _.
  destruct (negb (Js.truthy_opt (target step))).
  - apply ro_ret. intros [rest H]. discriminate.
  - cbv zeta. rewrite Hv. simpl negb. cbv iota.
    repeat ro_step; intros [rest H]; simpl in H; discriminate.
Qed.

Lemma select_past_value_check env step ents tok :
  Js.truthy (resolve_value ents step) = true ->
  returns_only (fun r => ~ is_missing_value_error r) (executeSelect env step ents tok).
Proof.
  intros Hv. unfold executeSelect. apply ro_bind; intros _.
  destruct (negb (Js.truthy_opt (target step))).
  - apply ro_ret. intros [rest H]. discriminate.
  - cbv zeta. rewrite Hv. simpl negb. cbv iota. unfold choose_option.
    repeat ro_step; intros [rest H]; simpl in H; discriminate.
Qed.




(** ** Similarity scores and the choice of an option *)

Lemma count_matched_from (aWords bWords : list string) (n : nat) :
  fold_left
    (fun matchedWords aWord =>
       if existsb (related_words aWord) bWords then S matchedWords else matchedWords)
    aWords n
  = (n + matched_tokens aWords bWords)%nat.
Proof.
  unfold matched_tokens. revert n.
  induction aWords as [|a rest IH]; intros n; simpl; [lia|].
  rewrite IH. destruct (existsb (related_words a) bWords); simpl; lia.
Qed.

Lemma count_matched_tokens aWords bWords :
  count_matched aWords bWords = matched_tokens aWords bWords.
Proof. unfold count_matched. rewrite count_matched_from. reflexivity. Qed.

Lemma matched_tokens_le aWords bWords :
  (matched_tokens aWords bWords <= length aWords)%nat.
Proof.
  unfold matched_tokens. induction aWords as [|a rest IH]; simpl; [lia|].
  destruct (existsb (related_words a) bWords); simpl; lia.
Qed.

Lemma split_ws_from_nonempty prev cur s : (1 <= length (Js.split_ws_from prev cur s))%nat.
Proof.
  revert prev cur. induction s as [|c s IH]; intros prev cur; simpl; [lia|].
  destruct (Js.is_ws c); [destruct prev|]; simpl; try apply IH. lia.
Qed.

Lemma ratio_bounds m n : (m <= n)%nat -> (1 <= n)%nat -> (0 <= ratio m n /\ ratio m n <= 1)%Q.
Proof.
  intros Hmn Hn. unfold ratio.
  assert (Hpos : (0 < inject_Z (Z.of_nat n))%Q).
  { change 0%Q with (inject_Z 0). rewrite <- Zlt_Qlt. lia. }
  split.
  - apply Qle_shift_div_l; [exact Hpos|]. rewrite Qmult_0_l.
    change 0%Q with (inject_Z 0). rewrite <- Zle_Qle. lia.
  - apply Qle_shift_div_r; [exact Hpos|]. rewrite Qmult_1_l.
    rewrite <- Zle_Qle. lia.
Qed.

Lemma stringSimilarity_range a b : (0 <= stringSimilarity a b /\ stringSimilarity a b <= 1)%Q.
Proof.
  unfold stringSimilarity. cbv zeta.
  destruct (String.eqb _ _); [split; discriminate|].
  destruct (_ || _); [split; discriminate|].
  apply ratio_bounds.
  - rewrite count_matched_tokens.
    pose proof (matched_tokens_le (Js.split_ws (Js.trim (Js.toLowerCase a)))
                  (Js.split_ws (Js.trim (Js.toLowerCase b)))). lia.
  - pose proof (split_ws_from_nonempty false EmptyString (Js.trim (Js.toLowerCase a))).
    unfold Js.split_ws. lia.
Qed.

Lemma score_gt_lt a b : score_gt a b = true <-> (b < a)%Q.
Proof.
  unfold score_gt. rewrite negb_true_iff. split.
  - intros H. apply Qnot_le_lt. intros L. apply Qle_bool_iff in L. congruence.
  - intros H. destruct (Qle_bool a b) eqn:E; [|reflexivity].
    apply Qle_bool_iff in E. exfalso. exact (Qlt_not_le _ _ H E).
Qed.

Lemma score_gt_le a b : score_gt a b = false <-> (a <= b)%Q.
Proof.
  unfold score_gt. rewrite negb_false_iff. apply Qle_bool_iff.
Qed.

Lemma option_score_max v opt :
  (stringSimilarity v (opt_value opt) <= option_score v opt)%Q
  /\ (stringSimilarity v (opt_text opt) <= option_score v opt)%Q
  /\ (option_score v opt = stringSimilarity v (opt_value opt)
      \/ option_score v opt = stringSimilarity v (opt_text opt)).
Proof.
  unfold option_score, score_max. cbv zeta.
  destruct (Qle_bool (stringSimilarity v (opt_value opt)) (stringSimilarity v (opt_text opt)))
    eqn:E.
  - apply Qle_bool_iff in E. split; [exact E|]. split; [apply Qle_refl | right; reflexivity].
  - split; [apply Qle_refl|]. split; [|left; reflexivity].
    apply Qlt_le_weak, Qnot_le_lt. intros L. apply Qle_bool_iff in L. congruence.
Qed.

Lemma best_step_invariant v seen acc opt :
  best_so_far v seen acc -> best_so_far v (seen ++ [opt]) (best_step v acc opt).
Proof.
  intros (Hpos & Hmax & Hfirst). unfold best_step. cbv zeta.
  destruct (score_gt (option_score v opt) (snd acc)) eqn:G.
  - apply score_gt_lt in G. simpl. split; [|split].
    + apply Qlt_le_weak. eapply Qle_lt_trans; eassumption.
    + intros o Hin. apply in_app_or in Hin. destruct Hin as [Hin | [<- | []]].
      * apply Qlt_le_weak. eapply Qle_lt_trans; [apply Hmax, Hin | exact G].
      * apply Qle_refl.
    + exists seen, []. split; [reflexivity|]. split; [reflexivity|].
      split; [eapply Qle_lt_trans; eassumption|].
      intros x Hin. eapply Qle_lt_trans; [apply Hmax, Hin | exact G].
  - apply score_gt_le in G. split; [exact Hpos|]. split.
    + intros o Hin. apply in_app_or in Hin. destruct Hin as [Hin | [<- | []]];
        [apply Hmax, Hin | exact G].
    + destruct (fst acc) as [o|]; [|exact Hfirst].
      destruct Hfirst as (before & after & -> & Hs & Hp & Hb).
      exists before, (after ++ [opt]). rewrite <- app_assoc. simpl.
      repeat split; assumption.
Qed.

Lemma best_option_from v options :
  forall seen acc,
    best_so_far v seen acc ->
    best_so_far v (seen ++ options) (fold_left (best_step v) options acc).
Proof.
  induction options as [|opt rest IH]; intros seen acc H; simpl.
  - rewrite app_nil_r. exact H.
  - replace (seen ++ opt :: rest) with ((seen ++ [opt]) ++ rest)
      by (rewrite <- app_assoc; reflexivity).
    apply IH, best_step_invariant, H.
Qed.

Lemma best_option_spec v options : best_so_far v options (best_option v options).
Proof.
  unfold best_option. apply (best_option_from v options [] (None, 0%Q)).
  split; [discriminate|]. split; [intros o []|reflexivity].
Qed.

Lemma valid_options_spec all o :
  In o (valid_options all)
  <-> In o all /\ opt_value o <> "" /\ opt_disabled o = false.
Proof.
  unfold valid_options. rewrite filter_In, andb_true_iff, negb_true_iff.
  unfold Js.truthy. rewrite negb_true_iff, String.eqb_neq. tauto.
Qed.

Lemma stringSimilarity_cases a b :
  let a' := Js.trim (Js.toLowerCase a) in
  let b' := Js.trim (Js.toLowerCase b) in
  (a' = b' -> stringSimilarity a b = 1%Q)
  /\ (a' <> b' -> Js.includes a' b' || Js.includes b' a' = true ->
      stringSimilarity a b = (9 # 10)%Q)
  /\ (a' <> b' -> Js.includes a' b' || Js.includes b' a' = false ->
      stringSimilarity a b
      = ratio (matched_tokens (Js.split_ws a') (Js.split_ws b'))
          (Nat.max (length (Js.split_ws a')) (length (Js.split_ws b')))).
Proof.
  intros a' b'. unfold stringSimilarity. fold a' b'. cbv zeta.
  split; [|split].
  - intros E. apply String.eqb_eq in E. rewrite E. reflexivity.
  - intros N I. apply String.eqb_neq in N. rewrite N, I. reflexivity.
  - intros N I. apply String.eqb_neq in N. rewrite N, I, count_matched_tokens. reflexivity.
Qed.

Lemma choose_option_accepts env h v o rest w bestScore :
  best_option v (o :: rest) = (Some bestScore.1, bestScore.2) ->
  score_ge bestScore.2 (6 # 10) = true ->
  choose_option env h v (o :: rest) w
  = (write h (Dom.with_value (opt_value bestScore.1)) ;;
     dispatch env EvChange h ;;
     wait env ACTION_DELAY ;;
     unmark h ;;
     ret ok_result) w
  /\ fst (choose_option env h v (o :: rest) w) = Returned ok_result.
Proof.
  intros B G. unfold choose_option. rewrite B, G. split; [reflexivity|].
  unfold bind, write, unmark, write, dispatch, modify, wait, suspend, ret. reflexivity.
Qed.


(** the two selections of the specification's examples *)
Example fuzzy_select_grade_a :
  best_option "grade a"
    [ {| opt_value := "A"; opt_text := "Grade A"; opt_disabled := false |};
      {| opt_value := "B"; opt_text := "Grade B"; opt_disabled := false |};
      {| opt_value := "C"; opt_text := "Grade C"; opt_disabled := false |} ]
  = (Some {| opt_value := "A"; opt_text := "Grade A"; opt_disabled := false |}, 1%Q).
Proof. vm_compute. reflexivity. Qed.

Example fuzzy_select_rejects_xyz123 :
  best_option "xyz123"
    [ {| opt_value := "red"; opt_text := "Red"; opt_disabled := false |};
      {| opt_value := "blue"; opt_text := "Blue"; opt_disabled := false |};
      {| opt_value := "green"; opt_text := "Green"; opt_disabled := false |} ]
  = (None, 0%Q).
Proof. vm_compute. reflexivity. Qed.

(** ** Waiting for the outcome of a submission *)

Section Polling.

Variable env : Environment.

Lemma probe_world sel w : snd (probe env sel w) = w.
Proof.
  unfold probe. destruct sel as [s|]; [|reflexivity].
  destruct (Js.truthy s); [|reflexivity].
  unfold querySelector. destruct (css_valid env s); reflexivity.
Qed.

Lemma probe_absent sel w : absent env sel w -> probe env sel w = (Returned None, w).
Proof.
  unfold absent. intros H. pose proof (probe_world sel w) as W.
  destruct (probe env sel w) as [o w']. simpl in *. congruence.
Qed.

Lemma probe_appears sel w el :
  appears env sel w el -> probe env sel w = (Returned (Some el), w).
Proof.
  unfold appears. intros H. pose proof (probe_world sel w) as W.
  destruct (probe env sel w) as [o w']. simpl in *. congruence.
Qed.

Lemma now_cancelActiveExecution w : now (cancelActiveExecution w) = now w.
Proof.
  unfold cancelActiveExecution, cancel.
  destruct (activeCancellationToken w) as [t|]; [|reflexivity].
  destruct (isCancelled t w); reflexivity.
Qed.

Lemma now_wait ms w : (0 <= ms)%Z -> (now w + ms <= now (snd (wait env ms w)))%Z.
Proof.
  intros H. unfold wait, suspend. simpl.
  destruct (host_cancels env (ticks w)); [rewrite now_cancelActiveExecution|];
    simpl; lia.
Qed.

Lemma wait_returns ms w : wait env ms w = (Returned tt, snd (wait env ms w)).
Proof. reflexivity. Qed.

Lemma poll_world_succ i w :
  poll_world env (S i) w = poll_world env i (snd (wait env 100 w)).
Proof. exact (Nat.iter_succ_r i (fun x => snd (wait env 100 x)) w). Qed.

Lemma now_poll_world i : forall w, (now w + 100 * Z.of_nat i <= now (poll_world env i w))%Z.
Proof.
  induction i as [|i IH]; intros w.
  - simpl. lia.
  - rewrite poll_world_succ.
    pose proof (IH (snd (wait env 100 w))). pose proof (now_wait 100 w). lia.
Qed.

Lemma now_poll_world_mono i : forall j w,
  (j <= i)%nat -> (now (poll_world env j w) <= now (poll_world env i w))%Z.
Proof.
  induction i as [|i IH]; intros j w Hj.
  - assert (j = 0%nat) as -> by lia. lia.
  - destruct j as [|j].
    + pose proof (now_poll_world (S i) w). simpl poll_world at 1. lia.
    + rewrite !poll_world_succ. apply IH. lia.
Qed.

Variable successSelector errorSelector : option string.
Variable startTime timeout : Z.

(** the loop leaves at the first test, within the time allowed, at which
    one of the two elements is in the document; the success selector is
    probed first *)
Lemma waitForEither_loop_found i :
  forall fuel w,
    (i < fuel)%nat ->
    (now (poll_world env i w) - startTime < timeout)%Z ->
    (forall j, (j < i)%nat ->
               absent env successSelector (poll_world env j w)
               /\ absent env errorSelector (poll_world env j w)) ->
    (forall el, appears env successSelector (poll_world env i w) el ->
                waitForEither_loop env fuel successSelector errorSelector startTime timeout w
                = (Returned (FoundSuccess el), poll_world env i w))
    /\ (forall el, absent env successSelector (poll_world env i w) ->
                   appears env errorSelector (poll_world env i w) el ->
                   waitForEither_loop env fuel successSelector errorSelector startTime timeout w
                   = (Returned (FoundError el), poll_world env i w)).
Proof.
  induction i as [|i IH]; intros fuel w Hfuel Hwin Habs.
  - destruct fuel as [|fuel]; [lia|]. simpl in Hwin. simpl waitForEither_loop.
    unfold Date_now. rewrite (bind_returned _ _ w (now w) w) by reflexivity.
    apply Z.ltb_lt in Hwin. rewrite Hwin. split.
    + intros el Hs. simpl poll_world in *.
      rewrite (bind_returned _ _ _ _ _ (probe_appears _ _ _ Hs)). reflexivity.
    + intros el Hs He. simpl poll_world in *.
      rewrite (bind_returned _ _ _ _ _ (probe_absent _ _ Hs)).
      rewrite (bind_returned _ _ _ _ _ (probe_appears _ _ _ He)). reflexivity.
  - destruct fuel as [|fuel]; [lia|]. simpl waitForEither_loop.
    unfold Date_now. rewrite (bind_returned _ _ w (now w) w) by reflexivity.
    assert (Hnow : (now w - startTime <? timeout)%Z = true).
    { apply Z.ltb_lt. pose proof (now_poll_world_mono (S i) 0 w ltac:(lia)) as M.
      simpl poll_world at 1 in M. lia. }
    rewrite Hnow.
    destruct (Habs 0%nat ltac:(lia)) as [A1 A2]. simpl poll_world in A1, A2.
    rewrite (bind_returned _ _ _ _ _ (probe_absent _ _ A1)).
    rewrite (bind_returned _ _ _ _ _ (probe_absent _ _ A2)).
    rewrite (bind_returned _ _ _ _ _ (wait_returns 100 w)).
    rewrite !poll_world_succ in *.
    apply IH; [lia | exact Hwin |].
    intros j Hj. rewrite <- poll_world_succ. apply Habs. lia.
Qed.

(** with neither element in the document at any test within the time
    allowed, the loop goes on until the time is over *)
Lemma waitForEither_loop_timeout fuel :
  forall w,
    (timeout - (now w - startTime) <= 100 * (Z.of_nat fuel - 1))%Z ->
    (forall j, (now (poll_world env j w) - startTime < timeout)%Z ->
               absent env successSelector (poll_world env j w)
               /\ absent env errorSelector (poll_world env j w)) ->
    exists i,
      waitForEither_loop env fuel successSelector errorSelector startTime timeout w
      = (Returned TimedOut, poll_world env i w)
      /\ (timeout <= now (poll_world env i w) - startTime)%Z.
Proof.
  induction fuel as [|fuel IH]; intros w Hfuel Habs.
  - exists 0%nat. split; [reflexivity|]. simpl. lia.
  - simpl waitForEither_loop.
    unfold Date_now. rewrite (bind_returned _ _ w (now w) w) by reflexivity.
    destruct (now w - startTime <? timeout)%Z eqn:T.
    + apply Z.ltb_lt in T. destruct (Habs 0%nat T) as [A1 A2]. simpl poll_world in A1, A2.
      rewrite (bind_returned _ _ _ _ _ (probe_absent _ _ A1)).
      rewrite (bind_returned _ _ _ _ _ (probe_absent _ _ A2)).
      rewrite (bind_returned _ _ _ _ _ (wait_returns 100 w)).
      destruct (IH (snd (wait env 100 w))) as (i & E & D).
      * pose proof (now_wait 100 w). lia.
      * intros j Hj. rewrite <- poll_world_succ in *. apply Habs, Hj.
      * exists (S i). rewrite poll_world_succ. split; assumption.
    + apply Z.ltb_ge in T. exists 0%nat. split; [reflexivity|]. simpl. lia.
Qed.

End Polling.

Lemma poll_fuel_10000 : poll_fuel 10000 = 102%nat.
Proof. reflexivity. Qed.

Lemma waitForEither_unfold env s e timeout w :
  waitForEither env s e timeout w
  = waitForEither_loop env (poll_fuel timeout) s e (now w) timeout w.
Proof. reflexivity. Qed.


(** a submit step that is not cancellable, once its control is found,
    marks it, clicks it, unmarks it and enters the confirmation phase *)
Lemma executeSubmit_after_click env step sel el w w1 :
  target step = Some sel ->
  Js.truthy sel = true ->
  waitForElement env sel 5000 w = (Returned (Some el), w1) ->
  executeSubmit env step None w
  = awaitSubmitOutcome env step
      (snd ((mark (node_id el) ;;
             wait env ACTION_DELAY ;;
             dispatch env EvClick (node_id el) ;;
             wait env ACTION_DELAY ;;
             unmark (node_id el)) w1)).
Proof.
  intros Ht Hs Hw. unfold executeSubmit.
  rewrite (bind_returned _ _ w tt w) by reflexivity.
  unfold Js.truthy_opt, Js.or_else. rewrite Ht, Hs.
  change (negb true) with false. cbv iota zeta.
  rewrite (bind_returned _ _ _ _ _ Hw).
  reflexivity.
Qed.

(** ** Label references *)

Lemma findByLabel_loop_some r text ty labels n :
  findByLabel_loop r text ty labels = Some n
  <-> exists before x after,
        labels = before ++ x :: after
        /\ label_matches text (fst x) = true
        /\ resolve_label r ty x = Some n
        /\ forall y, In y before -> label_matches text (fst y) = true ->
                     resolve_label r ty y = None.
Proof.
  induction labels as [|[label parent] rest IH]; simpl.
  - split; [discriminate|]. intros (before & x & after & H & _).
    destruct before; discriminate.
  - destruct (label_matches text label) eqn:Hm.
    + destruct (resolve_label r ty (label, parent)) as [m|] eqn:Hr.
      * assert (Hcode : match label_for r ty label with
                        | Some input => Some input
                        | None => match label_nested label with
                                  | Some nestedInput => Some nestedInput
                                  | None => match label_adjacent ty parent with
                                            | Some input => Some input
                                            | None => findByLabel_loop r text ty rest
                                            end
                                  end
                        end = Some m).
        { unfold resolve_label in Hr. simpl in Hr.
          destruct (label_for r ty label); [exact Hr|].
          destruct (label_nested label); [exact Hr|].
          destruct (label_adjacent ty parent); [exact Hr | discriminate]. }
        rewrite Hcode. split.
        -- intros E. exists [], (label, parent), rest. simpl.
           repeat split; try assumption; try congruence. intros y [].
        -- intros (before & x & after & Hs & Hx & Hres & Hb).
           destruct before as [|b before]; simpl in Hs.
           ++ injection Hs as <- _. congruence.
           ++ injection Hs as <- _.
              rewrite (Hb (label, parent) (or_introl eq_refl) Hm) in Hr. discriminate.
      * assert (Hcode : match label_for r ty label with
                        | Some input => Some input
                        | None => match label_nested label with
                                  | Some nestedInput => Some nestedInput
                                  | None => match label_adjacent ty parent with
                                            | Some input => Some input
                                            | None => findByLabel_loop r text ty rest
                                            end
                                  end
                        end = findByLabel_loop r text ty rest).
        { unfold resolve_label in Hr. simpl in Hr.
          destruct (label_for r ty label); [discriminate|].
          destruct (label_nested label); [discriminate|].
          destruct (label_adjacent ty parent); [discriminate | reflexivity]. }
        rewrite Hcode, IH. split.
        -- intros (before & x & after & -> & Hx & Hres & Hb).
           exists ((label, parent) :: before), x, after. repeat split; try assumption.
           intros y [<- | Hy] Hmy; [exact Hr | exact (Hb y Hy Hmy)].
        -- intros (before & x & after & Hs & Hx & Hres & Hb).
           destruct before as [|b before]; simpl in Hs.
           ++ injection Hs as <- _. congruence.
           ++ injection Hs as <- ->. exists before, x, after.
              repeat split; try assumption. intros y Hy. apply Hb. right. exact Hy.
    + rewrite IH. split.
      * intros (before & x & after & -> & Hx & Hres & Hb).
        exists ((label, parent) :: before), x, after. repeat split; try assumption.
        intros y [<- | Hy] Hmy; [simpl in Hmy; congruence | exact (Hb y Hy Hmy)].
      * intros (before & x & after & Hs & Hx & Hres & Hb).
        destruct before as [|b before]; simpl in Hs.
        -- injection Hs as <- _. simpl in Hx. congruence.
        -- injection Hs as <- ->. exists before, x, after.
           repeat split; try assumption. intros y Hy. apply Hb. right. exact Hy.
Qed.

(** the first label, in document order, whose text contains the given
    text and that resolves to a control decides the result *)
Lemma findByLabel_first_resolving r text ty n :
  findByLabel r text ty = Some n
  <-> exists before x after,
        labels_of r = before ++ x :: after
        /\ label_matches text (fst x) = true
        /\ resolve_label r ty x = Some n
        /\ forall y, In y before -> label_matches text (fst y) = true ->
                     resolve_label r ty y = None.
Proof. apply findByLabel_loop_some. Qed.

Lemma append_empty_r (s : string) : (s ++ "")%string = s.
Proof.
  induction s as [|c s IH]; [reflexivity|].
  change (String c (s ++ "")%string = String c s). rewrite IH. reflexivity.
Qed.

Lemma append_snoc (cur : string) c s :
  ((cur ++ String c "") ++ s)%string = (cur ++ String c s)%string.
Proof.
  induction cur as [|d cur IH]; [reflexivity|].
  change (String d ((cur ++ String c "") ++ s)%string = String d (cur ++ String c s)%string).
  rewrite IH. reflexivity.
Qed.

Lemma split_on_no_bar s : forall cur,
  no_bar s = true -> Js.split_on "|" cur s = [(cur ++ s)%string].
Proof.
  induction s as [|c s IH]; intros cur H; simpl in *.
  - rewrite append_empty_r. reflexivity.
  - apply andb_true_iff in H. destruct H as [Hc Hs]. apply negb_true_iff in Hc.
    rewrite Hc, (IH _ Hs), append_snoc. reflexivity.
Qed.

Lemma split_on_bar s : forall cur rest,
  no_bar s = true ->
  Js.split_on "|" cur (s ++ String "|" rest) = (cur ++ s)%string :: Js.split "|" rest.
Proof.
  induction s as [|c s IH]; intros cur rest H; simpl in *.
  - rewrite append_empty_r. reflexivity.
  - apply andb_true_iff in H. destruct H as [Hc Hs]. apply negb_true_iff in Hc.
    rewrite Hc, (IH _ _ Hs), append_snoc. reflexivity.
Qed.

Lemma startsWith_label text : Js.startsWith ("label:" ++ text) "label:" = true.
Proof. unfold Js.startsWith. simpl. destruct text; reflexivity. Qed.

(** how a label reference is read *)
Lemma findElement_label env text w :
  no_bar text = true ->
  findElement env ("label:" ++ text) w
  = (Returned (findByLabel (root (page w)) text None), w)
  /\ forall ty,
      no_bar ty = true ->
      findElement env ("label:" ++ text ++ String "|" ty) w
      = (Returned (findByLabel (root (page w)) text (Some ty)), w).
Proof.
  intros Ht. split.
  - unfold findElement.
    rewrite startsWith_label.
    change (Js.slice 6 ("label:" ++ text)) with text.
    unfold Js.split. rewrite (split_on_no_bar text EmptyString Ht). reflexivity.
  - intros ty Hty. unfold findElement.
    rewrite startsWith_label.
    change (Js.slice 6 ("label:" ++ text ++ String "|" ty)) with (text ++ String "|" ty)%string.
    unfold Js.split. rewrite (split_on_bar text EmptyString ty Ht).
    unfold Js.split. rewrite (split_on_no_bar ty EmptyString Hty). reflexivity.
Qed.

(** the pair [<label for="f1">Full Name</label><input id="f1">] *)
Example label_full_name_resolves :
  fst (findElement (Sample.quiet None) "label:Full Name" (Sample.world Sample.name_form))
  = Returned (Some (ElementNode (Sample.element 2 "input" "f1" "text" "") [])).
Proof. vm_compute. reflexivity. Qed.

(** C9.  The type filter of a label reference is applied to the target of
    the label's [for] attribute and to the control under the label's
    parent, but not to a control nested in the label: for
    [<label>Age <input type="text" id="age"></label>] the reference
    [label:Age|number] resolves to the nested input although its type is
    [text], whereas for [<label for="f1">Full Name</label><input id="f1"
    type="text">] the reference [label:Full Name|number] resolves to
    nothing. *)
Theorem C9_nested_control_ignores_type_filter :
  (exists e kids,
      fst (findElement (Sample.quiet None) "label:Age|number"
             (Sample.world Sample.nested_form))
      = Returned (Some (ElementNode e kids))
      /\ el_id e = "age" /\ el_type e = "text" /\ el_type e <> "number")
  /\ fst (findElement (Sample.quiet None) "label:Full Name|number"
            (Sample.world Sample.name_form))
     = Returned None
  /\ fst (findElement (Sample.quiet None) "label:Full Name|text"
            (Sample.world Sample.name_form))
     = Returned (Some (ElementNode (Sample.element 2 "input" "f1" "text" "") [])).
Proof.
  split; [|split]; [| vm_compute; reflexivity | vm_compute; reflexivity].
  eexists _, _. split; [vm_compute; reflexivity|].
  split; [reflexivity|]. split; [reflexivity | discriminate].
Qed.

(** a submission whose error banner shows up during the wait that follows
    the third probe *)
Example submit_reports_form_error :
  fst (executeSubmit (Sample.failing_form 4) Sample.submit_step None
         (Sample.world (Sample.submit_form false)))
  = Returned (fatal_result "Form error: Name is required").
Proof. vm_compute. reflexivity. Qed.

Example submit_times_out :
  fst (executeSubmit (Sample.quiet None) Sample.submit_step None
         (Sample.world (Sample.submit_form false)))
  = Returned (fail_result "Submission timed out").
Proof. vm_compute. reflexivity. Qed.

(** ** Waiting for an element *)

Section WaitForElement.

Variable env : Environment.
Variable sel : string.
Variable startTime timeout : Z.

Lemma findElement_world w : snd (findElement env sel w) = w.
Proof.
  unfold findElement. destruct (Js.startsWith sel "label:"); [reflexivity|].
  unfold querySelector. destruct (css_valid env sel); reflexivity.
Qed.

(** the loop returns the element found at the first test, within the time
    allowed, at which the reference resolves *)
Lemma waitForElement_loop_found i :
  forall fuel w el,
    (i < fuel)%nat ->
    (now (poll_world env i w) - startTime < timeout)%Z ->
    (forall j, (j < i)%nat -> fst (findElement env sel (poll_world env j w)) = Returned None) ->
    fst (findElement env sel (poll_world env i w)) = Returned (Some el) ->
    waitForElement_loop env fuel sel startTime timeout w
    = (Returned (Some el), poll_world env i w).
Proof.
  induction i as [|i IH]; intros fuel w el Hfuel Hwin Habs Hfound;
    (destruct fuel as [|fuel]; [lia|]); simpl waitForElement_loop;
    unfold Date_now; rewrite (bind_returned _ _ w (now w) w) by reflexivity.
  - simpl poll_world in *. apply Z.ltb_lt in Hwin. rewrite Hwin.
    pose proof (findElement_world w) as W.
    destruct (findElement env sel w) as [o w'] eqn:E. simpl in W, Hfound. subst w' o.
    rewrite (bind_returned _ _ _ _ _ E). reflexivity.
  - assert (Hnow : (now w - startTime <? timeout)%Z = true).
    { apply Z.ltb_lt. pose proof (now_poll_world_mono env (S i) 0 w ltac:(lia)) as M.
      simpl poll_world at 1 in M. lia. }
    rewrite Hnow.
    pose proof (Habs 0%nat ltac:(lia)) as A. simpl poll_world in A.
    pose proof (findElement_world w) as W.
    destruct (findElement env sel w) as [o w'] eqn:E. simpl in W, A. subst w' o.
    rewrite (bind_returned _ _ _ _ _ E).
    rewrite (bind_returned _ _ _ _ _ (wait_returns env 100 w)).
    rewrite !poll_world_succ in *.
    apply IH; [lia | exact Hwin | | exact Hfound].
    intros j Hj. rewrite <- poll_world_succ. apply Habs. lia.
Qed.

(** when the reference never resolves within the time allowed, the loop
    returns [null] once the time is over, and not before *)
Lemma waitForElement_loop_timeout fuel :
  forall w,
    (timeout - (now w - startTime) <= 100 * (Z.of_nat fuel - 1))%Z ->
    (forall j, (now (poll_world env j w) - startTime < timeout)%Z ->
               fst (findElement env sel (poll_world env j w)) = Returned None) ->
    exists i,
      waitForElement_loop env fuel sel startTime timeout w
      = (Returned None, poll_world env i w)
      /\ (timeout <= now (poll_world env i w) - startTime)%Z.
Proof.
  induction fuel as [|fuel IH]; intros w Hfuel Habs.
  - exists 0%nat. split; [reflexivity|]. simpl. lia.
  - simpl waitForElement_loop.
    unfold Date_now. rewrite (bind_returned _ _ w (now w) w) by reflexivity.
    destruct (now w - startTime <? timeout)%Z eqn:T.
    + apply Z.ltb_lt in T. pose proof (Habs 0%nat T) as A. simpl poll_world in A.
      pose proof (findElement_world w) as W.
      destruct (findElement env sel w) as [o w'] eqn:E. simpl in W, A. subst w' o.
      rewrite (bind_returned _ _ _ _ _ E).
      rewrite (bind_returned _ _ _ _ _ (wait_returns env 100 w)).
      destruct (IH (snd (wait env 100 w))) as (i & E' & D).
      * pose proof (now_wait env 100 w). lia.
      * intros j Hj. rewrite <- poll_world_succ in *. apply Habs, Hj.
      * exists (S i). rewrite poll_world_succ. split; assumption.
    + apply Z.ltb_ge in T. exists 0%nat. split; [reflexivity|]. simpl. lia.
Qed.

End WaitForElement.

(** the fuel given to a polling loop is never used up before its time is
    over *)
Lemma poll_fuel_enough timeout t :
  (timeout - (t - t) <= 100 * (Z.of_nat (poll_fuel timeout) - 1))%Z.
Proof.
  unfold poll_fuel. destruct (Z.le_gt_cases 0 timeout) as [H|H].
  - rewrite !Nat2Z.inj_succ, Z2Nat.id by (apply Z.div_pos; lia).
    pose proof (Z.mul_div_le timeout 100 ltac:(lia)).
    pose proof (Z.mod_pos_bound timeout 100 ltac:(lia)).
    pose proof (Z.div_mod timeout 100 ltac:(lia)). lia.
  - rewrite !Nat2Z.inj_succ. lia.
Qed.

(** ** Check points *)

(** every step executor begins with a check: a token that is cancelled
    when the step starts stops it before it touches the document *)
Lemma executeStep_cancelled_at_entry env step manifest p t w :
  isCancelled t w = true ->
  executeStep env step manifest p (Some t) w
  = (Thrown (CancellationError "Operation was cancelled"), w).
Proof.
  intros H. unfold executeStep. apply bind_thrown.
  simpl. unfold throwIfCancelled. rewrite H. reflexivity.
Qed.

(** the host's cancel action marks the active token, and a check on that
    token throws from then on *)
Lemma cancelActiveExecution_raises t w :
  activeCancellationToken w = Some t ->
  fst (throwIfCancelled_opt (Some t) (cancelActiveExecution w))
  = Thrown (CancellationError "Operation was cancelled").
Proof.
  intros H. unfold cancelActiveExecution, cancel. rewrite H.
  destruct (isCancelled t w) eqn:C; simpl; unfold throwIfCancelled.
  - rewrite C. reflexivity.
  - unfold isCancelled. simpl.
    rewrite bool_decide_eq_true_2 by set_solver. reflexivity.
Qed.

(** * Further properties of the engine *)

(** ** Every way out of one pass *)

Section Passes.

Variable env : Environment.
Variable manifest : GlideManifest.
Variable p : ExecutionPlan.
Variable onProgress : bool.
Variable tok : option CancellationToken.

(** a hand-off to navigation: what [try_step] leaves behind *)
Lemma try_step_handoff step c w1 result w2 :
  executeStep env step manifest p tok w1 = (Returned result, w2) ->
  needsNavigation result = true ->
  exists w3,
    try_step env step manifest p tok c w1
    = (Returned (inr (navigating_result (c + 1) (length (steps p)),
                     set_status executing (set_currentStep (c + 1) p))), w3)
    /\ storage w3 !! EXECUTION_STATE_KEY
       = Some {| plan := set_status executing (set_currentStep (c + 1) p);
                 startedAt := now w2; lastUpdated := now w2 |}
    /\ isExecuting w3 = false
    /\ activeCancellationToken w3 = None
    /\ cachedManifest w3 = cachedManifest w2
    /\ progress w3 = progress w2.
Proof.
  intros E N. unfold try_step.
  destruct (saveExecutionState_spec env
              {| plan := set_status executing (set_currentStep (c + 1) p);
                 startedAt := now w2; lastUpdated := now w2 |} w2)
    as (w3 & S & s1 & s2 & s3 & s4).
  exists (set_isExecuting false (set_activeCancellationToken None w3)). split.
  - rewrite (bind_returned _ _ _ _ _ E). rewrite N.
    unfold Date_now. rewrite (bind_returned _ _ w2 (now w2) w2) by reflexivity.
    rewrite (bind_returned _ _ _ _ _ S). reflexivity.
  - simpl. rewrite s1, lookup_insert_eq. repeat split; assumption.
Qed.

(** the verdict of a pass whose head check passes, by what the step
    executor did *)
Lemma loop_body_after_check step c errs w :
  fst (throwIfCancelled_opt tok w) = Returned tt ->
  loop_body env manifest p onProgress tok step c errs w
  = match executeStep env step manifest p tok (reported p onProgress step c w) with
    | (Thrown e, w2) =>
        if is_cancellation e
        then bind (on_cancel_in_step env p c) (fun exit => ret (Leave exit)) w2
        else (Returned (Leave (LoopDone c (errs ++ [exn_message e]))), w2)
    | (Returned result, w2) =>
        if needsNavigation result
        then match try_step env step manifest p tok c (reported p onProgress step c w) with
             | (Returned (inr (res, p')), w3) => (Returned (Leave (LoopReturn res p')), w3)
             | (_, w3) => (Returned (Leave (LoopDone c errs)), w3)
             end
        else if sr_success result then (Returned (Continue errs), w2)
        else if fatal result
             then (Returned (Leave (LoopDone c
                      (errs ++ [Js.or_else (sr_error result)
                                  ("Step " ++ Js.show_nat (c + 1) ++ " failed")]))), w2)
             else (Returned (Continue
                      (errs ++ [Js.or_else (sr_error result)
                                  ("Step " ++ Js.show_nat (c + 1) ++ " failed")])), w2)
    end.
Proof.
  intros Hpre.
  assert (E : throwIfCancelled_opt tok w = (Returned tt, w)).
  { destruct (throwIfCancelled_opt_cases tok w) as [E|E]; rewrite E in *;
      [reflexivity | discriminate]. }
  unfold loop_body. unfold bind at 1. unfold attempt at 1.
  rewrite (bind_returned _ _ _ _ _ E), report_returns.
  unfold bind at 1. unfold attempt.
  destruct (try_step_cases env manifest p tok step c (reported p onProgress step c w))
    as [(e & w2 & X & T) | [(r & w2 & X & N & T) | (r & w2 & w3 & X & N & T & _)]];
    rewrite X, T.
  - destruct (is_cancellation e); reflexivity.
  - rewrite N. destruct (sr_success r); [|destruct (fatal r)]; reflexivity.
  - rewrite N. reflexivity.
Qed.

End Passes.

(** ** Every way out of a run *)

Section Outcomes.

Variable env : Environment.
Variable manifest : GlideManifest.
Variable p : ExecutionPlan.
Variable onProgress : bool.
Variable tok : option CancellationToken.

Lemma snoc_not_nil {A} (l : list A) x : l ++ [x] <> [].
Proof. destruct l; discriminate. Qed.

Lemma run_loop_exits rest :
  forall c errs w,
    isExecuting w = true ->
    exists exit w',
      run_loop env manifest p onProgress tok rest c errs w = (Returned exit, w')
      /\ match exit with
         | LoopDone c' errs' =>
             exists more,
               errs' = errs ++ more
               /\ (c <= c' <= c + length rest)%nat
               /\ (more = [] -> c' = (c + length rest)%nat)
               /\ (length more <= length rest)%nat
         | LoopReturn r p' =>
             exists c', (c <= c' < c + length rest)%nat
               /\ ((r = navigating_result (c' + 1) (length (steps p))
                    /\ ended_navigating p r p' w')
                   \/ (r = cancelled_result c' (length (steps p))
                       /\ ended_cancelled p r p' w' true))
         | LoopEscape c' e =>
             (c <= c' < c + length rest)%nat /\ is_cancellation e = true
         end.
Proof.
  induction rest as [|step rest IH]; intros c errs w Hlock.
  - exists (LoopDone c errs), w. split; [reflexivity|]. exists [].
    rewrite app_nil_r. simpl. repeat split; lia.
  - simpl run_loop.
    destruct (throwIfCancelled_opt_cases tok w) as [E|E].
    + assert (Hpre : fst (throwIfCancelled_opt tok w) = Returned tt) by (rewrite E; reflexivity).
      pose proof (loop_body_after_check env manifest p onProgress tok step c errs w Hpre) as B.
      destruct (reported_frame p onProgress step c w) as (g1 & g2 & g3 & g4 & g5).
      pose proof (keeps_executeStep env step manifest p tok (reported p onProgress step c w)) as F.
      destruct (executeStep env step manifest p tok (reported p onProgress step c w))
        as [[result | e] w2] eqn:X; simpl in F; destruct F as (f1 & f2 & f3 & f4 & f5).
      * destruct (needsNavigation result) eqn:N.
        -- destruct (try_step_handoff env manifest p tok step c _ _ _ X N)
             as (w3 & T & t1 & t2 & t3 & t4 & t5).
           rewrite T in B. rewrite (bind_returned _ _ _ _ _ B).
           eexists _, w3. split; [reflexivity|]. exists c. split; [simpl; lia|]. left.
           split; [reflexivity|]. unfold ended_navigating. simpl.
           repeat split; try assumption; try lia.
           eexists. exact t1.
        -- destruct (sr_success result).
           ++ rewrite (bind_returned _ _ _ _ _ B).
              destruct (IH (S c) errs w2 ltac:(congruence)) as (exit & w' & R & Hex).
              exists exit, w'. split; [exact R|].
              destruct exit as [c' errs' | r p' | c' e].
              ** destruct Hex as (more & h1 & h2 & h3 & h4). exists more. simpl.
                 split; [exact h1|]. split; [lia|]. split; [|lia].
                 intros Hm. rewrite (h3 Hm). lia.
              ** destruct Hex as (c' & h1 & h2). exists c'. split; [simpl; lia | exact h2].
              ** destruct Hex as (h1 & h2). split; [simpl; lia | exact h2].
           ++ destruct (fatal result).
              ** rewrite (bind_returned _ _ _ _ _ B).
                 eexists _, w2. split; [reflexivity|]. eexists [_]. simpl.
                 split; [reflexivity|]. split; [lia|]. split; [discriminate | lia].
              ** rewrite (bind_returned _ _ _ _ _ B).
                 destruct (IH (S c)
                             (errs ++ [Js.or_else (sr_error result)
                                         ("Step " ++ Js.show_nat (c + 1) ++ " failed")])
                             w2 ltac:(congruence)) as (exit & w' & R & Hex).
                 exists exit, w'. split; [exact R|].
                 destruct exit as [c' errs' | r p' | c' e].
                 --- destruct Hex as (more & h1 & h2 & h3 & h4).
                     eexists (_ :: more). simpl.
                     split; [rewrite h1, <- app_assoc; reflexivity|].
                     split; [lia|]. split; [discriminate | lia].
                 --- destruct Hex as (c' & h1 & h2). exists c'. split; [simpl; lia | exact h2].
                 --- destruct Hex as (h1 & h2). split; [simpl; lia | exact h2].
      * destruct (is_cancellation e) eqn:Ce.
        -- destruct (on_cancel_in_step_spec env p c w2) as (w3 & O & o1 & o2 & o3 & o4 & o5 & o6).
           rewrite (bind_returned _ _ _ _ _ O) in B. rewrite (bind_returned _ _ _ _ _ B).
           eexists _, w3. split; [reflexivity|]. exists c. split; [simpl; lia|]. right.
           split; [reflexivity|]. unfold ended_cancelled. simpl.
           repeat split; try assumption. congruence.
        -- rewrite (bind_returned _ _ _ _ _ B).
           eexists _, w2. split; [reflexivity|]. eexists [_]. simpl.
           split; [reflexivity|]. split; [lia|]. split; [discriminate | lia].
    + assert (Hb : raised_before_step tok w) by (eexists; rewrite E; reflexivity).
      destruct (loop_body_raised_before env manifest p onProgress tok step c errs w Hb)
        as (msg & B).
      rewrite (bind_returned _ _ _ _ _ B).
      eexists _, w. split; [reflexivity|]. simpl. split; [lia | reflexivity].
Qed.

Lemma final_result_facts c total errs :
  let r := final_result c total errs in
  cancelled r = false /\ navigating r = false
  /\ completedSteps r = c /\ totalSteps r = total
  /\ (errors r = None <-> errs = [])
  /\ (forall l, errors r = Some l -> l = errs)
  /\ (success r = true <-> c = total /\ errs = []).
Proof.
  simpl. repeat split; try reflexivity.
  - destruct errs; simpl; [reflexivity | discriminate].
  - intros ->. reflexivity.
  - intros l. destruct errs; simpl; [discriminate | congruence].
  - apply andb_true_iff in H. apply Nat.eqb_eq. tauto.
  - apply andb_true_iff in H. destruct H as [_ H]. apply Nat.eqb_eq in H.
    destruct errs; [reflexivity | discriminate].
  - intros [-> ->]. simpl. rewrite Nat.eqb_refl. reflexivity.
Qed.

(** where a run stands once [n] steps are behind it *)
Lemma executeFromStep_after n w rest c errs wn :
  isExecuting w = false ->
  after_steps env manifest p onProgress tok n w = Some (rest, c, errs, wn) ->
  executeFromStep env p manifest onProgress tok w
  = bind (run_loop env manifest p onProgress tok rest c errs) (conclude env p) wn
  /\ c = (currentStep p + n)%nat
  /\ (exists started,
         skipn (currentStep p) (steps p) = started ++ rest
         /\ length started = n
         /\ progress wn
            = progress w ++ (if onProgress
                             then notices (length (steps p)) (currentStep p) started
                             else []))
  /\ isExecuting wn = true
  /\ cachedManifest wn = cachedManifest w
  /\ storage wn = storage w.
Proof.
  intros Hlock Hadv.
  rewrite (executeFromStep_unlocked _ _ _ _ _ _ Hlock).
  unfold after_steps in Hadv.
  destruct (take_lock_spec tok w) as (w1 & T & t1 & t2 & t3 & t4 & _).
  rewrite T in Hadv |- *. simpl snd in *.
  destruct (advance_run_loop _ _ _ _ _ _ _ _ _ _ _ _ _ _ Hadv)
    as (R & C & (started & S1 & S2 & S3) & a1 & a2 & a3).
  split; [unfold bind; rewrite R; reflexivity|].
  split; [exact C|]. split.
  - exists started. split; [exact S1|]. split; [exact S2|]. rewrite S3, t4. reflexivity.
  - repeat split; congruence.
Qed.

(** what a run that starts with the lock free comes to *)
Lemma executeFromStep_outcome w :
  isExecuting w = false ->
  (currentStep p <= length (steps p))%nat ->
  exists r p' w',
    executeFromStep env p manifest onProgress tok w = (Returned (r, p'), w')
    /\ totalSteps r = length (steps p)
    /\ (currentStep p <= completedSteps r <= length (steps p))%nat
    /\ (ended_completed p r p' w'
        \/ ended_navigating p r p' w'
        \/ exists held, ended_cancelled p r p' w' held).
Proof.
  intros Hlock Hcur.
  rewrite (executeFromStep_unlocked _ _ _ _ _ _ Hlock).
  destruct (take_lock_spec tok w) as (w1 & T & t1 & _).
  rewrite T. simpl snd.
  destruct (run_loop_exits (skipn (currentStep p) (steps p)) (currentStep p) [] w1 t1)
    as (exit & w2 & R & Hex).
  rewrite (bind_returned _ _ _ _ _ R).
  assert (Hlen : length (skipn (currentStep p) (steps p))
                 = (length (steps p) - currentStep p)%nat) by apply length_skipn.
  rewrite Hlen in Hex.
  destruct exit as [c' errs' | r p' | c' e].
  - destruct Hex as (more & h1 & h2 & h3 & h4). simpl in h1. subst errs'.
    destruct (conclude_done env p c' more w2) as (w' & C & c1 & c2 & c3 & c4).
    rewrite C. eexists _, _, w'. split; [reflexivity|].
    destruct (final_result_facts c' (length (steps p)) more)
      as (f1 & f2 & f3 & f4 & f5 & f6 & f7).
    split; [exact f4|]. split; [rewrite f3; lia|]. left. unfold ended_completed.
    split; [reflexivity|]. split; [exact f1|]. split; [exact f2|].
    split; [|split; [|split; [|repeat split; assumption]]].
    + rewrite f7, f5. split; [tauto|]. intros Hm. split; [|exact Hm].
      rewrite (h3 Hm). lia.
    + rewrite f5, f3. intros Hm. rewrite (h3 Hm). lia.
    + intros l Hl. pose proof (f6 l Hl) as ->. split; [|exact h4].
      intros Hm. rewrite Hm in Hl. discriminate Hl.
  - simpl conclude. destruct Hex as (c' & h1 & [[-> hn] | [-> hc]]).
    + eexists _, _, w2. split; [reflexivity|]. simpl.
      split; [reflexivity|]. split; [lia|]. right. left. exact hn.
    + eexists _, _, w2. split; [reflexivity|]. simpl.
      split; [reflexivity|]. split; [lia|]. right. right. exists true. exact hc.
  - destruct Hex as (h1 & h2). destruct e as [msg | msg]; [|discriminate].
    destruct (conclude_escape_cancel env p c' msg w2) as (w' & C & c1 & c2 & c3 & c4 & c5).
    rewrite C. eexists _, _, w'. split; [reflexivity|]. simpl.
    split; [reflexivity|]. split; [lia|]. right. right. exists false.
    unfold ended_cancelled. simpl. repeat split; assumption.
Qed.

End Outcomes.

(** ** What the engine guarantees about every run *)

Lemma notices_app total started more :
  forall c,
    notices total c (started ++ more)
    = notices total c started ++ notices total (c + length started) more.
Proof.
  induction started as [|s started IH]; intros c; simpl.
  - rewrite Nat.add_0_r. reflexivity.
  - rewrite IH. replace (S c + length started)%nat with (c + S (length started))%nat by lia.
    reflexivity.
Qed.

Lemma firstn_snoc {A} (started : list A) x rest :
  firstn (S (length started)) (started ++ x :: rest) = started ++ [x].
Proof.
  induction started as [|s started IH]; simpl; [reflexivity|].
  f_equal. exact IH.
Qed.

(** the observer's log once the step after [n] finished ones has been
    announced *)
Lemma progress_through_step env manifest p onProgress tok n w step rest c errs wn :
  isExecuting w = false ->
  after_steps env manifest p onProgress tok n w = Some (step :: rest, c, errs, wn) ->
  progress (reported p onProgress step c wn)
  = progress w
    ++ (if onProgress
        then notices (length (steps p)) (currentStep p)
               (firstn (S n) (skipn (currentStep p) (steps p)))
        else []).
Proof.
  intros Hlock Hadv.
  destruct (executeFromStep_after env manifest p onProgress tok n w _ _ _ _ Hlock Hadv)
    as (_ & C & (started & S1 & S2 & S3) & _).
  destruct (reported_frame p onProgress step c wn) as (_ & _ & _ & _ & g5).
  rewrite g5, S3, S1, <- S2, firstn_snoc.
  destruct onProgress; [|rewrite app_nil_r; reflexivity].
  rewrite notices_app, <- app_assoc. simpl. subst c. rewrite S2. reflexivity.
Qed.

Lemma resumeExecution_loaded env state onProgress tok w m :
  cachedManifest w = Some m ->
  resumeExecution env state onProgress tok w
  = executeFromStep env (plan state) m onProgress tok w.
Proof.
  intros Hm. unfold resumeExecution, getManifest.
  rewrite (bind_returned _ _ w (Some m) w) by (unfold gets; congruence).
  reflexivity.
Qed.

Lemma executePlan_loaded env p onProgress tok w m :
  cachedManifest w = Some m ->
  executePlan env p onProgress tok w
  = executeFromStep env (set_currentStep 0 (set_status executing p)) m onProgress tok w.
Proof.
  intros Hm. unfold executePlan, getManifest.
  rewrite (bind_returned _ _ w (Some m) w) by (unfold gets; congruence).
  reflexivity.
Qed.

(** X1.  Where a manifest is loaded and the lock is free, [executePlan]
    always returns a result, and never throws; so does [resumeExecution]
    for a state whose cursor lies within its plan.  [totalSteps] is the
    length of the plan and [completedSteps] lies between the cursor at
    the start (0 for [executePlan], which resets it) and that length.
    The run ends in one of three ways.  Completed: the slot is empty,
    the lock is free, no token is active, [success] holds exactly when
    no error was recorded, and then every step was completed; recorded
    errors are at most one per remaining step.  Navigating: [success] is
    reported, at least one step is completed, and the slot holds the
    plan with its cursor at [completedSteps] and its status [executing],
    the lock free and no token active.  Cancelled: [success] is false,
    the slot is empty, no element carries the ghost class and no token
    is active. *)
Theorem X1_run_ends_in_one_of_three_ways env onProgress tok w m :
  cachedManifest w = Some m ->
  isExecuting w = false ->
  (forall p,
      exists r p' w',
        executePlan env p onProgress tok w = (Returned (r, p'), w')
        /\ totalSteps r = length (steps p)
        /\ (completedSteps r <= length (steps p))%nat
        /\ (ended_completed (set_currentStep 0 (set_status executing p)) r p' w'
            \/ ended_navigating (set_currentStep 0 (set_status executing p)) r p' w'
            \/ exists held,
                ended_cancelled (set_currentStep 0 (set_status executing p)) r p' w' held))
  /\ (forall state,
         (currentStep (plan state) <= length (steps (plan state)))%nat ->
         exists r p' w',
           resumeExecution env state onProgress tok w = (Returned (r, p'), w')
           /\ totalSteps r = length (steps (plan state))
           /\ (currentStep (plan state) <= completedSteps r <= length (steps (plan state)))%nat
           /\ (ended_completed (plan state) r p' w'
               \/ ended_navigating (plan state) r p' w'
               \/ exists held, ended_cancelled (plan state) r p' w' held)).
Proof.
  intros Hm Hlock. split.
  - intros p. rewrite (executePlan_loaded _ _ _ _ _ _ Hm).
    destruct (executeFromStep_outcome env m (set_currentStep 0 (set_status executing p))
                onProgress tok w Hlock) as (r & p' & w' & E & h1 & h2 & h3).
    { simpl. lia. }
    exists r, p', w'. split; [exact E|]. simpl in h1, h2.
    split; [exact h1|]. split; [lia | exact h3].
  - intros state Hcur. rewrite (resumeExecution_loaded _ _ _ _ _ _ Hm).
    exact (executeFromStep_outcome env m (plan state) onProgress tok w Hlock Hcur).
Qed.

Lemma X1_run_ends_in_one_of_three_ways_witness :
  cachedManifest Scenario.home = Some Scenario.manifest1
  /\ isExecuting Scenario.home = false
  /\ exists r p' w',
      executePlan (Sample.quiet None) Scenario.enrol_plan true (Some 7%nat) Scenario.home
      = (Returned (r, p'), w')
      /\ totalSteps r = 3%nat
      /\ (completedSteps r <= 3)%nat.
Proof.
  split; [reflexivity|]. split; [reflexivity|].
  destruct (proj1 (X1_run_ends_in_one_of_three_ways (Sample.quiet None) true (Some 7%nat)
                     Scenario.home Scenario.manifest1 eq_refl eq_refl) Scenario.enrol_plan)
    as (r & p' & w' & E & h1 & h2 & _).
  exists r, p', w'. split; [exact E|]. split; [exact h1 | exact h2].
Defined.

(** ** Across a navigation *)

Lemma checkPendingExecution_found env w state :
  storage w !! EXECUTION_STATE_KEY = Some state ->
  status (plan state) = executing ->
  exists w1,
    checkPendingExecution env w = (Returned (Some state), w1)
    /\ storage w1 !! EXECUTION_STATE_KEY = None
    /\ isExecuting w1 = isExecuting w
    /\ cachedManifest w1 = cachedManifest w
    /\ activeCancellationToken w1 = activeCancellationToken w
    /\ progress w1 = progress w.
Proof.
  intros Hslot Hstatus.
  assert (Fa : keeps (loadExecutionState env)).
  { unfold loadExecutionState. keeps_auto. }
  specialize (Fa w).
  destruct (loadExecutionState_spec env w) as (wa & L & l1 & l2 & l3).
  rewrite L in Fa. destruct Fa as (_ & fa2 & _ & _ & fa5). simpl in fa2, fa5.
  destruct (clearExecutionState_spec env wa) as (w1 & C & c1 & c2 & c3 & c4 & c5 & _).
  exists w1. split.
  { unfold checkPendingExecution. rewrite (bind_returned _ _ _ _ _ L), Hslot, Hstatus.
    change (is_executing executing) with true. cbv iota.
    rewrite (bind_returned _ _ _ _ _ C). reflexivity. }
  split; [rewrite c1; apply lookup_delete_eq|].
  repeat split; congruence.
Qed.

(** X2.  The hand-off round trip.  Let a run that started with the lock
    free and the cursor within the plan return a navigating result.  In
    any execution context that sees the same durable slot, whatever its
    page and scripts, [checkPendingExecution] returns a state whose plan
    is the plan of the run with its cursor at [completedSteps] and its
    status [executing], and leaves the slot empty.  Resuming that state
    where a manifest is loaded and the lock is free returns a result
    for the same [totalSteps] whose [completedSteps] is not below the
    one already reported: no step before the cursor is run again. *)
Theorem X2_handoff_round_trip env manifest p onProgress tok w r p' w' :
  isExecuting w = false ->
  (currentStep p <= length (steps p))%nat ->
  executeFromStep env p manifest onProgress tok w = (Returned (r, p'), w') ->
  navigating r = true ->
  forall env2 wn,
    storage wn !! EXECUTION_STATE_KEY = storage w' !! EXECUTION_STATE_KEY ->
    exists state w1,
      checkPendingExecution env2 wn = (Returned (Some state), w1)
      /\ plan state = set_status executing (set_currentStep (completedSteps r) p)
      /\ storage w1 !! EXECUTION_STATE_KEY = None
      /\ forall m2 onProgress2 tok2 w2,
          cachedManifest w2 = Some m2 ->
          isExecuting w2 = false ->
          exists r2 p2 w3,
            resumeExecution env2 state onProgress2 tok2 w2 = (Returned (r2, p2), w3)
            /\ totalSteps r2 = totalSteps r
            /\ (completedSteps r <= completedSteps r2 <= totalSteps r)%nat.
Proof.
  intros Hlock Hcur E Hnav env2 wn Hslot.
  destruct (executeFromStep_outcome env manifest p onProgress tok w Hlock Hcur)
    as (r0 & p0 & w0 & E0 & Htot & Hbound & Hend).
  rewrite E in E0. injection E0 as <- <- <-.
  destruct Hend as [Hc | [Hn | [held Hc]]].
  - destruct Hc as (_ & _ & Hc & _). congruence.
  - destruct Hn as (_ & _ & _ & _ & n1 & n2 & (t & n3) & _).
    rewrite n3 in Hslot.
    destruct (checkPendingExecution_found env2 wn _ Hslot) as (w1 & C & c1 & _).
    { simpl. subst p'. reflexivity. }
    eexists _, w1. split; [exact C|]. split; [exact n2|]. split; [exact c1|].
    intros m2 onProgress2 tok2 w2 Hm Hfree.
    rewrite (resumeExecution_loaded _ _ _ _ _ _ Hm). simpl plan.
    destruct (executeFromStep_outcome env2 m2 p' onProgress2 tok2 w2 Hfree)
      as (r2 & p2 & w3 & E2 & Htot2 & Hbound2 & _).
    { subst p'. simpl. lia. }
    exists r2, p2, w3. split; [exact E2|]. subst p'. simpl in *. split; [congruence|].
    rewrite Htot. lia.
  - destruct Hc as (_ & _ & _ & Hc & _). congruence.
Qed.

Lemma X2_handoff_round_trip_witness :
  isExecuting Scenario.home = false
  /\ (currentStep Scenario.enrol_plan <= length (steps Scenario.enrol_plan))%nat
  /\ exists r p' w',
      executeFromStep (Sample.quiet None) Scenario.enrol_plan Scenario.manifest1 true
        (Some 7%nat) Scenario.home
      = (Returned (r, p'), w')
      /\ navigating r = true
      /\ completedSteps r = 2%nat
      /\ exists state w1,
          checkPendingExecution (Sample.quiet None)
            (Scenario.context (storage w') "/students")
          = (Returned (Some state), w1)
          /\ currentStep (plan state) = 2%nat
          /\ storage w1 !! EXECUTION_STATE_KEY = None.
Proof.
  split; [reflexivity|]. split; [simpl; lia|].
  destruct (executeFromStep (Sample.quiet None) Scenario.enrol_plan Scenario.manifest1 true
              (Some 7%nat) Scenario.home) as [[[r p']|e] w'] eqn:E;
    [|vm_compute in E; discriminate E].
  assert (Hr : navigating r = true /\ completedSteps r = 2%nat).
  { vm_compute in E. injection E as <- _ _. split; reflexivity. }
  destruct Hr as [Hnav Hdone].
  exists r, p', w'. split; [reflexivity|]. split; [exact Hnav|]. split; [exact Hdone|].
  destruct (X2_handoff_round_trip (Sample.quiet None) Scenario.manifest1 Scenario.enrol_plan
              true (Some 7%nat) Scenario.home r p' w' eq_refl ltac:(simpl; lia) E Hnav
              (Sample.quiet None) (Scenario.context (storage w') "/students") eq_refl)
    as (state & w1 & C & P & S & _).
  exists state, w1. split; [exact C|]. split; [|exact S].
  rewrite P, Hdone. reflexivity.
Defined.

(** ** Failures inside a run *)

Section Failures.

Variable env : Environment.
Variable manifest : GlideManifest.
Variable p : ExecutionPlan.
Variable onProgress : bool.
Variable tok : option CancellationToken.

(** the run goes through the loop body of the step at the cursor *)
Lemma run_at_step n w step rest c errs wn exit w2 :
  isExecuting w = false ->
  after_steps env manifest p onProgress tok n w = Some (step :: rest, c, errs, wn) ->
  loop_body env manifest p onProgress tok step c errs wn = (Returned (Leave exit), w2) ->
  executeFromStep env p manifest onProgress tok w = conclude env p exit w2.
Proof.
  intros Hlock Hadv B.
  destruct (executeFromStep_after env manifest p onProgress tok n w _ _ _ _ Hlock Hadv)
    as (E & _).
  rewrite E. simpl run_loop. unfold bind at 1.
  rewrite (bind_returned _ _ _ _ _ B). reflexivity.
Qed.

(** a run that leaves the loop at the cursor with a recorded error *)
Lemma run_stopped_at n w step rest c errs wn msg w2 :
  isExecuting w = false ->
  after_steps env manifest p onProgress tok n w = Some (step :: rest, c, errs, wn) ->
  loop_body env manifest p onProgress tok step c errs wn
  = (Returned (Leave (LoopDone c (errs ++ [msg]))), w2) ->
  progress w2 = progress (reported p onProgress step c wn) ->
  exists r w',
    executeFromStep env p manifest onProgress tok w = (Returned (r, p), w')
    /\ success r = false /\ cancelled r = false /\ navigating r = false
    /\ completedSteps r = (currentStep p + n)%nat
    /\ totalSteps r = length (steps p)
    /\ errors r = Some (errs ++ [msg])
    /\ progress w'
       = progress w
         ++ (if onProgress
             then notices (length (steps p)) (currentStep p)
                    (firstn (S n) (skipn (currentStep p) (steps p)))
             else [])
    /\ storage w' !! EXECUTION_STATE_KEY = None
    /\ isExecuting w' = false
    /\ activeCancellationToken w' = None.
Proof.
  intros Hlock Hadv B Hprog.
  rewrite (run_at_step _ _ _ _ _ _ _ _ _ Hlock Hadv B).
  destruct (executeFromStep_after env manifest p onProgress tok n w _ _ _ _ Hlock Hadv)
    as (_ & C & _).
  destruct (conclude_done env p c (errs ++ [msg]) w2) as (w' & D & d1 & d2 & d3 & d4).
  rewrite D. eexists _, w'. split; [reflexivity|].
  destruct (final_result_facts c (length (steps p)) (errs ++ [msg]))
    as (f1 & f2 & f3 & f4 & f5 & f6 & f7).
  split.
  { destruct (success (final_result c (length (steps p)) (errs ++ [msg]))) eqn:S;
      [|reflexivity].
    destruct (proj1 f7 eq_refl) as [_ S']. destruct (snoc_not_nil _ _ S'). }
  split; [exact f1|]. split; [exact f2|]. split; [rewrite f3; exact C|].
  split; [exact f4|]. split.
  { destruct (errors (final_result c (length (steps p)) (errs ++ [msg]))) as [l|] eqn:El.
    - rewrite (f6 l eq_refl). reflexivity.
    - destruct (snoc_not_nil _ _ (proj1 f5 eq_refl)). }
  split; [|repeat split; assumption].
  rewrite d4, Hprog. exact (progress_through_step _ _ _ _ _ _ _ _ _ _ _ _ Hlock Hadv).
Qed.

End Failures.

(** X3.  A navigation hand-off drops the errors recorded so far.  Let a
    run have finished [n] steps, with any list [errs] of errors recorded
    for them, and let the executor of the next step ask for a
    navigation.  The result reports [success] with no [errors], and the
    state written to the slot is the plan, its cursor and two time
    stamps: nothing of [errs] is returned or persisted. *)
Theorem X3_handoff_drops_recorded_errors
    env manifest p onProgress tok w n step rest c errs wn result w2 :
  isExecuting w = false ->
  after_steps env manifest p onProgress tok n w = Some (step :: rest, c, errs, wn) ->
  fst (throwIfCancelled_opt tok wn) = Returned tt ->
  executeStep env step manifest p tok (reported p onProgress step c wn)
  = (Returned result, w2) ->
  needsNavigation result = true ->
  exists r w',
    executeFromStep env p manifest onProgress tok w
    = (Returned (r, set_status executing (set_currentStep (c + 1) p)), w')
    /\ success r = true /\ navigating r = true /\ errors r = None
    /\ completedSteps r = (currentStep p + n + 1)%nat
    /\ storage w' !! EXECUTION_STATE_KEY
       = Some {| plan := set_status executing (set_currentStep (c + 1) p);
                 startedAt := now w2; lastUpdated := now w2 |}
    /\ isExecuting w' = false
    /\ activeCancellationToken w' = None.
Proof.
  intros Hlock Hadv Hok X N.
  destruct (executeFromStep_after env manifest p onProgress tok n w _ _ _ _ Hlock Hadv)
    as (_ & C & _).
  destruct (try_step_handoff env manifest p tok step c _ _ _ X N)
    as (w3 & T & t1 & t2 & t3 & t4 & t5).
  pose proof (loop_body_after_check env manifest p onProgress tok step c errs wn Hok) as B.
  rewrite X, N, T in B.
  rewrite (run_at_step env manifest p onProgress tok _ _ _ _ _ _ _ _ _ Hlock Hadv B).
  simpl conclude. eexists _, w3. split; [reflexivity|]. simpl.
  repeat split; try assumption. lia.
Qed.

Lemma X3_handoff_drops_recorded_errors_witness :
  isExecuting Scenario.home = false
  /\ (exists wn,
        after_steps (Sample.quiet None) Scenario.manifest1 Scenario.enrol_plan true
          (Some 7%nat) 1 Scenario.home
        = Some ([ Sample.step navigate (Some "students") None;
                  Sample.step fill (Some "label:Full Name") (Some "name") ],
                1%nat, ["Unknown step type: hover"], wn))
  /\ exists r w',
      executeFromStep (Sample.quiet None) Scenario.enrol_plan Scenario.manifest1 true
        (Some 7%nat) Scenario.home
      = (Returned (r, set_status executing (set_currentStep 2 Scenario.enrol_plan)), w')
      /\ success r = true /\ errors r = None.
Proof.
  split; [reflexivity|].
  destruct (after_steps (Sample.quiet None) Scenario.manifest1 Scenario.enrol_plan true
              (Some 7%nat) 1 Scenario.home) as [[[[rest c] errs] wn]|] eqn:A;
    [|vm_compute in A; discriminate A].
  assert (Hshape : rest = [ Sample.step navigate (Some "students") None;
                            Sample.step fill (Some "label:Full Name") (Some "name") ]
                   /\ c = 1%nat /\ errs = ["Unknown step type: hover"]).
  { vm_compute in A. injection A as <- <- <- _. repeat split; reflexivity. }
  destruct Hshape as (-> & -> & ->).
  split; [exists wn; reflexivity|].
  destruct (executeStep (Sample.quiet None) (Sample.step navigate (Some "students") None)
              Scenario.manifest1 Scenario.enrol_plan (Some 7%nat)
              (reported Scenario.enrol_plan true
                 (Sample.step navigate (Some "students") None) 1 wn))
    as [[result|e] w2] eqn:X.
  - assert (N : needsNavigation result = true).
    { vm_compute in A. injection A as <-. vm_compute in X. injection X as <- _.
      reflexivity. }
    destruct (X3_handoff_drops_recorded_errors (Sample.quiet None) Scenario.manifest1
                Scenario.enrol_plan true (Some 7%nat) Scenario.home 1 _ _ _ _ wn result w2
                eq_refl A) as (r & w' & E & h1 & _ & h3 & _).
    + vm_compute in A. injection A as <-. reflexivity.
    + exact X.
    + exact N.
    + exists r, w'. split; [exact E|]. split; [exact h1 | exact h3].
  - exfalso. vm_compute in A. injection A as <-. vm_compute in X. discriminate X.
Defined.

(** X4.  A fatal failure stops the run.  Let a run have finished [n]
    steps and let the executor of the next step return a failure marked
    fatal.  The run returns without success, [completedSteps] is the
    number of steps finished before the failing one, [errors] is the
    list recorded so far followed by the message of the failure, the
    observer has been told of the steps up to the failing one and of no
    later step, the slot is empty and the lock is free. *)
Theorem X4_fatal_failure_stops_the_run
    env manifest p onProgress tok w n step rest c errs wn result w2 :
  isExecuting w = false ->
  after_steps env manifest p onProgress tok n w = Some (step :: rest, c, errs, wn) ->
  fst (throwIfCancelled_opt tok wn) = Returned tt ->
  executeStep env step manifest p tok (reported p onProgress step c wn)
  = (Returned result, w2) ->
  needsNavigation result = false ->
  sr_success result = false ->
  fatal result = true ->
  exists r w',
    executeFromStep env p manifest onProgress tok w = (Returned (r, p), w')
    /\ success r = false /\ cancelled r = false /\ navigating r = false
    /\ completedSteps r = (currentStep p + n)%nat
    /\ totalSteps r = length (steps p)
    /\ errors r
       = Some (errs ++ [Js.or_else (sr_error result)
                          ("Step " ++ Js.show_nat (c + 1) ++ " failed")])
    /\ progress w'
       = progress w
         ++ (if onProgress
             then notices (length (steps p)) (currentStep p)
                    (firstn (S n) (skipn (currentStep p) (steps p)))
             else [])
    /\ storage w' !! EXECUTION_STATE_KEY = None
    /\ isExecuting w' = false
    /\ activeCancellationToken w' = None.
Proof.
  intros Hlock Hadv Hok X N S F.
  pose proof (loop_body_after_check env manifest p onProgress tok step c errs wn Hok) as B.
  rewrite X, N, S, F in B.
  apply (run_stopped_at env manifest p onProgress tok n w step rest c errs wn _ w2 Hlock Hadv B).
  pose proof (keeps_executeStep env step manifest p tok (reported p onProgress step c wn)) as K.
  rewrite X in K. destruct K as (_ & _ & _ & _ & K). exact K.
Qed.

Lemma X4_fatal_failure_stops_the_run_witness :
  isExecuting Scenario.home = false
  /\ exists r w',
      executeFromStep (Sample.quiet None) Scenario.valueless_plan Scenario.manifest1 true
        None Scenario.home
      = (Returned (r, Scenario.valueless_plan), w')
      /\ success r = false
      /\ completedSteps r = 0%nat
      /\ totalSteps r = 2%nat
      /\ errors r = Some [("No value provided for field " ++ dquote ++ dquote)%string]
      /\ progress w' = [(1%nat, 2%nat, "Filling field...")].
Proof.
  split; [reflexivity|].
  destruct (X4_fatal_failure_stops_the_run (Sample.quiet None) Scenario.manifest1
              Scenario.valueless_plan true None Scenario.home 0
              (Sample.step fill (Some "#f1") None) [Sample.step notify None None] 0 []
              (snd (take_lock None Scenario.home))
              (fatal_result ("No value provided for field " ++ dquote ++ dquote)%string)
              (reported Scenario.valueless_plan true (Sample.step fill (Some "#f1") None) 0
                 (snd (take_lock None Scenario.home))))
    as (r & w' & E & h1 & _ & _ & h4 & h5 & h6 & h7 & _);
    try reflexivity.
  exists r, w'. split; [exact E|]. split; [exact h1|]. split; [exact h4|].
  split; [exact h5|]. split; [exact h6 | exact h7].
Defined.

(** X5.  An exception other than a cancellation that a step executor
    throws, such as the one [querySelector] raises for a selector it
    cannot parse, does not leave [executeFromStep]: its message is
    recorded as an error, the loop is left as by a fatal failure, and
    the run returns without success with the slot empty and the lock
    free; no later step is announced. *)
Theorem X5_thrown_error_is_recorded
    env manifest p onProgress tok w n step rest c errs wn e w2 :
  isExecuting w = false ->
  after_steps env manifest p onProgress tok n w = Some (step :: rest, c, errs, wn) ->
  fst (throwIfCancelled_opt tok wn) = Returned tt ->
  executeStep env step manifest p tok (reported p onProgress step c wn) = (Thrown e, w2) ->
  is_cancellation e = false ->
  exists r w',
    executeFromStep env p manifest onProgress tok w = (Returned (r, p), w')
    /\ success r = false /\ cancelled r = false /\ navigating r = false
    /\ completedSteps r = (currentStep p + n)%nat
    /\ totalSteps r = length (steps p)
    /\ errors r = Some (errs ++ [exn_message e])
    /\ progress w'
       = progress w
         ++ (if onProgress
             then notices (length (steps p)) (currentStep p)
                    (firstn (S n) (skipn (currentStep p) (steps p)))
             else [])
    /\ storage w' !! EXECUTION_STATE_KEY = None
    /\ isExecuting w' = false
    /\ activeCancellationToken w' = None.
Proof.
  intros Hlock Hadv Hok X Ce.
  pose proof (loop_body_after_check env manifest p onProgress tok step c errs wn Hok) as B.
  rewrite X, Ce in B.
  apply (run_stopped_at env manifest p onProgress tok n w step rest c errs wn _ w2 Hlock Hadv B).
  pose proof (keeps_executeStep env step manifest p tok (reported p onProgress step c wn)) as K.
  rewrite X in K. destruct K as (_ & _ & _ & _ & K). exact K.
Qed.

Lemma X5_thrown_error_is_recorded_witness :
  isExecuting Scenario.home = false
  /\ exists r w',
      executeFromStep (Sample.quiet None) Scenario.reports_plan Scenario.manifest1 true
        None Scenario.home
      = (Returned (r, Scenario.reports_plan), w')
      /\ success r = false
      /\ completedSteps r = 0%nat
      /\ errors r
         = Some ["Failed to execute 'querySelector' on 'Document': '' is not a valid selector."]
      /\ isExecuting w' = false.
Proof.
  split; [reflexivity|].
  destruct (X5_thrown_error_is_recorded (Sample.quiet None) Scenario.manifest1
              Scenario.reports_plan true None Scenario.home 0
              (Sample.step navigate (Some "reports") None) [Sample.step notify None None] 0 []
              (snd (take_lock None Scenario.home))
              (JsError "Failed to execute 'querySelector' on 'Document': '' is not a valid selector.")
              (reported Scenario.reports_plan true
                 (Sample.step navigate (Some "reports") None) 0
                 (snd (take_lock None Scenario.home))))
    as (r & w' & E & h1 & _ & _ & h4 & _ & h6 & _ & _ & h9 & _);
    try reflexivity.
  exists r, w'. split; [exact E|]. split; [exact h1|]. split; [exact h4|].
  split; [exact h6 | exact h9].
Defined.

(** X6.  A failure that is not fatal lets the run go on, but the run
    cannot end in plain success any more.  Once errors are recorded, the
    run ends navigating or cancelled, in both cases without reporting
    those errors, or it ends without success and reports the errors
    recorded so far, in order, followed by the later ones. *)
Theorem X6_recorded_failure_rules_out_plain_success
    env manifest p onProgress tok w n rest c errs wn :
  isExecuting w = false ->
  after_steps env manifest p onProgress tok n w = Some (rest, c, errs, wn) ->
  errs <> [] ->
  exists r p' w',
    executeFromStep env p manifest onProgress tok w = (Returned (r, p'), w')
    /\ ((navigating r = true /\ errors r = None)
        \/ (cancelled r = true /\ errors r = None)
        \/ (success r = false /\ navigating r = false /\ cancelled r = false
            /\ exists more, errors r = Some (errs ++ more))).
Proof.
  intros Hlock Hadv Herrs.
  destruct (executeFromStep_after env manifest p onProgress tok n w _ _ _ _ Hlock Hadv)
    as (E & _ & _ & Hheld & _).
  rewrite E.
  destruct (run_loop_exits env manifest p onProgress tok rest c errs wn Hheld)
    as (exit & w2 & R & Hex).
  rewrite (bind_returned _ _ _ _ _ R).
  destruct exit as [c' errs' | r p' | c' e].
  - destruct Hex as (more & -> & _).
    destruct (conclude_done env p c' (errs ++ more) w2) as (w' & D & _).
    rewrite D. eexists _, _, w'. split; [reflexivity|]. right. right.
    destruct (final_result_facts c' (length (steps p)) (errs ++ more))
      as (f1 & f2 & _ & _ & f5 & f6 & f7).
    assert (Hne : errs ++ more <> []).
    { intros H. apply app_eq_nil in H. tauto. }
    split.
    { destruct (success (final_result c' (length (steps p)) (errs ++ more))); [|reflexivity].
      destruct (proj1 f7 eq_refl) as [_ S']. contradiction. }
    split; [exact f2|]. split; [exact f1|]. exists more.
    destruct (errors (final_result c' (length (steps p)) (errs ++ more))) as [l|].
    + rewrite (f6 l eq_refl). reflexivity.
    + destruct (Hne (proj1 f5 eq_refl)).
  - simpl conclude. destruct Hex as (c' & _ & [[-> _] | [-> _]]).
    + eexists _, _, w2. split; [reflexivity|]. left. split; reflexivity.
    + eexists _, _, w2. split; [reflexivity|]. right. left. split; reflexivity.
  - destruct Hex as (_ & h2). destruct e as [msg | msg]; [|discriminate].
    destruct (conclude_escape_cancel env p c' msg w2) as (w' & C & _).
    rewrite C. eexists _, _, w'. split; [reflexivity|]. right. left. split; reflexivity.
Qed.

Lemma X6_recorded_failure_rules_out_plain_success_witness :
  isExecuting Scenario.home = false
  /\ (["Unknown step type: hover"] : list string) <> []
  /\ exists r p' w',
      executeFromStep (Sample.quiet None) Scenario.enrol_plan Scenario.manifest1 true
        (Some 7%nat) Scenario.home
      = (Returned (r, p'), w')
      /\ ((navigating r = true /\ errors r = None)
          \/ (cancelled r = true /\ errors r = None)
          \/ (success r = false /\ navigating r = false /\ cancelled r = false
              /\ exists more, errors r = Some (["Unknown step type: hover"] ++ more))).
Proof.
  split; [reflexivity|]. split; [discriminate|].
  destruct (after_steps (Sample.quiet None) Scenario.manifest1 Scenario.enrol_plan true
              (Some 7%nat) 1 Scenario.home) as [[[[rest c] errs] wn]|] eqn:A;
    [|vm_compute in A; discriminate A].
  assert (Herrs : errs = ["Unknown step type: hover"]).
  { vm_compute in A. injection A as _ _ <- _. reflexivity. }
  subst errs.
  apply (X6_recorded_failure_rules_out_plain_success (Sample.quiet None) Scenario.manifest1
           Scenario.enrol_plan true (Some 7%nat) Scenario.home 1 rest c _ wn eq_refl A).
  discriminate.
Defined.

(** X7.  A cancellation noticed between two steps.  Let a run have
    finished [n] steps and let the check at the head of the loop find
    the token cancelled.  The run returns the cancelled result for the
    [n] finished steps, whatever errors were recorded, the next step is
    never announced to the observer, the slot is empty, no element
    carries the ghost class and, unlike after a cancellation inside a
    step, the lock is free again. *)
Theorem X7_cancellation_between_steps_frees_the_lock
    env manifest p onProgress tok w n step rest c errs wn :
  isExecuting w = false ->
  after_steps env manifest p onProgress tok n w = Some (step :: rest, c, errs, wn) ->
  raised_before_step tok wn ->
  exists w',
    executeFromStep env p manifest onProgress tok w
    = (Returned (cancelled_result (currentStep p + n) (length (steps p)), p), w')
    /\ progress w'
       = progress w
         ++ (if onProgress
             then notices (length (steps p)) (currentStep p)
                    (firstn n (skipn (currentStep p) (steps p)))
             else [])
    /\ storage w' !! EXECUTION_STATE_KEY = None
    /\ no_ghost (root (page w'))
    /\ isExecuting w' = false
    /\ activeCancellationToken w' = None.
Proof.
  intros Hlock Hadv Hb.
  destruct (executeFromStep_after env manifest p onProgress tok n w _ _ _ _ Hlock Hadv)
    as (_ & C & (started & S1 & S2 & S3) & _).
  destruct (loop_body_raised_before env manifest p onProgress tok step c errs wn Hb)
    as (msg & B).
  rewrite (run_at_step env manifest p onProgress tok _ _ _ _ _ _ _ _ _ Hlock Hadv B).
  destruct (conclude_escape_cancel env p c msg wn) as (w' & E & e1 & e2 & e3 & e4 & e5).
  exists w'. split; [rewrite E, C; reflexivity|].
  split; [|repeat split; assumption].
  rewrite e5, S3, S1, <- S2, firstn_app, firstn_all, Nat.sub_diag. simpl firstn.
  rewrite app_nil_r. reflexivity.
Qed.

Lemma X7_cancellation_between_steps_frees_the_lock_witness :
  isExecuting Scenario.home = false
  /\ exists w',
      executeFromStep (Sample.quiet (Some 8%nat)) Scenario.fill_then_notify
        Scenario.manifest1 true (Some 7%nat) Scenario.home
      = (Returned (cancelled_result 1 2, Scenario.fill_then_notify), w')
      /\ progress w' = [(1%nat, 2%nat, "Filling name...")]
      /\ isExecuting w' = false.
Proof.
  split; [reflexivity|].
  destruct (after_steps (Sample.quiet (Some 8%nat)) Scenario.manifest1
              Scenario.fill_then_notify true (Some 7%nat) 1 Scenario.home)
    as [[[[rest c] errs] wn]|] eqn:A; [|vm_compute in A; discriminate A].
  assert (Hrest : rest = [Sample.step notify None None]).
  { vm_compute in A. injection A as <- _ _ _. reflexivity. }
  subst rest.
  destruct (X7_cancellation_between_steps_frees_the_lock (Sample.quiet (Some 8%nat))
              Scenario.manifest1 Scenario.fill_then_notify true (Some 7%nat) Scenario.home
              1 _ _ c errs wn eq_refl A) as (w' & E & h1 & _ & _ & h4 & _).
  - vm_compute in A. injection A as _ _ <-. eexists. vm_compute. reflexivity.
  - exists w'. split; [exact E|]. split; [exact h1 | exact h4].
Defined.

(** ** The results of step executors *)

Lemma wf_ok ty : well_formed_result ty ok_result.
Proof.
  repeat split; simpl; intros; try discriminate.
Qed.

Lemma wf_nav : well_formed_result navigate nav_result.
Proof.
  repeat split; simpl; intros; try discriminate.
Qed.

Lemma or_else_some c msg d : Js.or_else (Some (String c msg)) d = String c msg.
Proof. reflexivity. Qed.

Lemma wf_fail ty c msg : well_formed_result ty (fail_result (String c msg)).
Proof.
  repeat split; simpl; intros; try discriminate.
  exists (String c msg). split; [reflexivity | intros d; reflexivity].
Qed.

Lemma wf_fatal ty c msg :
  ty = fill \/ ty = select \/ ty = submit \/ ty = find_row ->
  well_formed_result ty (fatal_result (String c msg)).
Proof.
  intros Hty. repeat split; simpl; intros; try discriminate; try exact Hty.
  exists (String c msg). split; [reflexivity | intros d; reflexivity].
Qed.

Ltac wf_leaf :=
  first [ apply wf_ok
        | apply wf_nav
        | apply wf_fail
        | apply wf_fatal; tauto ].

Ltac wf_walk := repeat ro_step; simpl; wf_leaf.

Lemma wf_executeNavigate env step manifest tok :
  returns_only (well_formed_result navigate) (executeNavigate env step manifest tok).
Proof. unfold executeNavigate. wf_walk. Qed.

Lemma wf_executeClick env step tok :
  returns_only (well_formed_result click) (executeClick env step tok).
Proof. unfold executeClick, await_appearance. wf_walk. Qed.

Lemma wf_executeFill env step ents tok :
  returns_only (well_formed_result fill) (executeFill env step ents tok).
Proof. unfold executeFill. wf_walk. Qed.

Lemma wf_executeSelect env step ents tok :
  returns_only (well_formed_result select) (executeSelect env step ents tok).
Proof. unfold executeSelect, choose_option, no_match_message. wf_walk. Qed.

Lemma wf_executeCheck env step tok :
  returns_only (well_formed_result check) (executeCheck env step tok).
Proof. unfold executeCheck. wf_walk. Qed.

Lemma wf_executeSubmit env step tok :
  returns_only (well_formed_result submit) (executeSubmit env step tok).
Proof. unfold executeSubmit, awaitSubmitOutcome. wf_walk. Qed.

Lemma wf_executeFindRow env step ents tok :
  returns_only (well_formed_result find_row) (executeFindRow env step ents tok).
Proof. unfold executeFindRow, await_appearance. wf_walk. Qed.

(** X8.  What a step executor returns has a fixed shape.  Whatever the
    step, the page and the token, a result that [executeStep] returns
    asks for a navigation hand-off only when the step is a navigation
    step; a success carries no error message and is not fatal; a failure
    always carries a message of its own, so the engine's fall-back text
    for a failure without a message is never recorded; and a failure is
    fatal only for fill, select, submit and find-row steps: a failed
    click, check, navigation or wait, and a step of an unknown kind,
    never stop a run. *)
Theorem X8_executor_results_are_well_formed env step manifest p tok w r w' :
  executeStep env step manifest p tok w = (Returned r, w') ->
  well_formed_result (type step) r
  /\ (sr_success r = false ->
      forall n, exists msg,
        sr_error r = Some msg
        /\ Js.or_else (sr_error r) ("Step " ++ Js.show_nat n ++ " failed") = msg)
  /\ (type step <> navigate -> needsNavigation r = false)
  /\ (type step <> fill -> type step <> select -> type step <> submit ->
      type step <> find_row -> fatal r = false).
Proof.
  intros E.
  assert (W : well_formed_result (type step) r).
  { revert w r w' E. change (returns_only (well_formed_result (type step))
                               (executeStep env step manifest p tok)).
    unfold executeStep. apply ro_bind; intros _.
    destruct (type step).
    - apply wf_executeNavigate.
    - apply wf_executeClick.
    - wf_walk.
    - apply wf_executeFill.
    - apply wf_executeSelect.
    - apply wf_executeCheck.
    - apply wf_executeSubmit.
    - wf_walk.
    - apply wf_executeFindRow.
    - wf_walk. }
  split; [exact W|]. destruct W as (W1 & W2 & W3 & W4).
  split; [|split].
  - intros Hf n. destruct (W3 Hf) as (msg & M1 & M2). exists msg. split; [exact M1 | apply M2].
  - intros Hty. destruct (needsNavigation r); [|reflexivity].
    destruct (W1 eq_refl) as [Hn _]. contradiction.
  - intros H1 H2 H3 H4. destruct (fatal r); [|reflexivity].
    destruct (W4 eq_refl) as [H | [H | [H | H]]]; contradiction.
Qed.

Lemma X8_executor_results_are_well_formed_witness :
  exists r w',
    executeStep (Sample.quiet None) (Sample.step (other_type "hover") (Some "#f1") None)
      Sample.manifest0 Sample.jane_plan None (Sample.world Sample.name_form)
    = (Returned r, w')
    /\ sr_error r = Some "Unknown step type: hover"
    /\ needsNavigation r = false
    /\ fatal r = false.
Proof.
  eexists _, _. split; [reflexivity|].
  destruct (X8_executor_results_are_well_formed (Sample.quiet None)
              (Sample.step (other_type "hover") (Some "#f1") None)
              Sample.manifest0 Sample.jane_plan None (Sample.world Sample.name_form)
              _ _ eq_refl) as (_ & _ & h3 & h4).
  split; [reflexivity|]. split.
  - apply h3. discriminate.
  - apply h4; discriminate.
Defined.

(** ** Highlights are never left behind *)

Lemma marked_nil_no_ghost r : marked_within [] r <-> no_ghost r.
Proof.
  unfold marked_within, no_ghost. rewrite List.Forall_forall. split.
  - intros H e He. destruct (Dom.has_class GHOST_CLASS e) eqn:G; [|reflexivity].
    destruct (H e He G).
  - intros H e He G. rewrite (H e He) in G. discriminate.
Qed.

Lemma triple_ret {A} (P : Node -> Prop) (a : A) : triple P (ret a) (fun _ => P).
Proof. intros w H. exact H. Qed.

Lemma triple_bind {A B} P (m : M A) Q (k : A -> M B) R :
  triple P m Q -> (forall a, triple (Q a) (k a) R) -> triple P (bind m k) R.
Proof.
  intros Hm Hk w H. unfold bind. specialize (Hm w H).
  destruct (m w) as [[a | e] w1]; [|exact Hm].
  exact (Hk a w1 Hm).
Qed.

Lemma triple_post {A} P (m : M A) (Q Q' : A -> Node -> Prop) :
  triple P m Q -> (forall a r, Q a r -> Q' a r) -> triple P m Q'.
Proof.
  intros Hm HQ w H. specialize (Hm w H).
  destruct (m w) as [[a | e] w1]; [apply HQ|]; exact Hm.
Qed.

Lemma triple_attempt {A} P (m : M A) Q :
  triple P m Q ->
  triple P (attempt m)
    (fun x r => match x with
                | inl a => Q a r
                | inr e => is_cancellation e = true \/ marked_within [] r
                end).
Proof.
  intros Hm w H. unfold attempt. specialize (Hm w H).
  destruct (m w) as [[a | e] w1]; exact Hm.
Qed.

(** a computation that leaves the document alone and throws nothing but
    cancellations *)
Lemma triple_same_page {A} (P : Node -> Prop) (m : M A) :
  (forall w, page (snd (m w)) = page w) ->
  (forall w e, fst (m w) = Thrown e -> is_cancellation e = true) ->
  triple P m (fun _ => P).
Proof.
  intros Hp He w H. specialize (Hp w). specialize (He w).
  destruct (m w) as [[a | e] w1]; simpl in *.
  - rewrite Hp. exact H.
  - left. apply He. reflexivity.
Qed.

Lemma tidy_ret {A} held (a : A) : tidy held (ret a) held.
Proof. apply triple_ret. Qed.

Lemma tidy_bind {A B} held held1 held2 (m : M A) (k : A -> M B) :
  tidy held m held1 -> (forall a, tidy held1 (k a) held2) -> tidy held (bind m k) held2.
Proof. intros Hm Hk. exact (triple_bind _ _ _ _ _ Hm Hk). Qed.

Lemma tidy_gets {A} held (f : World -> A) : tidy held (gets f) held.
Proof. intros w H. exact H. Qed.

Lemma tidy_read {A} held h (f : Element -> A) d : tidy held (read h f d) held.
Proof. intros w H. exact H. Qed.

Lemma tidy_scrollIntoView held h : tidy held (scrollIntoView h) held.
Proof. apply tidy_ret. Qed.

Lemma tidy_throwIfCancelled_opt held tok : tidy held (throwIfCancelled_opt tok) held.
Proof.
  intros w H. destruct (throwIfCancelled_opt_cases tok w) as [E | E]; rewrite E.
  - exact H.
  - left. reflexivity.
Qed.

Lemma touch_keeps_highlight h f e :
  keeps_highlight f ->
  nid (touch h f e) = nid e
  /\ Dom.has_class GHOST_CLASS (touch h f e) = Dom.has_class GHOST_CLASS e.
Proof.
  intros Hf. unfold touch. destruct (Nat.eqb (nid e) h); [apply Hf | split; reflexivity].
Qed.

Lemma tidy_write held h f : keeps_highlight f -> tidy held (write h f) held.
Proof.
  intros Hf w H e He G. simpl in He.
  rewrite all_elements_update in He. apply in_map_iff in He.
  destruct He as (e0 & <- & He0).
  destruct (touch_keeps_highlight h f e0 Hf) as [Hn Hc].
  rewrite Hn. rewrite Hc in G. exact (H e0 He0 G).
Qed.

Lemma keeps_highlight_value v : keeps_highlight (Dom.with_value v).
Proof. intros e. split; reflexivity. Qed.

Lemma keeps_highlight_checked b : keeps_highlight (Dom.with_checked b).
Proof. intros e. split; reflexivity. Qed.

Lemma tidy_setInputValue held h v : tidy held (setInputValue h v) held.
Proof. apply tidy_write, keeps_highlight_value. Qed.

Lemma classList_add_nid g e : nid (Dom.classList_add g e) = nid e.
Proof. unfold Dom.classList_add. destruct (Dom.has_class g e); reflexivity. Qed.

Lemma tidy_mark held h : tidy held (mark h) (h :: held).
Proof.
  intros w H e He G. simpl in He.
  rewrite all_elements_update in He. apply in_map_iff in He.
  destruct He as (e0 & <- & He0). unfold touch in *.
  destruct (Nat.eqb (nid e0) h) eqn:N.
  - left. rewrite classList_add_nid. apply Nat.eqb_eq in N. congruence.
  - right. exact (H e0 He0 G).
Qed.

Lemma tidy_unmark held h : tidy (h :: held) (unmark h) held.
Proof.
  intros w H e He G. simpl in He.
  rewrite all_elements_update in He. apply in_map_iff in He.
  destruct He as (e0 & <- & He0). unfold touch in *.
  destruct (Nat.eqb (nid e0) h) eqn:N.
  - rewrite classList_remove_clean in G. discriminate.
  - destruct (H e0 He0 G) as [Hh | Hin]; [|exact Hin].
    apply Nat.eqb_neq in N. congruence.
Qed.

Section TidyPrimitives.

Variable env : Environment.
Hypothesis Henv : leaves_markers env.

Lemma tidy_suspend held ms : tidy held (suspend env ms) held.
Proof.
  intros w H. pose proof (suspend_page env ms w) as Hp.
  pose proof (suspend_returns env ms w) as Hr.
  destruct (suspend env ms w) as [[[] | e] w1]; simpl in *; [|discriminate].
  rewrite Hp. apply Henv. exact H.
Qed.

Lemma tidy_wait held ms : tidy held (wait env ms) held.
Proof. apply tidy_suspend. Qed.

Lemma tidy_dispatch held ev h : tidy held (dispatch env ev h) held.
Proof. intros w H. simpl. apply Henv. exact H. Qed.

Lemma tidy_querySelector sel : tidy [] (querySelector env sel) [].
Proof.
  intros w H. unfold querySelector. destruct (css_valid env sel); [exact H | right; exact H].
Qed.

Lemma tidy_findElement sel : tidy [] (findElement env sel) [].
Proof.
  unfold findElement. destruct (Js.startsWith sel "label:").
  - apply tidy_gets.
  - apply tidy_querySelector.
Qed.

Lemma tidy_probe sel : tidy [] (probe env sel) [].
Proof.
  unfold probe. destruct sel as [s|]; [|apply tidy_ret].
  destruct (Js.truthy s); [apply tidy_querySelector | apply tidy_ret].
Qed.

End TidyPrimitives.

Create HintDb tidy.
#[export] Hint Resolve tidy_ret tidy_gets tidy_read tidy_scrollIntoView
  tidy_throwIfCancelled_opt tidy_setInputValue tidy_mark tidy_unmark
  tidy_suspend tidy_wait tidy_dispatch tidy_querySelector tidy_findElement tidy_probe
  keeps_highlight_value keeps_highlight_checked tidy_write : tidy.

Ltac tidy_step :=
  cbv zeta;
  match goal with
  | |- tidy _ (bind _ _) _ => eapply tidy_bind; [|intros]
  | |- tidy _ (if ?b then _ else _) _ => destruct b
  | |- tidy _ (match ?x with _ => _ end) _ => destruct x
  | |- tidy _ _ _ => solve [eauto with tidy]
  end.

Ltac tidy_auto := repeat tidy_step.

Section TidyExecutors.

Variable env : Environment.
Hypothesis Henv : leaves_markers env.

Lemma tidy_waitForElement_loop fuel sel startTime timeout :
  tidy [] (waitForElement_loop env fuel sel startTime timeout) [].
Proof.
  induction fuel as [|fuel IH]; simpl; [apply tidy_ret|].
  tidy_auto; try exact IH.
Qed.

Lemma tidy_waitForElement sel timeout : tidy [] (waitForElement env sel timeout) [].
Proof.
  unfold waitForElement. eapply tidy_bind; [apply tidy_gets|].
  intros t. apply tidy_waitForElement_loop.
Qed.

Lemma tidy_waitForEither_loop fuel s e startTime timeout :
  tidy [] (waitForEither_loop env fuel s e startTime timeout) [].
Proof.
  induction fuel as [|fuel IH]; simpl; [apply tidy_ret|].
  tidy_auto; try exact IH.
Qed.

Lemma tidy_waitForEither s e timeout : tidy [] (waitForEither env s e timeout) [].
Proof.
  unfold waitForEither. eapply tidy_bind; [apply tidy_gets|].
  intros t. apply tidy_waitForEither_loop.
Qed.

Lemma tidy_await_appearance step msg : tidy [] (await_appearance env step msg) [].
Proof.
  unfold await_appearance. destruct (Js.truthy_opt (waitFor step)); [|apply tidy_ret].
  eapply tidy_bind; [apply tidy_waitForElement|]. intros [el|]; apply tidy_ret.
Qed.

Lemma tidy_awaitSubmitOutcome step : tidy [] (awaitSubmitOutcome env step) [].
Proof.
  unfold awaitSubmitOutcome.
  destruct (Js.truthy_opt (waitFor step) || Js.truthy_opt (errorSelector step));
    [|apply tidy_ret].
  eapply tidy_bind; [apply tidy_waitForEither|]. intros [el | el |]; apply tidy_ret.
Qed.

Lemma tidy_type_chars held tok h chars : tidy held (type_chars env tok h chars) held.
Proof.
  induction chars as [|c chars IH]; simpl; [apply tidy_ret|].
  tidy_auto; try exact IH.
Qed.

Lemma tidy_choose_option h v options : tidy [h] (choose_option env h v options) [].
Proof. unfold choose_option. tidy_auto. Qed.

Lemma tidy_find_row_attempts held n searchText tok :
  tidy held (find_row_attempts env n searchText tok) held.
Proof.
  induction n as [|n IH]; simpl; [apply tidy_ret|].
  tidy_auto; try exact IH.
Qed.

Lemma tidy_modify_confirm held (f : World -> World) :
  (forall w, page (f w) = page w) -> tidy held (modify f) held.
Proof. intros Hf w H. simpl. rewrite Hf. exact H. Qed.

Lemma tidy_try_finally {A} held held' (m : M A) (f : World -> World) :
  (forall w, page (f w) = page w) ->
  tidy held m held' -> tidy held (try_finally m f) held'.
Proof.
  intros Hf Hm w H. unfold try_finally. specialize (Hm w H).
  destruct (m w) as [[a | e] w1]; rewrite Hf; exact Hm.
Qed.

#[local] Hint Resolve tidy_waitForElement tidy_waitForEither tidy_await_appearance
  tidy_awaitSubmitOutcome tidy_type_chars tidy_choose_option tidy_find_row_attempts : tidy.

Lemma tidy_executeNavigate step manifest tok :
  tidy [] (executeNavigate env step manifest tok) [].
Proof. unfold executeNavigate, getCurrentRoute. tidy_auto. Qed.

Lemma tidy_executeClick step tok : tidy [] (executeClick env step tok) [].
Proof. unfold executeClick. tidy_auto. Qed.

Lemma tidy_executeFill step ents tok : tidy [] (executeFill env step ents tok) [].
Proof. unfold executeFill. tidy_auto. Qed.

Lemma tidy_executeSelect step ents tok : tidy [] (executeSelect env step ents tok) [].
Proof. unfold executeSelect. tidy_auto. Qed.

Lemma tidy_executeCheck step tok : tidy [] (executeCheck env step tok) [].
Proof.
  unfold executeCheck. tidy_auto.
  all: try (apply tidy_write, keeps_highlight_checked).
Qed.

Lemma tidy_executeSubmit step tok : tidy [] (executeSubmit env step tok) [].
Proof. unfold executeSubmit. tidy_auto. Qed.

Lemma tidy_executeFindRow step ents tok : tidy [] (executeFindRow env step ents tok) [].
Proof.
  unfold executeFindRow. tidy_auto.
  all: try (apply tidy_modify_confirm; intros; reflexivity).
  apply tidy_try_finally.
  - intros w. destruct (_ || _); reflexivity.
  - tidy_auto.
Qed.

Lemma tidy_executeStep step manifest p tok :
  tidy [] (executeStep env step manifest p tok) [].
Proof.
  unfold executeStep. eapply tidy_bind; [apply tidy_throwIfCancelled_opt|]. intros _.
  destruct (type step);
    auto using tidy_executeNavigate, tidy_executeClick, tidy_executeFill,
      tidy_executeSelect, tidy_executeCheck, tidy_executeSubmit, tidy_executeFindRow,
      tidy_ret.
  tidy_auto.
Qed.

End TidyExecutors.

Section TidyEngine.

Variable env : Environment.
Hypothesis Henv : leaves_markers env.
Variable manifest : GlideManifest.
Variable p : ExecutionPlan.
Variable onProgress : bool.
Variable tok : option CancellationToken.

Lemma tidy_clearExecutionState held : tidy held (clearExecutionState env) held.
Proof.
  unfold clearExecutionState. eapply tidy_bind.
  - apply tidy_modify_confirm. intros w. reflexivity.
  - intros _. apply tidy_suspend. exact Henv.
Qed.

Lemma tidy_saveExecutionState held state : tidy held (saveExecutionState env state) held.
Proof.
  unfold saveExecutionState. eapply tidy_bind.
  - apply tidy_modify_confirm. intros w. reflexivity.
  - intros _. apply tidy_suspend. exact Henv.
Qed.

Lemma tidy_try_step step c : tidy [] (try_step env step manifest p tok c) [].
Proof.
  unfold try_step. eapply tidy_bind; [apply tidy_executeStep; exact Henv|].
  intros result. destruct (needsNavigation result); [|apply tidy_ret].
  cbv zeta. eapply tidy_bind; [apply tidy_gets|]. intros t.
  eapply tidy_bind; [apply tidy_saveExecutionState|]. intros _.
  eapply tidy_bind; [apply tidy_modify_confirm; intros w; reflexivity|]. intros _.
  eapply tidy_bind; [apply tidy_modify_confirm; intros w; reflexivity|]. intros _.
  apply tidy_ret.
Qed.

Lemma triple_on_cancel_in_step (P : Node -> Prop) c :
  triple P (on_cancel_in_step env p c) (fun _ => marked_within []).
Proof.
  intros w _. destruct (on_cancel_in_step_spec env p c w) as (w' & E & _ & G & _).
  rewrite E. apply marked_nil_no_ghost. exact G.
Qed.

Lemma triple_report step c :
  triple (marked_within [])
    (report onProgress (c + 1) (length (steps p)) (getStepMessage step))
    (fun _ => marked_within []).
Proof.
  apply triple_same_page.
  - intros w. unfold report. destruct onProgress; reflexivity.
  - intros w e. unfold report. destruct onProgress; discriminate.
Qed.

Lemma loop_body_tidy step c errs :
  triple (marked_within []) (loop_body env manifest p onProgress tok step c errs) pass_tidy.
Proof.
  unfold loop_body.
  eapply triple_bind.
  { apply triple_attempt. eapply triple_bind.
    - apply (tidy_throwIfCancelled_opt [] tok).
    - intros u. apply triple_report. }
  intros [[] | e]; cbv beta iota.
  2:{ intros w H. exact H. }
  eapply triple_bind; [apply triple_attempt, tidy_try_step|].
  intros [[result | [res p']] | e]; cbv beta iota.
  - destruct (sr_success result); [intros w H; exact H|].
    cbv zeta. destruct (fatal result); intros w H; exact H.
  - intros w H. exact H.
  - destruct (is_cancellation e) eqn:Ce.
    + eapply triple_bind; [apply triple_on_cancel_in_step|].
      intros exit w H. destruct exit as [c' errs' | r' q | c' e']; simpl; auto.
    + intros w [H | H]; [discriminate | exact H].
Qed.

Lemma run_loop_tidy rest :
  forall c errs,
    triple (marked_within []) (run_loop env manifest p onProgress tok rest c errs) exit_tidy.
Proof.
  induction rest as [|step rest IH]; intros c errs; simpl run_loop.
  - intros w H. exact H.
  - eapply triple_bind; [apply loop_body_tidy|].
    intros [errs' | exit]; cbv beta iota.
    + apply IH.
    + intros w H. destruct exit; exact H.
Qed.

Lemma triple_clearGhostHighlights (P : Node -> Prop) :
  triple P clearGhostHighlights (fun _ => marked_within []).
Proof.
  intros w _. destruct (clearGhostHighlights_spec w) as (w' & E & G & _).
  rewrite E. apply marked_nil_no_ghost. exact G.
Qed.

Lemma triple_returns {A} (P : Node -> Prop) (m : M A) :
  (forall w, exists a w', m w = (Returned a, w')) -> triple P m (fun _ _ => True).
Proof. intros Hm w _. destruct (Hm w) as (a & w' & E). rewrite E. exact I. Qed.

Lemma conclude_tidy exit :
  triple (exit_tidy exit) (conclude env p exit) (fun _ => marked_within []).
Proof.
  destruct exit as [c errs | r q | c e]; simpl conclude.
  - eapply (tidy_bind [] [] []); [apply tidy_clearExecutionState|]. intros _.
    eapply tidy_bind; [apply tidy_modify_confirm; intros w; reflexivity|]. intros _.
    eapply tidy_bind; [apply tidy_modify_confirm; intros w; reflexivity|]. intros _.
    apply tidy_ret.
  - intros w H. exact H.
  - eapply triple_bind.
    { apply (triple_same_page (exit_tidy (LoopEscape c e))); [reflexivity | discriminate]. }
    intros u. destruct (is_cancellation e) eqn:Ce.
    + eapply triple_bind.
      { apply triple_returns. intros w.
        destruct (clearExecutionState_spec env w) as (w' & E & _). eauto. }
      intros u1. eapply triple_bind; [apply triple_clearGhostHighlights|].
      intros u2. eapply (tidy_bind [] [] []);
        [apply tidy_modify_confirm; intros w; reflexivity|].
      intros _. apply tidy_ret.
    + intros w [H | H]; [simpl in H; congruence | right; exact H].
Qed.

Lemma executeFromStep_tidy :
  triple (marked_within []) (executeFromStep env p manifest onProgress tok)
    (fun _ => marked_within []).
Proof.
  unfold executeFromStep. eapply (tidy_bind [] [] []); [apply tidy_gets|].
  intros locked. destruct locked; [apply tidy_ret|].
  eapply (tidy_bind [] [] []).
  { unfold take_lock. eapply tidy_bind; [apply tidy_modify_confirm; intros w; reflexivity|].
    intros _. destruct tok; [apply tidy_modify_confirm; intros w; reflexivity | apply tidy_ret]. }
  intros _. eapply triple_bind; [apply run_loop_tidy|].
  intros exit. apply conclude_tidy.
Qed.

End TidyEngine.

Lemma quiet_leaves_markers k : leaves_markers (Sample.quiet k).
Proof. intros held n pg H. split; [exact H | intros ev h; exact H]. Qed.



(** ** Steps on a page without scripts *)

Lemma update_ext h f g r :
  (forall e, f e = g e) -> Dom.update h f r = Dom.update h g r.
Proof.
  intros Hfg. induction r as [data | e kids IH] using Node_tree_ind; simpl; [reflexivity|].
  rewrite Hfg. f_equal.
  induction IH as [|k kids Hk _ IHk]; simpl; [reflexivity|].
  rewrite Hk, IHk. reflexivity.
Qed.

Lemma update_update h f g r :
  (forall e, nid (g e) = nid e) ->
  Dom.update h f (Dom.update h g r) = Dom.update h (fun e => f (g e)) r.
Proof.
  intros Hg. induction r as [data | e kids IH] using Node_tree_ind; simpl; [reflexivity|].
  f_equal.
  - destruct (Nat.eqb (nid e) h) eqn:N.
    + rewrite Hg, N. reflexivity.
    + rewrite N. reflexivity.
  - rewrite map_map.
    induction IH as [|k kids Hk _ IHk]; simpl; [reflexivity|].
    rewrite Hk, IHk. reflexivity.
Qed.

Lemma deref_update h f r :
  (forall e, nid (f e) = nid e) ->
  Dom.deref (Dom.update h f r) h = f <$> Dom.deref r h.
Proof.
  intros Hf. unfold Dom.deref. rewrite all_elements_update.
  induction (Dom.all_elements r) as [|e l IH]; simpl; [reflexivity|].
  assert (Ht : nid (touch h f e) = nid e).
  { unfold touch. destruct (Nat.eqb (nid e) h); [apply Hf | reflexivity]. }
  rewrite Ht. destruct (Nat.eqb (nid e) h) eqn:N.
  - simpl. unfold touch. rewrite N. reflexivity.
  - exact IH.
Qed.

Lemma yields_ret {A} (a : A) pg : yields (ret a) pg a pg.
Proof. intros w H. exists w. split; [reflexivity | exact H]. Qed.

Lemma yields_bind {A B} (m : M A) (k : A -> M B) pg a pg1 b pg2 :
  yields m pg a pg1 -> yields (k a) pg1 b pg2 -> yields (bind m k) pg b pg2.
Proof.
  intros Hm Hk w H. destruct (Hm w H) as (w1 & E1 & P1).
  destruct (Hk w1 P1) as (w2 & E2 & P2).
  exists w2. split; [|exact P2]. rewrite (bind_returned _ _ _ _ _ E1). exact E2.
Qed.

Lemma yields_no_token pg : yields (throwIfCancelled_opt None) pg tt pg.
Proof. apply yields_ret. Qed.

Lemma yields_scrollIntoView h pg : yields (scrollIntoView h) pg tt pg.
Proof. apply yields_ret. Qed.

Lemma yields_read {A} h (f : Element -> A) d pg :
  yields (read h f d) pg (from_option f d (Dom.deref (root pg) h)) pg.
Proof. intros w H. exists w. subst pg. split; reflexivity. Qed.

Lemma yields_write h f pg :
  yields (write h f) pg tt (set_root (Dom.update h f (root pg)) pg).
Proof. intros w H. eexists. subst pg. split; reflexivity. Qed.

Section CalmPrimitives.

Variable env : Environment.
Hypothesis Hcalm : calm env.

Lemma yields_suspend ms pg : yields (suspend env ms) pg tt pg.
Proof.
  intros w H. pose proof (suspend_page env ms w) as Hp.
  pose proof (suspend_returns env ms w) as Hr.
  destruct (suspend env ms w) as [[[] | e] w1]; simpl in *; [|discriminate].
  exists w1. split; [reflexivity|]. rewrite Hp, H. apply Hcalm.
Qed.

Lemma yields_wait ms pg : yields (wait env ms) pg tt pg.
Proof. apply yields_suspend. Qed.

Lemma yields_dispatch ev h pg : yields (dispatch env ev h) pg tt pg.
Proof.
  intros w H. eexists. split; [reflexivity|]. simpl. rewrite H. apply Hcalm.
Qed.

(** the typing loop appends the characters to the value last written *)
Lemma yields_type_chars h e chars :
  forall v0 r0 pth,
    Dom.deref r0 h = Some e ->
    yields (type_chars env None h chars)
      {| root := Dom.update h (Dom.with_value v0) r0; pathname := pth |} tt
      {| root := Dom.update h (Dom.with_value (v0 ++ chars)) r0; pathname := pth |}.
Proof.
  induction chars as [|c chars IH]; intros v0 r0 pth He; simpl type_chars.
  - rewrite append_empty_r. apply yields_ret.
  - eapply yields_bind; [apply yields_no_token|].
    eapply yields_bind; [apply yields_read|].
    simpl root. rewrite deref_update by reflexivity. rewrite He. simpl from_option.
    eapply yields_bind; [apply yields_write|].
    eapply yields_bind; [apply yields_dispatch|].
    eapply yields_bind; [apply yields_wait|].
    unfold set_root. simpl root. simpl pathname.
    rewrite update_update by reflexivity.
    rewrite (update_ext h _ (Dom.with_value (v0 ++ String c ""))) by reflexivity.
    rewrite <- (append_snoc v0 c chars).
    apply IH. exact He.
Qed.

End CalmPrimitives.

Section CalmSteps.

Variable env : Environment.
Hypothesis Hcalm : calm env.

Lemma or_else_truthy s d : Js.truthy s = true -> Js.or_else (Some s) d = s.
Proof. intros H. unfold Js.or_else. rewrite H. reflexivity. Qed.

Lemma classList_add_deref h r e :
  Dom.deref r h = Some e ->
  Dom.deref (Dom.update h (Dom.classList_add GHOST_CLASS) r) h
  = Some (Dom.classList_add GHOST_CLASS e).
Proof.
  intros He. rewrite deref_update by (intros x; apply classList_add_nid).
  rewrite He. reflexivity.
Qed.

Lemma classList_add_fields g e :
  tagName (Dom.classList_add g e) = tagName e
  /\ el_type (Dom.classList_add g e) = el_type e
  /\ el_value (Dom.classList_add g e) = el_value e
  /\ checked (Dom.classList_add g e) = checked e
  /\ el_options (Dom.classList_add g e) = el_options e.
Proof. unfold Dom.classList_add. destruct (Dom.has_class g e); repeat split. Qed.

(** the part of [executeFill] that follows the lookup of the element
    (lines 352-417), on the page [pg] *)
Lemma fill_found_yields h e v pg :
  Dom.deref (root pg) h = Some e ->
  yields
    (throwIfCancelled_opt None ;;
     dispatch env EvFocus h ;;
     mark h ;;
     scrollIntoView h ;;
     isNumberInput <-
       read h (fun e => String.eqb (tagName e) "input" && String.eqb (el_type e) "number")
         false ;;
     (if isNumberInput : bool then
        setInputValue h v ;;
        dispatch env (EvInput None None) h ;;
        wait env (TYPING_DELAY * 3)
      else
        setInputValue h "" ;;
        dispatch env (EvInput (Some "deleteContentBackward") None) h ;;
        type_chars env None h v) ;;
     throwIfCancelled_opt None ;;
     dispatch env EvChange h ;;
     dispatch env EvBlur h ;;
     wait env 50 ;;
     current <- read h el_value "" ;;
     (if String.eqb current v then ret tt
      else
        setInputValue h v ;;
        dispatch env (EvInput None None) h ;;
        dispatch env EvChange h ;;
        wait env 50) ;;
     wait env ACTION_DELAY ;;
     unmark h ;;
     ret ok_result)
    pg ok_result (set_root (Dom.update h (filled v) (root pg)) pg).
Proof.
  intros He.
  pose proof (classList_add_deref h (root pg) e He) as Hm.
  eapply yields_bind; [apply yields_no_token|].
  eapply yields_bind; [apply yields_dispatch, Hcalm|].
  eapply yields_bind; [apply yields_write|].
  eapply yields_bind; [apply yields_scrollIntoView|].
  eapply yields_bind; [apply yields_read|].
  set (r0 := Dom.update h (Dom.classList_add GHOST_CLASS) (root pg)) in *.
  assert (Htyped :
            yields
              (if from_option
                    (fun e => String.eqb (tagName e) "input" && String.eqb (el_type e) "number")
                    false (Dom.deref (root (set_root r0 pg)) h)
               then setInputValue h v ;;
                    dispatch env (EvInput None None) h ;;
                    wait env (TYPING_DELAY * 3)
               else setInputValue h "" ;;
                    dispatch env (EvInput (Some "deleteContentBackward") None) h ;;
                    type_chars env None h v)
              (set_root r0 pg) tt
              {| root := Dom.update h (Dom.with_value v) r0; pathname := pathname pg |}).
  { destruct (from_option _ false (Dom.deref (root (set_root r0 pg)) h)).
    - eapply yields_bind; [apply yields_write|].
      eapply yields_bind; [apply yields_dispatch, Hcalm|].
      apply yields_wait, Hcalm.
    - eapply yields_bind; [apply yields_write|].
      eapply yields_bind; [apply yields_dispatch, Hcalm|].
      exact (yields_type_chars env Hcalm h _ v "" r0 (pathname pg) Hm). }
  eapply yields_bind; [exact Htyped|].
  eapply yields_bind; [apply yields_no_token|].
  eapply yields_bind; [apply yields_dispatch, Hcalm|].
  eapply yields_bind; [apply yields_dispatch, Hcalm|].
  eapply yields_bind; [apply yields_wait, Hcalm|].
  eapply yields_bind; [apply yields_read|].
  simpl root. rewrite deref_update by reflexivity. rewrite Hm. simpl from_option.
  rewrite String.eqb_refl.
  eapply yields_bind; [apply yields_ret|].
  eapply yields_bind; [apply yields_wait, Hcalm|].
  eapply yields_bind; [apply yields_write|].
  unfold set_root. simpl root. simpl pathname. unfold r0.
  rewrite update_update by reflexivity.
  rewrite update_update by (intros x; apply classList_add_nid).
  apply yields_ret.
Qed.

End CalmSteps.

Lemma filled_nid v e : nid (filled v e) = nid e.
Proof. unfold filled, unghost. simpl. apply classList_add_nid. Qed.

Lemma ticked_nid e : nid (ticked e) = nid e.
Proof. unfold ticked, unghost. simpl. apply classList_add_nid. Qed.

Lemma quiet_calm k : calm (Sample.quiet k).
Proof. intros n pg. split; [reflexivity | intros ev h; reflexivity]. Qed.



Lemma deref_in r h e : Dom.deref r h = Some e -> nid e = h.
Proof.
  unfold Dom.deref. intros H.
  assert (Hin : In e (List.filter (fun x => Nat.eqb (nid x) h) (Dom.all_elements r))).
  { destruct (List.filter _ _) as [|x l]; [discriminate|]. injection H as ->. left. reflexivity. }
  apply filter_In in Hin. apply Nat.eqb_eq. tauto.
Qed.

(** a write through one reference is not seen through another *)
Lemma deref_update_other h f r h' :
  (forall e, nid (f e) = nid e) ->
  h' <> h ->
  Dom.deref (Dom.update h f r) h' = Dom.deref r h'.
Proof.
  intros Hf Hne. unfold Dom.deref. rewrite all_elements_update.
  induction (Dom.all_elements r) as [|e l IH]; simpl; [reflexivity|].
  assert (Ht : nid (touch h f e) = nid e).
  { unfold touch. destruct (Nat.eqb (nid e) h); [apply Hf | reflexivity]. }
  rewrite Ht. destruct (Nat.eqb (nid e) h') eqn:N; [|exact IH].
  simpl. unfold touch. apply Nat.eqb_eq in N.
  destruct (Nat.eqb (nid e) h) eqn:N2; [|reflexivity].
  apply Nat.eqb_eq in N2. congruence.
Qed.

Lemma with_checked_same e : checked e = true -> Dom.with_checked true e = e.
Proof. destruct e. simpl. intros ->. reflexivity. Qed.

Section CalmChoices.

Variable env : Environment.
Hypothesis Hcalm : calm env.

(** the part of [executeSelect] that follows the lookup of the element
    (lines 485-534), when an option is accepted *)
Lemma select_found_yields h e v o score pg :
  Dom.deref (root pg) h = Some e ->
  best_option v (valid_options (el_options e)) = (Some o, score) ->
  score_ge score (6 # 10) = true ->
  yields
    (throwIfCancelled_opt None ;;
     dispatch env EvFocus h ;;
     mark h ;;
     all <- read h el_options [] ;;
     choose_option env h v (valid_options all))
    pg ok_result (set_root (Dom.update h (filled (opt_value o)) (root pg)) pg).
Proof.
  intros He Hbest Hscore.
  pose proof (classList_add_deref h (root pg) e He) as Hm.
  eapply yields_bind; [apply yields_no_token|].
  eapply yields_bind; [apply yields_dispatch, Hcalm|].
  eapply yields_bind; [apply yields_write|].
  eapply yields_bind; [apply yields_read|].
  simpl root. rewrite Hm. simpl from_option.
  destruct (classList_add_fields GHOST_CLASS e) as (_ & _ & _ & _ & Hopts).
  rewrite Hopts. unfold choose_option.
  destruct (valid_options (el_options e)) as [|o1 rest] eqn:V; [discriminate Hbest|].
  rewrite Hbest, Hscore.
  eapply yields_bind; [apply yields_write|].
  eapply yields_bind; [apply yields_dispatch, Hcalm|].
  eapply yields_bind; [apply yields_wait, Hcalm|].
  eapply yields_bind; [apply yields_write|].
  unfold set_root. simpl root. simpl pathname.
  rewrite update_update by reflexivity.
  rewrite update_update by (intros x; apply classList_add_nid).
  apply yields_ret.
Qed.

(** the part of [executeCheck] that follows the lookup of the element
    (lines 552-564) *)
Lemma check_found_yields h e pg :
  Dom.deref (root pg) h = Some e ->
  exists pg',
    yields
      (throwIfCancelled_opt None ;;
       mark h ;;
       isChecked <- read h checked false ;;
       (if isChecked : bool then ret tt
        else
          write h (Dom.with_checked true) ;;
          dispatch env EvChange h) ;;
       wait env ACTION_DELAY ;;
       unmark h ;;
       ret ok_result)
      pg ok_result pg'
    /\ pathname pg' = pathname pg
    /\ Dom.deref (root pg') h = Some (ticked e)
    /\ forall h', h' <> h -> Dom.deref (root pg') h' = Dom.deref (root pg) h'.
Proof.
  intros He.
  pose proof (classList_add_deref h (root pg) e He) as Hm.
  destruct (classList_add_fields GHOST_CLASS e) as (_ & _ & _ & Hchk & _).
  destruct (checked e) eqn:C.
  - eexists. split; [|split; [|split]].
    + eapply yields_bind; [apply yields_no_token|].
      eapply yields_bind; [apply yields_write|].
      eapply yields_bind; [apply yields_read|].
      simpl root. rewrite Hm. simpl from_option. rewrite Hchk.
      eapply yields_bind; [apply yields_ret|].
      eapply yields_bind; [apply yields_wait, Hcalm|].
      eapply yields_bind; [apply yields_write|].
      apply yields_ret.
    + reflexivity.
    + simpl root. rewrite update_update by (intros x; apply classList_add_nid).
      rewrite deref_update by (intros x; simpl; apply classList_add_nid).
      rewrite He. simpl. unfold ticked.
      rewrite (with_checked_same (Dom.classList_add GHOST_CLASS e)) by congruence.
      reflexivity.
    + intros h' Hne. simpl root.
      rewrite update_update by (intros x; apply classList_add_nid).
      apply deref_update_other; [intros x; simpl; apply classList_add_nid | exact Hne].
  - eexists. split; [|split; [|split]].
    + eapply yields_bind; [apply yields_no_token|].
      eapply yields_bind; [apply yields_write|].
      eapply yields_bind; [apply yields_read|].
      simpl root. rewrite Hm. simpl from_option. rewrite Hchk.
      eapply yields_bind.
      { eapply yields_bind; [apply yields_write|]. apply yields_dispatch, Hcalm. }
      eapply yields_bind; [apply yields_wait, Hcalm|].
      eapply yields_bind; [apply yields_write|].
      apply yields_ret.
    + reflexivity.
    + simpl root. rewrite update_update by reflexivity.
      rewrite update_update by (intros x; apply classList_add_nid).
      rewrite deref_update by (intros x; simpl; apply classList_add_nid).
      rewrite He. reflexivity.
    + intros h' Hne. simpl root. rewrite update_update by reflexivity.
      rewrite update_update by (intros x; apply classList_add_nid).
      apply deref_update_other; [intros x; simpl; apply classList_add_nid | exact Hne].
Qed.

End CalmChoices.

(** X11.  A select step on a page without scripts.  Let the step name a
    target and resolve to a non-empty value [v], let the engine run
    without a token, let the locator find the target, and let the scan
    of its valid options end with the option [o] at a score of at least
    0.6.  Then [executeSelect] succeeds, and the document it leaves
    differs from the one in which the target was found only in the
    target element: its value is the [value] of [o], which is one of the
    element's options, has a non-empty [value] and is not disabled, and
    the element does not carry the ghost class. *)
Theorem X11_select_leaves_the_option_value env step ents sel el e o score w w1 :
  calm env ->
  target step = Some sel ->
  Js.truthy sel = true ->
  Js.truthy (resolve_value ents step) = true ->
  waitForElement env sel 5000 w = (Returned (Some el), w1) ->
  Dom.deref (root (page w1)) (node_id el) = Some e ->
  best_option (resolve_value ents step) (valid_options (el_options e)) = (Some o, score) ->
  (6 # 10 <= score)%Q ->
  exists w',
    executeSelect env step ents None w = (Returned ok_result, w')
    /\ page w'
       = set_root (Dom.update (node_id el) (filled (opt_value o)) (root (page w1))) (page w1)
    /\ Dom.deref (root (page w')) (node_id el) = Some (filled (opt_value o) e)
    /\ el_value (filled (opt_value o) e) = opt_value o
    /\ Dom.has_class GHOST_CLASS (filled (opt_value o) e) = false
    /\ In o (el_options e) /\ opt_value o <> "" /\ opt_disabled o = false.
Proof.
  intros Hcalm Ht Hsel Hv Hwait He Hbest Hscore.
  assert (Hge : score_ge score (6 # 10) = true) by (apply Qle_bool_iff; exact Hscore).
  destruct (select_found_yields env Hcalm (node_id el) e (resolve_value ents step) o score
              (page w1) He Hbest Hge w1 eq_refl) as (w' & E & P).
  exists w'. split.
  - unfold executeSelect.
    rewrite (bind_returned _ _ w tt w) by reflexivity.
    rewrite Ht. change (Js.truthy_opt (Some sel)) with (Js.truthy sel).
    rewrite Hsel. cbv zeta. rewrite Hv.
    change (negb true) with false. cbv iota.
    rewrite (or_else_truthy _ _ Hsel).
    rewrite (bind_returned _ _ _ _ _ Hwait). exact E.
  - split; [exact P|]. split.
    + rewrite P. simpl root. rewrite deref_update by apply filled_nid.
      rewrite He. reflexivity.
    + split; [reflexivity|]. split; [apply unghost_clean|].
      pose proof (best_option_spec (resolve_value ents step) (valid_options (el_options e)))
        as (_ & _ & B).
      rewrite Hbest in B. simpl in B. destruct B as (before & after & Hsplit & _).
      assert (Hin : In o (valid_options (el_options e))).
      { rewrite Hsplit. apply in_or_app. right. left. reflexivity. }
      apply valid_options_spec in Hin. exact Hin.
Qed.

Lemma X11_select_leaves_the_option_value_witness :
  exists w',
    executeSelect (Sample.quiet None) (Sample.step select (Some "#grade") (Some "grade 9"))
      ∅ None Scenario.grade_world
    = (Returned ok_result, w')
    /\ el_value <$> Dom.deref (root (page w')) 1 = Some "g9".
Proof.
  destruct (X11_select_leaves_the_option_value (Sample.quiet None)
              (Sample.step select (Some "#grade") (Some "grade 9")) ∅ "#grade"
              (ElementNode Scenario.grade_select []) Scenario.grade_select
              {| opt_value := "g9"; opt_text := "Grade 9"; opt_disabled := false |} 1%Q
              Scenario.grade_world Scenario.grade_world (quiet_calm None))
    as (w' & E & _ & D & _); try reflexivity.
  - vm_compute. discriminate.
  - exists w'. split; [exact E|]. simpl node_id in D. rewrite D. reflexivity.
Defined.



(** ** Waiting for an element *)

Lemma waitForElement_unfold env sel timeout w :
  waitForElement env sel timeout w
  = waitForElement_loop env (poll_fuel timeout) sel (now w) timeout w.
Proof. reflexivity. Qed.

Lemma poll_within_fuel env i w timeout :
  (now (poll_world env i w) - now w < timeout)%Z -> (i < poll_fuel timeout)%nat.
Proof.
  intros H. pose proof (now_poll_world env i w) as N. unfold poll_fuel.
  assert (Hi : (Z.of_nat i <= timeout / 100)%Z).
  { apply Z.div_le_lower_bound; lia. }
  assert (0 <= timeout / 100)%Z by lia.
  lia.
Qed.

(** X13.  [waitForElement] looks for the element at once and then every
    100 ms of waiting, for as long as less than [timeout] ms have passed
    since the call.  It returns the element found by the first look that
    finds one, without any further waiting (at once, and without a
    change to the world, when the element is there at the call).  When
    no look within the time allowed finds the element it returns [null],
    and at least [timeout] ms have then passed.  With a [timeout] that
    is not positive it returns [null] at once without looking.  A
    selector that the browser cannot parse makes the first look throw. *)
Theorem X13_waitForElement_polls_until_the_deadline env sel timeout w :
  (forall i el,
      (now (poll_world env i w) - now w < timeout)%Z ->
      (forall j, (j < i)%nat ->
                 fst (findElement env sel (poll_world env j w)) = Returned None) ->
      fst (findElement env sel (poll_world env i w)) = Returned (Some el) ->
      waitForElement env sel timeout w = (Returned (Some el), poll_world env i w))
  /\ ((forall j, (now (poll_world env j w) - now w < timeout)%Z ->
                 fst (findElement env sel (poll_world env j w)) = Returned None) ->
      exists i,
        waitForElement env sel timeout w = (Returned None, poll_world env i w)
        /\ (timeout <= now (poll_world env i w) - now w)%Z)
  /\ ((timeout <= 0)%Z -> waitForElement env sel timeout w = (Returned None, w))
  /\ ((0 < timeout)%Z ->
      Js.startsWith sel "label:" = false ->
      css_valid env sel = false ->
      exists msg, waitForElement env sel timeout w = (Thrown (JsError msg), w)).
Proof.
  rewrite waitForElement_unfold. repeat split.
  - intros i el Hwin Habs Hfound.
    apply (waitForElement_loop_found env sel (now w) timeout i); try assumption.
    apply (poll_within_fuel env i w timeout Hwin).
  - intros Habs.
    apply (waitForElement_loop_timeout env sel (now w) timeout); [|exact Habs].
    apply poll_fuel_enough.
  - intros Hle. unfold poll_fuel. simpl waitForElement_loop.
    unfold Date_now. rewrite (bind_returned _ _ w (now w) w) by reflexivity.
    assert (T : (now w - now w <? timeout)%Z = false) by (apply Z.ltb_ge; lia).
    rewrite T. reflexivity.
  - intros Hpos Hlabel Hbad. unfold poll_fuel. simpl waitForElement_loop.
    unfold Date_now. rewrite (bind_returned _ _ w (now w) w) by reflexivity.
    assert (T : (now w - now w <? timeout)%Z = true) by (apply Z.ltb_lt; lia).
    rewrite T. unfold findElement. rewrite Hlabel.
    eexists. unfold bind, querySelector. rewrite Hbad. reflexivity.
Qed.

Lemma X13_waitForElement_polls_until_the_deadline_witness :
  waitForElement (Sample.quiet None) "#f1" 5000 Scenario.home
  = (Returned (Some (ElementNode (Sample.element 3 "input" "f1" "text" "") [])),
     Scenario.home)
  /\ exists i,
      waitForElement (Sample.quiet None) "#missing" 5000 Scenario.home
      = (Returned None, poll_world (Sample.quiet None) i Scenario.home)
      /\ (5000 <= now (poll_world (Sample.quiet None) i Scenario.home)
                  - now Scenario.home)%Z.
Proof.
  split.
  - apply (proj1 (X13_waitForElement_polls_until_the_deadline (Sample.quiet None) "#f1"
                    5000 Scenario.home) 0%nat).
    + simpl. lia.
    + intros j Hj. lia.
    + reflexivity.
  - apply (proj1 (proj2 (X13_waitForElement_polls_until_the_deadline (Sample.quiet None)
                           "#missing" 5000 Scenario.home))).
    intros j _. unfold poll_world.
    induction j as [|j IH]; [reflexivity|].
    rewrite Nat.iter_succ. exact IH.
Defined.

(** ** Lookup by label *)

Lemma keep_if_some f o n : keep_if f o = Some n -> o = Some n /\ f n = true.
Proof.
  unfold keep_if. destruct o as [x|]; [|discriminate].
  destruct (f x) eqn:F; [|discriminate]. intros H. injection H as ->. split; [reflexivity | exact F].
Qed.

Lemma label_for_some r ty label n :
  label_for r ty label = Some n ->
  type_ok ty n = true
  /\ exists lab kids x xs,
      label = ElementNode lab kids /\ n = ElementNode x xs
      /\ htmlFor lab <> "" /\ el_id x = htmlFor lab.
Proof.
  unfold label_for. destruct label as [|lab kids]; [discriminate|].
  destruct (Js.truthy (htmlFor lab)) eqn:T; [|discriminate].
  intros H. apply keep_if_some in H. destruct H as [H Hok]. split; [exact Hok|].
  set (l := List.filter _ _) in H.
  assert (Hin : In n l) by (destruct l; [discriminate | injection H as ->; left; reflexivity]).
  apply filter_In in Hin. destruct Hin as [_ Hid].
  destruct n as [|x xs]; [discriminate|].
  exists lab, kids, x, xs. repeat split.
  - intros E. rewrite E in T. discriminate.
  - apply String.eqb_eq. exact Hid.
Qed.

Lemma head_filter_some {A} (f : A -> bool) l x :
  head (List.filter f l) = Some x -> In x l /\ f x = true.
Proof.
  intros H.
  assert (Hin : In x (List.filter f l)).
  { destruct (List.filter f l); [discriminate | injection H as ->; left; reflexivity]. }
  apply filter_In in Hin. exact Hin.
Qed.

(** X14.  What a lookup by label returns.  The element [findByLabel]
    returns belongs to a [label] element of the document whose text
    contains the text searched for, compared without regard to case, in
    one of three ways: it is the element whose [id] the label's [for]
    attribute names, and then it has the required type; or, that failing,
    it is the first input, select or textarea inside the label, and then
    its type was not looked at; or, both failing, it is the first such
    control under the label's parent, and then it has the required
    type.  The lookup returns nothing exactly when every label with a
    matching text resolves to nothing. *)
Theorem X14_label_lookup_honours_the_type_except_when_nested r text ty n :
  (findByLabel r text ty = Some n ->
   exists label parent,
     In (label, parent) (labels_of r)
     /\ Js.includes (Js.toLowerCase (Dom.textContent label)) (Js.toLowerCase text) = true
     /\ ((label_for r ty label = Some n /\ type_ok ty n = true)
         \/ (label_for r ty label = None
             /\ label_nested label = Some n
             /\ Dom.has_tag control_tags n = true)
         \/ (label_for r ty label = None
             /\ label_nested label = None
             /\ label_adjacent ty parent = Some n
             /\ Dom.has_tag control_tags n = true
             /\ type_ok ty n = true)))
  /\ (findByLabel r text ty = None
      <-> forall x, In x (labels_of r) ->
                    label_matches text (fst x) = true -> resolve_label r ty x = None).
Proof.
  split.
  - intros H. apply findByLabel_first_resolving in H.
    destruct H as (before & [label parent] & after & Hsplit & Hm & Hres & _).
    exists label, parent. split; [rewrite Hsplit; apply in_or_app; right; left; reflexivity|].
    split; [exact Hm|].
    unfold resolve_label in Hres. simpl fst in Hres. simpl snd in Hres.
    destruct (label_for r ty label) as [x|] eqn:F.
    + injection Hres as ->. left. split; [reflexivity|].
      apply (label_for_some r ty label n F).
    + destruct (label_nested label) as [x|] eqn:N.
      * injection Hres as ->. right. left. split; [reflexivity|]. split; [reflexivity|].
        unfold label_nested in N. apply head_filter_some in N. tauto.
      * right. right. split; [reflexivity|]. split; [reflexivity|]. split; [exact Hres|].
        unfold label_adjacent in Hres. destruct parent as [q|]; [|discriminate].
        apply keep_if_some in Hres. destruct Hres as [Hh Hok].
        apply head_filter_some in Hh. tauto.
  - split.
    + intros Hnone x Hin Hm.
      destruct (resolve_label r ty x) as [n'|] eqn:R; [|reflexivity].
      exfalso.
      assert (Hsome : exists n0, findByLabel r text ty = Some n0).
      { unfold findByLabel. fold (labels_of r).
        clear Hnone. induction (labels_of r) as [|y l IH]; [destruct Hin|].
        simpl. destruct y as [label parent].
        destruct Hin as [<- | Hin].
        - simpl in Hm. rewrite Hm. unfold resolve_label in R. simpl in R.
          destruct (label_for r ty label); [eauto|].
          destruct (label_nested label); [eauto|].
          rewrite R. eauto.
        - destruct (label_matches text label); [|exact (IH Hin)].
          destruct (label_for r ty label); [eauto|].
          destruct (label_nested label); [eauto|].
          destruct (label_adjacent ty parent); [eauto | exact (IH Hin)]. }
      destruct Hsome as (n0 & Hsome). congruence.
    + intros Hall. destruct (findByLabel r text ty) as [n0|] eqn:F; [|reflexivity].
      apply findByLabel_first_resolving in F.
      destruct F as (before & x & after & Hsplit & Hm & Hres & _).
      rewrite (Hall x) in Hres; [discriminate | | exact Hm].
      rewrite Hsplit. apply in_or_app. right. left. reflexivity.
Qed.

Lemma X14_label_lookup_honours_the_type_except_when_nested_witness :
  findByLabel Sample.nested_form "age" (Some "number")
  = Some (ElementNode (Sample.element 2 "input" "age" "text" "") [])
  /\ exists label parent,
      In (label, parent) (labels_of Sample.nested_form)
      /\ label_nested label
         = Some (ElementNode (Sample.element 2 "input" "age" "text" "") []).
Proof.
  split; [reflexivity|].
  destruct (proj1 (X14_label_lookup_honours_the_type_except_when_nested Sample.nested_form
                     "age" (Some "number")
                     (ElementNode (Sample.element 2 "input" "age" "text" "") []))
              eq_refl) as (label & parent & Hin & _ & [[_ Hty] | [(_ & Hn & _) | (_ & _ & _ & _ & Hty)]]).
  - vm_compute in Hty. discriminate Hty.
  - exists label, parent. split; [exact Hin | exact Hn].
  - vm_compute in Hty. discriminate Hty.
Defined.

(** ** Rows and their action buttons *)

Lemma includes_empty s : Js.includes s "" = true.
Proof. destruct s; reflexivity. Qed.

Lemma head_filter_app {A} (f : A -> bool) l1 l2 :
  head (List.filter f (l1 ++ l2))
  = match head (List.filter f l1) with
    | Some x => Some x
    | None => head (List.filter f l2)
    end.
Proof.
  rewrite List.filter_app. destruct (List.filter f l1); reflexivity.
Qed.

Lemma head_filter_none {A} (f : A -> bool) l :
  head (List.filter f l) = None <-> forall x, In x l -> f x = false.
Proof.
  induction l as [|a l IH]; simpl.
  - split; [intros _ x [] | reflexivity].
  - destruct (f a) eqn:F; simpl.
    + split; [discriminate|]. intros H. rewrite (H a) in F; [discriminate | left; reflexivity].
    + rewrite IH. split.
      * intros H x [<- | Hx]; [exact F | exact (H x Hx)].
      * intros H x Hx. apply H. right. exact Hx.
Qed.

Lemma filter_all {A} (f : A -> bool) l :
  (forall x, f x = true) -> List.filter f l = l.
Proof.
  intros H. induction l as [|a l IH]; simpl; [reflexivity|].
  rewrite H, IH. reflexivity.
Qed.

Lemma findMatchingRow_first_hit env r searchText :
  findMatchingRow env r searchText
  = head (List.filter (row_hit searchText) (table_rows env r ++ list_items env r)).
Proof. rewrite head_filter_app. reflexivity. Qed.

(** X15.  [findMatchingRow] returns the first row, among the [tbody tr]
    rows of the tables followed by the elements the four list selectors
    match, whose text contains the trimmed search text, both taken in
    lower case.  So the row returned contains the text; nothing is
    returned exactly when no candidate contains it; a matching table row
    is preferred to every list item; and a search text of nothing but
    white space, which [executeFindRow] lets through, matches the very
    first candidate whatever it says. *)
Theorem X15_findMatchingRow_returns_the_first_hit env r searchText :
  (forall row,
      findMatchingRow env r searchText = Some row ->
      Js.includes (Js.toLowerCase (Dom.textContent row))
        (Js.trim (Js.toLowerCase searchText)) = true
      /\ In row (table_rows env r ++ list_items env r))
  /\ (findMatchingRow env r searchText = None
      <-> forall row, In row (table_rows env r ++ list_items env r) ->
                      row_hit searchText row = false)
  /\ (forall row,
         In row (table_rows env r) -> row_hit searchText row = true ->
         exists row',
           findMatchingRow env r searchText = Some row' /\ In row' (table_rows env r))
  /\ (Js.trim (Js.toLowerCase searchText) = "" ->
      findMatchingRow env r searchText = head (table_rows env r ++ list_items env r)).
Proof.
  rewrite findMatchingRow_first_hit. repeat split.
  - apply head_filter_some in H. apply H.
  - apply head_filter_some in H. apply H.
  - apply head_filter_none.
  - apply head_filter_none.
  - intros row Hin Hhit. rewrite head_filter_app.
    destruct (head (List.filter (row_hit searchText) (table_rows env r))) as [row'|] eqn:Hd.
    + exists row'. split; [reflexivity|]. apply head_filter_some in Hd. apply Hd.
    + rewrite head_filter_none in Hd. rewrite (Hd row Hin) in Hhit. discriminate.
  - intros Hblank. rewrite filter_all; [reflexivity|].
    intros x. unfold row_hit. rewrite Hblank. apply includes_empty.
Qed.

Lemma lower_char_idem c : Js.lower_char (Js.lower_char c) = Js.lower_char c.
Proof.
  destruct c as [[] [] [] [] [] [] [] []]; reflexivity.
Qed.

Lemma toLowerCase_idem s : Js.toLowerCase (Js.toLowerCase s) = Js.toLowerCase s.
Proof.
  induction s as [|c s IH]; simpl; [reflexivity|].
  rewrite lower_char_idem, IH. reflexivity.
Qed.

Lemma findRowActionButton_unfold env r row act :
  findRowActionButton env r row act
  = match head (matching_controls env r row act) with
    | Some el => Some el
    | None =>
        if is_delete_action act
        then nth_error (row_controls env r row) (length (row_controls env r row) - 1)
        else if is_edit_action act
             then nth_error (row_controls env r row) (length (row_controls env r row) - 2)
             else None
    end.
Proof.
  unfold findRowActionButton, matching_controls, is_delete_action, is_edit_action.
  fold (row_controls env r row).
  destruct (head _) as [el|]; [reflexivity|].
  destruct (row_controls env r row) as [|b1 [|b2 l]]; simpl.
  - destruct (_ || _); [reflexivity|]. destruct (_ || _); reflexivity.
  - destruct (_ || _); [reflexivity|]. destruct (_ || _); reflexivity.
  - destruct (_ || _); [reflexivity|]. destruct (_ || _); reflexivity.
Qed.


Lemma X15_findMatchingRow_returns_the_first_hit_witness :
  Js.trim (Js.toLowerCase "  ") = ""
  /\ findMatchingRow Scenario.browser Scenario.records_page "  " = Some Scenario.jane_row
  /\ findMatchingRow Scenario.browser Scenario.records_page " John " = Some Scenario.john_row.
Proof.
  split; [reflexivity|]. split.
  - rewrite (proj2 (proj2 (proj2 (X15_findMatchingRow_returns_the_first_hit
                                    Scenario.browser Scenario.records_page "  ")))
               eq_refl).
    reflexivity.
  - reflexivity.
Defined.


(** ** Blank texts in the similarity score *)

Lemma blank_similarity a b :
  Js.trim (Js.toLowerCase a) = "" \/ Js.trim (Js.toLowerCase b) = "" ->
  (9 # 10 <= stringSimilarity a b)%Q.
Proof.
  intros Hblank.
  destruct (stringSimilarity_cases a b) as (Heq & Hincl & _).
  destruct (string_dec (Js.trim (Js.toLowerCase a)) (Js.trim (Js.toLowerCase b))) as [E | N].
  - rewrite (Heq E). discriminate.
  - rewrite (Hincl N); [apply Qle_refl|].
    destruct Hblank as [-> | ->]; rewrite includes_empty;
      [apply orb_true_r | reflexivity].
Qed.

(** X17.  A text that is empty once lower-cased and trimmed is contained
    in every text, so it scores at least 0.9 against anything.  A select
    step whose value consists of white space only passes the check for a
    missing value, and then never fails with "No match": whatever the
    valid options are, the scan ends with one of them at a score of 0.9
    or more, which is accepted. *)
Theorem X17_blank_value_is_accepted_by_select env h v all w :
  Js.trim (Js.toLowerCase v) = "" ->
  valid_options all <> [] ->
  (forall b, (9 # 10 <= stringSimilarity v b)%Q)
  /\ exists o score,
      best_option v (valid_options all) = (Some o, score)
      /\ (9 # 10 <= score)%Q
      /\ In o (valid_options all)
      /\ fst (choose_option env h v (valid_options all) w) = Returned ok_result.
Proof.
  intros Hblank Hne.
  assert (Hsim : forall b, (9 # 10 <= stringSimilarity v b)%Q).
  { intros b. apply blank_similarity. left. exact Hblank. }
  split; [exact Hsim|].
  destruct (valid_options all) as [|o1 rest] eqn:V; [contradiction|].
  pose proof (best_option_spec v (o1 :: rest)) as (_ & Hmax & Hbest).
  destruct (best_option v (o1 :: rest)) as [best score] eqn:B. simpl in Hmax, Hbest.
  assert (Hscore : (9 # 10 <= score)%Q).
  { eapply Qle_trans; [apply (Hsim (opt_value o1))|].
    eapply Qle_trans; [apply (option_score_max v o1)|].
    apply Hmax. left. reflexivity. }
  destruct best as [o|].
  - exists o, score. split; [reflexivity|]. split; [exact Hscore|]. split.
    + destruct Hbest as (before & after & Hsplit & _). rewrite Hsplit.
      apply in_or_app. right. left. reflexivity.
    + apply (choose_option_accepts env h v o1 rest w (o, score) B).
      apply Qle_bool_iff. eapply Qle_trans; [|exact Hscore]. discriminate.
  - rewrite Hbest in Hscore. exfalso. revert Hscore. apply Qlt_not_le. reflexivity.
Qed.

Lemma X17_blank_value_is_accepted_by_select_witness :
  Js.truthy " " = true
  /\ Js.trim (Js.toLowerCase " ") = ""
  /\ exists o score,
      best_option " " (valid_options (el_options Scenario.grade_select)) = (Some o, score)
      /\ (9 # 10 <= score)%Q
      /\ fst (choose_option (Sample.quiet None) 1 " "
                (valid_options (el_options Scenario.grade_select)) Scenario.grade_world)
         = Returned ok_result.
Proof.
  split; [reflexivity|]. split; [reflexivity|].
  destruct (X17_blank_value_is_accepted_by_select (Sample.quiet None) 1 " "
              (el_options Scenario.grade_select) Scenario.grade_world eq_refl)
    as (_ & o & score & B & S & _ & C).
  - discriminate.
  - exists o, score. split; [exact B|]. split; [exact S | exact C].
Defined.

(** ** Routes *)

Lemma getCurrentRoute_loop_first env currentPath entries name :
  getCurrentRoute_loop env currentPath entries = Some name
  <-> exists before route after,
        entries = before ++ (name, route) :: after
        /\ route_hit env currentPath route = true
        /\ forall x, In x before -> route_hit env currentPath (snd x) = false.
Proof.
  induction entries as [|[n0 r0] entries IH]; simpl.
  - split; [discriminate|]. intros (before & route & after & H & _).
    destruct before; discriminate.
  - fold (route_hit env currentPath r0).
    assert (Hstep : (if String.eqb (path r0) currentPath then Some n0
                     else if is_dynamic (path r0) && route_regex_test env (path r0) currentPath
                          then Some n0
                          else getCurrentRoute_loop env currentPath entries)
                    = if route_hit env currentPath r0 then Some n0
                      else getCurrentRoute_loop env currentPath entries).
    { unfold route_hit. destruct (String.eqb (path r0) currentPath); reflexivity. }
    rewrite Hstep. clear Hstep.
    destruct (route_hit env currentPath r0) eqn:Hit.
    + split.
      * intros H. injection H as ->. exists [], r0, entries.
        split; [reflexivity|]. split; [exact Hit | intros x []].
      * intros (before & route & after & H & Hh & Hb).
        destruct before as [|b before].
        -- injection H as -> _ _. reflexivity.
        -- injection H as Hb0 _. subst b.
           pose proof (Hb (n0, r0) (or_introl eq_refl)) as Hx. simpl in Hx. congruence.
    + rewrite IH. split.
      * intros (before & route & after & H & Hh & Hb).
        exists ((n0, r0) :: before), route, after. split; [rewrite H; reflexivity|].
        split; [exact Hh|]. intros x [<- | Hx]; [exact Hit | exact (Hb x Hx)].
      * intros (before & route & after & H & Hh & Hb).
        destruct before as [|b before].
        -- injection H as _ -> _. rewrite Hh in Hit. discriminate.
        -- injection H as _ ->. exists before, route, after.
           split; [reflexivity|]. split; [exact Hh|].
           intros x Hx. apply Hb. right. exact Hx.
Qed.



(** ** The content script *)

(** X19.  A request that is turned away takes the means to cancel with
    it.  While a plan is running, an [EXECUTE_PLAN] message is answered
    with the result "Execution already in progress" and changes nothing
    in the engine; but the content script has by then replaced its own
    token variable by the token of the rejected request and cleared it
    again.  A [CANCEL_EXECUTION] message that follows is answered with
    the error "No active execution to cancel" and leaves the world as it
    is: the token of the running plan is not cancelled. *)
Theorem X19_rejected_request_disarms_cancel env tab w m p :
  isExecuting w = true ->
  cachedManifest w = Some m ->
  exists tab',
    handleMessage env (EXECUTE_PLAN (Some p)) tab w
    = (Returned (EXECUTION_RESULT (rejected_result (length (steps p)))), tab', w)
    /\ tab_token tab' = None
    /\ handleMessage env CANCEL_EXECUTION tab' w
       = (Returned (ERROR "No active execution to cancel"), tab', w).
Proof.
  intros Hlock Hm. unfold handleMessage at 1. simpl.
  rewrite (executePlan_loaded _ _ _ _ _ _ Hm).
  rewrite (executeFromStep_locked _ _ _ _ _ _ Hlock). simpl.
  eexists. split; [reflexivity|].
  assert (Htok : forall b tab0,
             tab_token (set_tab_token None (if b : bool then set_tab_token None tab0 else tab0))
             = None) by (intros [] ?; reflexivity).
  split; [apply Htok|].
  unfold handleMessage. rewrite Htok. reflexivity.
Qed.

Lemma X19_rejected_request_disarms_cancel_witness :
  isExecuting (Scenario.running 0) = true
  /\ activeCancellationToken (Scenario.running 0) = Some 0%nat
  /\ exists tab',
      handleMessage (Sample.quiet None) (EXECUTE_PLAN (Some Scenario.enrol_plan))
        (set_tab_token (Some 0%nat) Scenario.tab0) (Scenario.running 0)
      = (Returned (EXECUTION_RESULT (rejected_result 3)), tab', Scenario.running 0)
      /\ handleMessage (Sample.quiet None) CANCEL_EXECUTION tab' (Scenario.running 0)
         = (Returned (ERROR "No active execution to cancel"), tab', Scenario.running 0).
Proof.
  split; [reflexivity|]. split; [reflexivity|].
  destruct (X19_rejected_request_disarms_cancel (Sample.quiet None)
              (set_tab_token (Some 0%nat) Scenario.tab0) (Scenario.running 0)
              Scenario.manifest1 Scenario.enrol_plan eq_refl eq_refl)
    as (tab' & E & _ & C).
  exists tab'. split; [exact E | exact C].
Defined.

(** X20.  A cancel request in the hand-off window.  Let an
    [EXECUTE_PLAN] message be answered with a navigating result, no
    cancel request having been served during the run.  The content
    script then still holds the token of the run, while the engine has
    dropped it.  A [CANCEL_EXECUTION] message is therefore answered
    with the success "Execution cancelled", yet it cancels nothing and
    leaves the world as it is: the slot still holds the plan, with status
    [executing] and its cursor after the navigation step, and the next
    [checkPendingExecution], in any context that sees the slot, hands
    it over for resumption. *)
Theorem X20_cancel_after_handoff_cancels_nothing env tab w p r tab1 w1 :
  isExecuting w = false ->
  handleMessage env (EXECUTE_PLAN (Some p)) tab w
  = (Returned (EXECUTION_RESULT r), tab1, w1) ->
  navigating r = true ->
  isCancelled (tokens_created tab) w1 = false ->
  tab_token tab1 = Some (tokens_created tab)
  /\ activeCancellationToken w1 = None
  /\ handleMessage env CANCEL_EXECUTION tab1 w1
     = (Returned (SUCCESS "Execution cancelled"), set_tab_token None tab1, w1)
  /\ exists state,
      storage w1 !! EXECUTION_STATE_KEY = Some state
      /\ status (plan state) = executing
      /\ currentStep (plan state) = completedSteps r
      /\ steps (plan state) = steps p
      /\ forall env2 wn,
          storage wn !! EXECUTION_STATE_KEY = storage w1 !! EXECUTION_STATE_KEY ->
          exists w2, checkPendingExecution env2 wn = (Returned (Some state), w2).
Proof.
  intros Hlock H Hnav Hfresh. unfold handleMessage, createCancellationToken in H.
  destruct (cachedManifest w) as [m|] eqn:Hm.
  2:{ unfold executePlan, getManifest in H.
      rewrite (bind_returned _ _ w None w) in H by (unfold gets; congruence).
      simpl in H. injection H as <- _ _. discriminate Hnav. }
  rewrite (executePlan_loaded _ _ _ _ _ _ Hm) in H.
  match type of H with
  | context [executeFromStep _ ?q _ _ ?t _] =>
      destruct (executeFromStep_outcome env m q true t w Hlock ltac:(simpl; lia))
        as (r0 & p' & w' & E & _ & _ & Hend)
  end.
  rewrite E in H. injection H as <- <- <-.
  rewrite Hfresh, Hnav.
  destruct Hend as [Hc | [Hn | [held Hc]]].
  - destruct Hc as (_ & _ & Hc & _). congruence.
  - destruct Hn as (_ & _ & _ & _ & _ & n2 & (t & n3) & _ & n5).
    split; [reflexivity|]. split; [exact n5|]. split.
    + unfold handleMessage. simpl tab_token. cbv iota.
      unfold cancelActiveExecution. rewrite n5. reflexivity.
    + eexists. split; [exact n3|]. subst p'. simpl.
      split; [reflexivity|]. split; [reflexivity|]. split; [reflexivity|].
      intros env2 wn Hslot. rewrite n3 in Hslot.
      destruct (checkPendingExecution_found env2 wn _ Hslot eq_refl) as (w2 & C & _).
      exists w2. exact C.
  - destruct Hc as (_ & _ & _ & Hc & _). congruence.
Qed.

Lemma X20_cancel_after_handoff_cancels_nothing_witness :
  isExecuting Scenario.home = false
  /\ exists r tab1 w1,
      handleMessage (Sample.quiet None) (EXECUTE_PLAN (Some Scenario.enrol_plan))
        Scenario.tab0 Scenario.home
      = (Returned (EXECUTION_RESULT r), tab1, w1)
      /\ navigating r = true
      /\ handleMessage (Sample.quiet None) CANCEL_EXECUTION tab1 w1
         = (Returned (SUCCESS "Execution cancelled"), set_tab_token None tab1, w1)
      /\ exists state,
          storage w1 !! EXECUTION_STATE_KEY = Some state
          /\ currentStep (plan state) = 2%nat.
Proof.
  split; [reflexivity|].
  destruct (handleMessage (Sample.quiet None) (EXECUTE_PLAN (Some Scenario.enrol_plan))
              Scenario.tab0 Scenario.home) as [[[resp | e] tab1] w1] eqn:H;
    [|vm_compute in H; discriminate H].
  destruct resp as [| | | r | |]; try (vm_compute in H; discriminate H).
  assert (Hfacts : navigating r = true /\ completedSteps r = 2%nat
                   /\ isCancelled (tokens_created Scenario.tab0) w1 = false).
  { vm_compute in H. injection H as <- _ <-. repeat split; reflexivity. }
  destruct Hfacts as (Hnav & Hdone & Hfresh).
  destruct (X20_cancel_after_handoff_cancels_nothing (Sample.quiet None) Scenario.tab0
              Scenario.home Scenario.enrol_plan r tab1 w1 eq_refl H Hnav Hfresh)
    as (_ & _ & C & state & S1 & _ & S3 & _).
  exists r, tab1, w1. split; [reflexivity|]. split; [exact Hnav|]. split; [exact C|].
  exists state. split; [exact S1|]. rewrite S3. exact Hdone.
Defined.

Lemma wait_frame env ms w :
  exists w1,
    wait env ms w = (Returned tt, w1)
    /\ isExecuting w1 = isExecuting w
    /\ cachedManifest w1 = cachedManifest w
    /\ storage w1 = storage w
    /\ progress w1 = progress w.
Proof.
  pose proof (keeps_wait env ms w) as K. rewrite (wait_returns env ms w) in K |- *.
  destruct K as (k1 & _ & k3 & k4 & k5). eexists. split; [reflexivity|].
  simpl in *. repeat split; assumption.
Qed.

Lemma loadManifest_nothing_found env sources w :
  cachedManifest w = None ->
  injected sources = None ->
  script_tag sources = None \/ script_tag sources = Some None ->
  fetched sources = None ->
  exists w1,
    loadManifest env sources w = (Returned None, w1)
    /\ isExecuting w1 = isExecuting w
    /\ cachedManifest w1 = None
    /\ storage w1 = storage w
    /\ progress w1 = progress w.
Proof.
  intros Hc Hi Hs Hf. destruct (wait_frame env 0 w) as (w1 & W & f1 & f2 & f3 & f4).
  exists w1. split.
  - unfold loadManifest.
    rewrite (bind_returned _ _ w None w) by (unfold gets; congruence).
    rewrite Hi, Hf. cbv zeta.
    assert (Hearly : match script_tag sources with
                     | Some parsed => parsed
                     | None => None
                     end = None) by (destruct Hs as [-> | ->]; reflexivity).
    rewrite Hearly. unfold wait in W.
    rewrite (bind_returned _ _ w None w1); [reflexivity|].
    rewrite (bind_returned _ _ _ _ _ W). reflexivity.
  - repeat split; congruence.
Qed.

(** X21.  A pending plan is dropped where no manifest is found.  When
    the content script starts on a page for which no manifest is cached
    and none is injected, embedded or served, and the slot holds a plan
    with status [executing], [initialize] takes the plan out of the slot
    and then gives up: it returns without running a step, the observer
    hears nothing, and the plan is gone, although the run that persisted
    it had reported success.  [checkUrlChange] does the same after a
    change of the address when no manifest is cached. *)
Theorem X21_pending_plan_is_dropped_without_a_manifest env sources href tab w state :
  cachedManifest w = None ->
  resumeInProgress tab = false ->
  storage w !! EXECUTION_STATE_KEY = Some state ->
  status (plan state) = executing ->
  (injected sources = None ->
   script_tag sources = None \/ script_tag sources = Some None ->
   fetched sources = None ->
   exists w',
     initialize env sources tab w = (Returned tt, tab, w')
     /\ storage w' !! EXECUTION_STATE_KEY = None
     /\ progress w' = progress w
     /\ isExecuting w' = isExecuting w)
  /\ (href <> lastUrl tab ->
      exists w',
        checkUrlChange env href tab w = (Returned tt, set_lastUrl href tab, w')
        /\ storage w' !! EXECUTION_STATE_KEY = None
        /\ progress w' = progress w
        /\ isExecuting w' = isExecuting w).
Proof.
  intros Hc Hr Hslot Hstatus. split.
  - intros Hi Hs Hf.
    destruct (loadManifest_nothing_found env sources w Hc Hi Hs Hf)
      as (w1 & L & l1 & l2 & l3 & l4).
    destruct (checkPendingExecution_found env w1 state) as (w2 & C & c1 & c2 & c3 & _ & c5);
      [congruence | exact Hstatus |].
    exists w2. split.
    + unfold initialize. rewrite L, Hr, C. reflexivity.
    + repeat split; congruence.
  - intros Hne.
    destruct (wait_frame env 1000 w) as (w1 & W & f1 & f2 & f3 & f4).
    destruct (checkPendingExecution_found env w1 state) as (w2 & C & c1 & c2 & c3 & _ & c5);
      [congruence | exact Hstatus |].
    exists w2. split.
    + unfold checkUrlChange.
      assert (Hneq : String.eqb href (lastUrl tab) = false) by (apply String.eqb_neq; exact Hne).
      rewrite Hneq. simpl resumeInProgress. rewrite Hr, W, C.
      assert (Hm2 : cachedManifest w2 = None) by congruence.
      rewrite Hm2. reflexivity.
    + repeat split; congruence.
Qed.

Lemma X21_pending_plan_is_dropped_without_a_manifest_witness :
  storage (set_cachedManifest None Sample.world_with_state) !! EXECUTION_STATE_KEY
  = Some Sample.pending_state
  /\ exists w',
      initialize (Sample.quiet None) Scenario.no_sources Scenario.tab0
        (set_cachedManifest None Sample.world_with_state)
      = (Returned tt, Scenario.tab0, w')
      /\ storage w' !! EXECUTION_STATE_KEY = None
      /\ progress w' = [].
Proof.
  split; [reflexivity|].
  destruct (proj1 (X21_pending_plan_is_dropped_without_a_manifest (Sample.quiet None)
                     Scenario.no_sources "http://app.test/students" Scenario.tab0
                     (set_cachedManifest None Sample.world_with_state) Sample.pending_state
                     eq_refl eq_refl eq_refl eq_refl)
              eq_refl (or_introl eq_refl) eq_refl) as (w' & E & S & P & _).
  exists w'. split; [exact E|]. split; [exact S | exact P].
Defined.

(** X22.  The content script resumes a pending plan after a change of
    the address, and only then.  While the address is the one seen
    last, [checkUrlChange] does nothing at all, so a plan left in the
    slot by a hand-off stays there.  When the address has changed, no
    resume is in progress, a manifest is cached, the lock is free and
    the slot holds a plan with status [executing] whose cursor lies
    within it, [checkUrlChange] waits, takes the plan out of the slot
    and resumes it under a token of its own making; it returns once the
    run has returned, with the new address remembered, no resume in
    progress and no token held; the run reports the plan's length as
    [totalSteps] and does not complete fewer steps than the cursor
    says. *)
Theorem X22_address_change_resumes_the_pending_plan env href tab w m state :
  (href = lastUrl tab -> checkUrlChange env href tab w = (Returned tt, tab, w))
  /\ (href <> lastUrl tab ->
      resumeInProgress tab = false ->
      cachedManifest w = Some m ->
      isExecuting w = false ->
      storage w !! EXECUTION_STATE_KEY = Some state ->
      status (plan state) = executing ->
      (currentStep (plan state) <= length (steps (plan state)))%nat ->
      exists w2 r p' w',
        checkUrlChange env href tab w
        = (Returned tt,
           {| tab_token := None; resumeInProgress := false; lastUrl := href;
              tokens_created := S (tokens_created tab) |},
           w')
        /\ storage w2 !! EXECUTION_STATE_KEY = None
        /\ resumeExecution env state true (Some (tokens_created tab)) w2
           = (Returned (r, p'), w')
        /\ totalSteps r = length (steps (plan state))
        /\ (currentStep (plan state) <= completedSteps r <= length (steps (plan state)))%nat
        /\ (navigating r = false -> storage w' !! EXECUTION_STATE_KEY = None)).
Proof.
  split.
  - intros ->. unfold checkUrlChange. rewrite String.eqb_refl. reflexivity.
  - intros Hne Hr Hm Hlock Hslot Hstatus Hcur.
    destruct (wait_frame env 1000 w) as (w1 & W & f1 & f2 & f3 & f4).
    destruct (checkPendingExecution_found env w1 state) as (w2 & C & c1 & c2 & c3 & _ & c5);
      [congruence | exact Hstatus |].
    assert (Hm2 : cachedManifest w2 = Some m) by congruence.
    assert (Hlock2 : isExecuting w2 = false) by congruence.
    destruct (executeFromStep_outcome env m (plan state) true (Some (tokens_created tab)) w2
                Hlock2 Hcur) as (r & p' & w' & E & h1 & h2 & h3).
    assert (R : resumeExecution env state true (Some (tokens_created tab)) w2
                = (Returned (r, p'), w')).
    { rewrite (resumeExecution_loaded _ _ _ _ _ _ Hm2). exact E. }
    exists w2, r, p', w'. split.
    + unfold checkUrlChange.
      assert (Hneq : String.eqb href (lastUrl tab) = false) by (apply String.eqb_neq; exact Hne).
      rewrite Hneq. simpl resumeInProgress. rewrite Hr, W, C, Hm2.
      unfold resume_with_new_token, createCancellationToken.
      match goal with
      | |- context [resumeExecution env state true ?t w2] =>
          change (resumeExecution env state true t w2)
            with (resumeExecution env state true (Some (tokens_created tab)) w2)
      end.
      rewrite R. reflexivity.
    + split; [exact c1|]. split; [exact R|]. split; [exact h1|]. split; [exact h2|].
      intros Hnav. destruct h3 as [Hc | [Hn | [held Hc]]].
      * apply Hc.
      * destruct Hn as (_ & Hn & _). congruence.
      * apply Hc.
Qed.

Lemma X22_address_change_resumes_the_pending_plan_witness :
  exists w2 r p' w',
    checkUrlChange (Sample.quiet None) "http://app.test/students" Scenario.tab0
      Sample.world_with_state
    = (Returned tt,
       {| tab_token := None; resumeInProgress := false;
          lastUrl := "http://app.test/students"; tokens_created := 1 |},
       w')
    /\ storage w2 !! EXECUTION_STATE_KEY = None
    /\ resumeExecution (Sample.quiet None) Sample.pending_state true (Some 0%nat) w2
       = (Returned (r, p'), w')
    /\ totalSteps r = 2%nat
    /\ (1 <= completedSteps r <= 2)%nat.
Proof.
  destruct (proj2 (X22_address_change_resumes_the_pending_plan (Sample.quiet None)
                     "http://app.test/students" Scenario.tab0 Sample.world_with_state
                     Sample.manifest0 Sample.pending_state))
    as (w2 & r & p' & w' & E & S & R & T & B & _);
    try reflexivity.
  - discriminate.
  - simpl. lia.
  - exists w2, r, p', w'. split; [exact E|]. split; [exact S|]. split; [exact R|].
    split; [exact T | exact B].
Defined.

(** ** [window.confirm] after delete steps *)

Lemma lost_same w w' :
  windowConfirmStub w' = windowConfirmStub w -> timers w' = timers w ->
  confirm_lost w -> confirm_lost w'.
Proof. unfold confirm_lost. intros -> ->. tauto. Qed.

Lemma stays_ret {A} (a : A) : stays_lost (ret a).
Proof. intros w H. exact H. Qed.

Lemma stays_throw {A} e : stays_lost (@throw A e).
Proof. intros w H. exact H. Qed.

Lemma stays_gets {A} (f : World -> A) : stays_lost (gets f).
Proof. intros w H. exact H. Qed.

Lemma stays_bind {A B} (m : M A) (k : A -> M B) :
  stays_lost m -> (forall a, stays_lost (k a)) -> stays_lost (bind m k).
Proof.
  intros Hm Hk w H. unfold bind. specialize (Hm w H).
  destruct (m w) as [[a | e] w1]; [|exact Hm].
  exact (Hk a w1 Hm).
Qed.

Lemma stays_modify f : spares_confirm f -> stays_lost (modify f).
Proof. intros Hf w H. simpl. destruct (Hf w) as [h1 h2]. exact (lost_same w (f w) h1 h2 H). Qed.

Lemma stays_attempt {A} (m : M A) : stays_lost m -> stays_lost (attempt m).
Proof.
  intros Hm w H. unfold attempt. specialize (Hm w H).
  destruct (m w) as [[a | e] w1]; exact Hm.
Qed.

Lemma stays_try_finally {A} (m : M A) f :
  stays_lost m -> (forall w, confirm_lost w -> confirm_lost (f w)) ->
  stays_lost (try_finally m f).
Proof.
  intros Hm Hf w H. unfold try_finally. specialize (Hm w H).
  destruct (m w) as [o w1]. simpl in *. apply Hf. exact Hm.
Qed.

Lemma stays_throwIfCancelled_opt tok : stays_lost (throwIfCancelled_opt tok).
Proof.
  intros w H. destruct (throwIfCancelled_opt_cases tok w) as [E | E]; rewrite E; exact H.
Qed.

Lemma stays_read {A} h (f : Element -> A) d : stays_lost (read h f d).
Proof. intros w H. exact H. Qed.

Lemma stays_write h f : stays_lost (write h f).
Proof. apply stays_modify. intros w. split; reflexivity. Qed.

Lemma stays_scrollIntoView h : stays_lost (scrollIntoView h).
Proof. apply stays_ret. Qed.

Lemma cancelActiveExecution_confirm w :
  windowConfirmStub (cancelActiveExecution w) = windowConfirmStub w
  /\ timers (cancelActiveExecution w) = timers w.
Proof.
  unfold cancelActiveExecution. destruct (activeCancellationToken w) as [t|];
    [|split; reflexivity].
  unfold cancel. destruct (isCancelled t w); split; reflexivity.
Qed.

Lemma fold_last_true (fired : list (Z * bool)) :
  Forall (fun x : Z * bool => snd x = true) fired ->
  fold_left (fun (_ : bool) (x : Z * bool) => snd x) fired true = true.
Proof.
  induction 1 as [|x l Hx _ IH]; simpl; [reflexivity|].
  rewrite Hx. exact IH.
Qed.

Lemma Forall_filter_keep {A} (P : A -> Prop) (f : A -> bool) l :
  Forall P l -> Forall P (List.filter f l).
Proof.
  intros H. apply List.Forall_forall. intros x Hx. apply filter_In in Hx.
  rewrite List.Forall_forall in H. apply H. tauto.
Qed.

Lemma fire_timers_lost w : confirm_lost w -> confirm_lost (fire_timers w).
Proof.
  intros [Hs Ht]. unfold fire_timers, confirm_lost. simpl. rewrite Hs. split.
  - apply fold_last_true, Forall_filter_keep, Ht.
  - apply Forall_filter_keep, Ht.
Qed.

Section StaysLost.

Variable env : Environment.

Lemma stays_suspend ms : stays_lost (suspend env ms).
Proof.
  intros w H. unfold suspend. simpl snd.
  set (w1 := set_clock _ _ w).
  assert (H1 : confirm_lost w1) by (apply (lost_same w); [reflexivity | reflexivity | exact H]).
  pose proof (fire_timers_lost w1 H1) as H2.
  set (w3 := set_page _ (fire_timers w1)).
  assert (H3 : confirm_lost w3) by (apply (lost_same (fire_timers w1)); [reflexivity | reflexivity | exact H2]).
  destruct (host_cancels env (ticks w)); [|exact H3].
  destruct (cancelActiveExecution_confirm w3) as [c1 c2].
  exact (lost_same w3 _ c1 c2 H3).
Qed.

Lemma stays_wait ms : stays_lost (wait env ms).
Proof. apply stays_suspend. Qed.

Lemma stays_dispatch ev h : stays_lost (dispatch env ev h).
Proof. apply stays_modify. intros w. split; reflexivity. Qed.

Lemma stays_querySelector sel : stays_lost (querySelector env sel).
Proof. intros w H. unfold querySelector. destruct (css_valid env sel); exact H. Qed.

End StaysLost.

Create HintDb stays.
#[export] Hint Resolve stays_ret stays_throw stays_gets stays_throwIfCancelled_opt
  stays_read stays_write stays_scrollIntoView stays_suspend stays_wait stays_dispatch
  stays_querySelector : stays.

Ltac stays_step :=
  cbv zeta;
  match goal with
  | |- stays_lost (bind _ _) => apply stays_bind; [| intros]
  | |- stays_lost (attempt _) => apply stays_attempt
  | |- stays_lost (if ?b then _ else _) => destruct b
  | |- stays_lost (match ?x with _ => _ end) => destruct x
  | |- stays_lost (modify _) => apply stays_modify; intros ?; split; reflexivity
  | |- stays_lost _ => solve [eauto with stays]
  end.

Ltac stays_auto := repeat stays_step.

Section StaysLostEngine.

Variable env : Environment.

Lemma stays_findElement sel : stays_lost (findElement env sel).
Proof. unfold findElement. stays_auto. Qed.

Lemma stays_waitForElement_loop fuel sel startTime timeout :
  stays_lost (waitForElement_loop env fuel sel startTime timeout).
Proof.
  induction fuel as [|fuel IH]; simpl; [apply stays_ret|].
  unfold Date_now. stays_auto; try exact IH. apply stays_findElement.
Qed.

Lemma stays_waitForElement sel timeout : stays_lost (waitForElement env sel timeout).
Proof.
  unfold waitForElement, Date_now. apply stays_bind; [apply stays_gets|].
  intros t. apply stays_waitForElement_loop.
Qed.

Lemma stays_probe sel : stays_lost (probe env sel).
Proof. unfold probe. stays_auto. Qed.

Lemma stays_waitForEither_loop fuel s e startTime timeout :
  stays_lost (waitForEither_loop env fuel s e startTime timeout).
Proof.
  induction fuel as [|fuel IH]; simpl; [apply stays_ret|].
  unfold Date_now. stays_auto; try exact IH; apply stays_probe.
Qed.

Lemma stays_waitForEither s e timeout : stays_lost (waitForEither env s e timeout).
Proof.
  unfold waitForEither, Date_now. apply stays_bind; [apply stays_gets|].
  intros t. apply stays_waitForEither_loop.
Qed.

Lemma stays_type_chars tok h chars : stays_lost (type_chars env tok h chars).
Proof.
  induction chars as [|c chars IH]; simpl; [apply stays_ret|].
  unfold setInputValue. stays_auto; try exact IH.
Qed.

Lemma stays_find_row_attempts n searchText tok :
  stays_lost (find_row_attempts env n searchText tok).
Proof.
  induction n as [|n IH]; simpl; [apply stays_ret|].
  stays_auto; try exact IH.
Qed.

#[local] Hint Resolve stays_findElement stays_waitForElement stays_waitForEither stays_probe
  stays_type_chars stays_find_row_attempts : stays.

Lemma stays_await_appearance step msg : stays_lost (await_appearance env step msg).
Proof. unfold await_appearance. stays_auto. Qed.

#[local] Hint Resolve stays_await_appearance : stays.

(** the delete branch of [executeFindRow] asks for the restore of what
    it found installed: the stand-in *)
Lemma stays_executeFindRow step ents tok : stays_lost (executeFindRow env step ents tok).
Proof.
  unfold executeFindRow, mark, unmark.
  apply stays_bind; [apply stays_throwIfCancelled_opt|]. intros _. cbv zeta.
  destruct (negb _); [apply stays_ret|].
  apply stays_bind; [apply stays_wait|]. intros _.
  apply stays_bind; [apply stays_throwIfCancelled_opt|]. intros _.
  apply stays_bind; [apply stays_find_row_attempts|]. intros [row|]; [|apply stays_ret].
  apply stays_bind; [apply stays_write|]. intros _.
  apply stays_bind; [apply stays_scrollIntoView|]. intros _.
  apply stays_bind; [apply stays_wait|]. intros _.
  apply stays_bind; [apply stays_throwIfCancelled_opt|]. intros _.
  apply stays_bind; [apply stays_gets|]. intros [btn|]; [|stays_auto].
  cbv zeta. intros w H. unfold bind at 1, gets at 1.
  pose proof (proj1 H) as Hs. rewrite Hs. clear Hs.
  revert w H.
  change (stays_lost
            ((if String.eqb (Js.or_else (action step) "edit") "delete"
                 || String.eqb (Js.or_else (action step) "edit") "remove"
              then modify (fun w => set_confirm true (timers w) w) else ret tt) ;;
             try_finally
               (write (node_id btn) (Dom.classList_add GHOST_CLASS) ;;
                wait env ACTION_DELAY ;;
                throwIfCancelled_opt tok ;;
                dispatch env EvClick (node_id btn) ;;
                wait env ACTION_DELAY ;;
                write (node_id btn) (Dom.classList_remove GHOST_CLASS) ;;
                write (node_id row) (Dom.classList_remove GHOST_CLASS))
               (fun w =>
                  if String.eqb (Js.or_else (action step) "edit") "delete"
                     || String.eqb (Js.or_else (action step) "edit") "remove"
                  then set_confirm (windowConfirmStub w)
                         (timers w ++ [((now w + 2000)%Z, true)]) w
                  else w) ;;
             await_appearance env step
               ("Expected element did not appear after "
                ++ Js.or_else (action step) "edit" ++ ": "))).
  apply stays_bind.
  { destruct (_ || _); [|apply stays_ret].
    intros w [Hs Ht]. split; [reflexivity | exact Ht]. }
  intros _. apply stays_bind; [|intros _; apply stays_await_appearance].
  apply stays_try_finally; [stays_auto|].
  intros w [Hs Ht]. destruct (_ || _); [|split; assumption].
  split; [exact Hs|]. simpl. apply Forall_app. split; [exact Ht|].
  constructor; [reflexivity | constructor].
Qed.

Lemma stays_executeStep step manifest p tok :
  stays_lost (executeStep env step manifest p tok).
Proof.
  unfold executeStep. apply stays_bind; [apply stays_throwIfCancelled_opt|]. intros _.
  destruct (type step).
  - unfold executeNavigate, getCurrentRoute, mark, unmark. stays_auto.
  - unfold executeClick, mark, unmark. stays_auto.
  - stays_auto.
  - unfold executeFill, mark, unmark, setInputValue. stays_auto.
  - unfold executeSelect, choose_option, mark, unmark. stays_auto.
  - unfold executeCheck, mark, unmark. stays_auto.
  - unfold executeSubmit, awaitSubmitOutcome, mark, unmark. stays_auto.
  - apply stays_ret.
  - apply stays_executeFindRow.
  - apply stays_ret.
Qed.

Lemma stays_clearExecutionState : stays_lost (clearExecutionState env).
Proof. unfold clearExecutionState. stays_auto. Qed.

Lemma stays_saveExecutionState state : stays_lost (saveExecutionState env state).
Proof. unfold saveExecutionState. stays_auto. Qed.

Lemma stays_clearGhostHighlights : stays_lost clearGhostHighlights.
Proof. unfold clearGhostHighlights. stays_auto. Qed.

Lemma stays_checkPendingExecution : stays_lost (checkPendingExecution env).
Proof.
  unfold checkPendingExecution, loadExecutionState.
  stays_auto; apply stays_clearExecutionState.
Qed.

#[local] Hint Resolve stays_executeStep stays_clearExecutionState stays_saveExecutionState
  stays_clearGhostHighlights : stays.

Lemma stays_loop_body manifest p onProgress tok step c errs :
  stays_lost (loop_body env manifest p onProgress tok step c errs).
Proof.
  unfold loop_body, try_step, on_cancel_in_step, report, Date_now. stays_auto.
Qed.

Lemma stays_run_loop manifest p onProgress tok rest :
  forall c errs, stays_lost (run_loop env manifest p onProgress tok rest c errs).
Proof.
  induction rest as [|step rest IH]; intros c errs; simpl; [apply stays_ret|].
  apply stays_bind; [apply stays_loop_body|].
  intros [errs' | exit]; [apply IH | apply stays_ret].
Qed.

Lemma stays_executeFromStep p manifest onProgress tok :
  stays_lost (executeFromStep env p manifest onProgress tok).
Proof.
  unfold executeFromStep, take_lock.
  apply stays_bind; [apply stays_gets|]. intros locked.
  destruct locked; [apply stays_ret|].
  apply stays_bind; [stays_auto|]. intros _.
  apply stays_bind; [apply stays_run_loop|]. intros exit.
  unfold conclude. stays_auto.
Qed.

End StaysLostEngine.

Lemma stays_serve env reqs :
  forall w, confirm_lost w -> confirm_lost (snd (serve env reqs w)).
Proof.
  induction reqs as [|req reqs IH]; intros w H; [exact H|].
  destruct req as [p onProgress tok | state onProgress tok | | ms]; simpl.
  - pose proof (fun m => stays_executeFromStep env (set_currentStep 0 (set_status executing p))
                           m onProgress tok w H) as Hrun.
    assert (H1 : confirm_lost (snd (executePlan env p onProgress tok w))).
    { unfold executePlan, getManifest, bind, gets. destruct (cachedManifest w) as [m|];
        [apply Hrun | exact H]. }
    destruct (executePlan env p onProgress tok w) as [o w1]. simpl in H1.
    specialize (IH w1 H1). destruct (serve env reqs w1) as [os w2]. exact IH.
  - assert (H1 : confirm_lost (snd (resumeExecution env state onProgress tok w))).
    { unfold resumeExecution, getManifest. unfold bind at 1, gets.
      destruct (cachedManifest w) as [m|].
      - apply stays_executeFromStep. exact H.
      - apply (stays_bind (clearExecutionState env) (fun _ => ret (no_manifest_result, plan state)));
          [apply stays_clearExecutionState | intros _; apply stays_ret | exact H]. }
    destruct (resumeExecution env state onProgress tok w) as [o w1]. simpl in H1.
    specialize (IH w1 H1). destruct (serve env reqs w1) as [os w2]. exact IH.
  - apply IH, stays_checkPendingExecution, H.
  - apply IH, stays_suspend, H.
Qed.

(** X23.  A delete step replaces [window.confirm] by a stand-in that
    accepts everything and asks for the restore, two seconds later, of
    whatever it found installed.  A delete step that finds the stand-in
    of an earlier one installed, because that restore has not fired
    yet, asks for the restore of the stand-in.  Once the stand-in is
    installed and every pending restore puts a stand-in back, nothing
    the engine does brings the page's own [window.confirm] back: the
    state persists through any sequence of runs of [executePlan] and
    [resumeExecution], of calls of [checkPendingExecution] and of
    waiting.  Two delete steps in a row reach that state. *)
Theorem X23_a_lost_confirm_is_never_restored env w :
  confirm_lost w ->
  (forall reqs,
      confirm_lost (snd (serve env reqs w))
      /\ windowConfirmStub (snd (serve env reqs w)) = true)
  /\ (forall step ents tok, confirm_lost (snd (executeFindRow env step ents tok w))).
Proof.
  intros H. split.
  - intros reqs. pose proof (stays_serve env reqs w H) as S. split; [exact S | apply S].
  - intros step ents tok. apply stays_executeFindRow. exact H.
Qed.

Lemma X23_a_lost_confirm_is_never_restored_witness :
  windowConfirmStub Scenario.records_world = false
  /\ timers Scenario.records_world = []
  /\ exists r p' w1,
      executePlan Scenario.browser Scenario.purge_plan false None Scenario.records_world
      = (Returned (r, p'), w1)
      /\ success r = true
      /\ confirm_lost (snd (suspend Scenario.browser 5000 w1))
      /\ windowConfirmStub
           (snd (serve Scenario.browser
                   [Pause 60000; StartPlan Sample.empty_plan false None]
                   (snd (suspend Scenario.browser 5000 w1))))
         = true.
Proof.
  split; [reflexivity|]. split; [reflexivity|].
  destruct (executePlan Scenario.browser Scenario.purge_plan false None
              Scenario.records_world) as [[[r p'] | e] w1] eqn:E;
    [|vm_compute in E; discriminate E].
  assert (Hfacts : success r = true
                   /\ windowConfirmStub (snd (suspend Scenario.browser 5000 w1)) = true
                   /\ timers (snd (suspend Scenario.browser 5000 w1)) = []).
  { vm_compute in E. injection E as <- _ <-. repeat split; reflexivity. }
  destruct Hfacts as (Hr & Hs & Ht).
  assert (Hlost : confirm_lost (snd (suspend Scenario.browser 5000 w1))).
  { split; [exact Hs|]. rewrite Ht. constructor. }
  exists r, p', w1. split; [reflexivity|]. split; [exact Hr|]. split; [exact Hlost|].
  apply (proj1 (X23_a_lost_confirm_is_never_restored Scenario.browser _ Hlost)).
Defined.

(** ** [window.confirm] after one delete step *)

Section Preserves.

Variable env : Environment.
Variable I : World -> Prop.
Hypothesis I_about : about_confirm I.
Hypothesis I_suspend : forall ms, preserves I (suspend env ms).

Lemma pres_ret {A} (a : A) : preserves I (ret a).
Proof. intros w H. exact H. Qed.

Lemma pres_gets {A} (f : World -> A) : preserves I (gets f).
Proof. intros w H. exact H. Qed.

Lemma pres_bind {A B} (m : M A) (k : A -> M B) :
  preserves I m -> (forall a, preserves I (k a)) -> preserves I (bind m k).
Proof.
  intros Hm Hk w H. unfold bind. specialize (Hm w H).
  destruct (m w) as [[a | e] w1]; [|exact Hm].
  exact (Hk a w1 Hm).
Qed.

Lemma pres_throwIfCancelled_opt tok : preserves I (throwIfCancelled_opt tok).
Proof.
  intros w H. destruct (throwIfCancelled_opt_cases tok w) as [E | E]; rewrite E; exact H.
Qed.

Lemma pres_write h f : preserves I (write h f).
Proof. intros w H. simpl. apply (I_about w); [reflexivity | reflexivity | reflexivity | exact H]. Qed.

Lemma pres_dispatch ev h : preserves I (dispatch env ev h).
Proof. intros w H. simpl. apply (I_about w); [reflexivity | reflexivity | reflexivity | exact H]. Qed.

Lemma pres_querySelector sel : preserves I (querySelector env sel).
Proof. intros w H. unfold querySelector. destruct (css_valid env sel); exact H. Qed.

Lemma pres_findElement sel : preserves I (findElement env sel).
Proof.
  unfold findElement. destruct (Js.startsWith sel "label:");
    [apply pres_gets | apply pres_querySelector].
Qed.

Lemma pres_waitForElement_loop fuel sel startTime timeout :
  preserves I (waitForElement_loop env fuel sel startTime timeout).
Proof.
  induction fuel as [|fuel IH]; simpl; [apply pres_ret|].
  apply pres_bind; [apply pres_gets|]. intros t.
  destruct (t - startTime <? timeout)%Z; [|apply pres_ret].
  apply pres_bind; [apply pres_findElement|]. intros [el|]; [apply pres_ret|].
  apply pres_bind; [apply I_suspend|]. intros _. exact IH.
Qed.

Lemma pres_await_appearance step msg : preserves I (await_appearance env step msg).
Proof.
  unfold await_appearance. destruct (Js.truthy_opt (waitFor step)); [|apply pres_ret].
  apply pres_bind.
  - unfold waitForElement. apply pres_bind; [apply pres_gets|].
    intros t. apply pres_waitForElement_loop.
  - intros [el|]; apply pres_ret.
Qed.

Lemma pres_find_row_attempts n searchText tok :
  preserves I (find_row_attempts env n searchText tok).
Proof.
  induction n as [|n IH]; simpl; [apply pres_ret|].
  apply pres_bind; [apply pres_gets|]. intros [row|]; [apply pres_ret|].
  apply pres_bind; [apply I_suspend|]. intros _.
  apply pres_bind; [apply pres_throwIfCancelled_opt|]. intros _. exact IH.
Qed.

(** the click of [executeFindRow], between the two highlights *)
Lemma pres_click tok bh rh :
  preserves I
    (mark bh ;;
     wait env ACTION_DELAY ;;
     throwIfCancelled_opt tok ;;
     dispatch env EvClick bh ;;
     wait env ACTION_DELAY ;;
     unmark bh ;;
     unmark rh).
Proof.
  unfold mark, unmark, wait.
  repeat (apply pres_bind; [first [apply pres_write | apply I_suspend
                                  | apply pres_throwIfCancelled_opt | apply pres_dispatch]
                           | intros _]).
  apply pres_write.
Qed.

End Preserves.

Lemma about_confirm_clean : about_confirm confirm_clean.
Proof. intros w w' Hs Ht _. unfold confirm_clean. rewrite Hs, Ht. tauto. Qed.

Lemma about_confirm_armed : about_confirm confirm_armed.
Proof. intros w w' Hs Ht _. unfold confirm_armed. rewrite Hs, Ht. tauto. Qed.

Lemma about_confirm_restoring : about_confirm confirm_restoring.
Proof.
  intros w w' Hs Ht Hn. unfold confirm_restoring, confirm_clean. rewrite Hs, Ht, Hn. tauto.
Qed.

Lemma suspend_world env ms w :
  exists w3,
    snd (suspend env ms w) = w3
    /\ windowConfirmStub w3
       = fold_left (fun (_ : bool) (x : Z * bool) => snd x)
           (List.filter (due (now w + Z.max 0 ms + Z.of_nat (timer_late env (ticks w))))
              (timers w))
           (windowConfirmStub w)
    /\ timers w3
       = List.filter
           (fun x => negb (due (now w + Z.max 0 ms + Z.of_nat (timer_late env (ticks w))) x))
           (timers w)
    /\ now w3 = (now w + Z.max 0 ms + Z.of_nat (timer_late env (ticks w)))%Z.
Proof.
  eexists. split; [reflexivity|]. unfold suspend. simpl snd.
  destruct (host_cancels env (ticks w)).
  - match goal with
    | |- context [cancelActiveExecution ?x] =>
        destruct (cancelActiveExecution_confirm x) as [c1 c2];
        rewrite c1, c2, now_cancelActiveExecution
    end.
    repeat split.
  - repeat split.
Qed.

Lemma suspend_clean env ms : preserves confirm_clean (suspend env ms).
Proof.
  intros w [Hs Ht]. destruct (suspend_world env ms w) as (w3 & -> & s1 & s2 & _).
  split; [rewrite s1, Ht, Hs; reflexivity | rewrite s2, Ht; reflexivity].
Qed.

Lemma suspend_armed env ms : preserves confirm_armed (suspend env ms).
Proof.
  intros w [Hs Ht]. destruct (suspend_world env ms w) as (w3 & -> & s1 & s2 & _).
  split; [rewrite s1, Ht, Hs; reflexivity | rewrite s2, Ht; reflexivity].
Qed.

Lemma suspend_restoring env ms : preserves confirm_restoring (suspend env ms).
Proof.
  intros w [Hc | (t & Ht & Hdue)].
  - left. apply suspend_clean. exact Hc.
  - destruct (suspend_world env ms w) as (w3 & -> & s1 & s2 & s3).
    rewrite Ht in s1, s2. simpl in s1, s2. unfold due in s1, s2. simpl fst in s1, s2.
    destruct (t <=? now w + Z.max 0 ms + Z.of_nat (timer_late env (ticks w)))%Z eqn:D.
    + left. split; [exact s1 | exact s2].
    + right. exists t. split; [exact s2|]. rewrite s3. lia.
Qed.

(** the restore comes due within two seconds of waiting *)
Lemma restoring_restored env ms w :
  confirm_restoring w -> (2000 <= ms)%Z -> confirm_clean (snd (suspend env ms w)).
Proof.
  intros [Hc | (t & Ht & Hdue)] Hms.
  - apply suspend_clean. exact Hc.
  - destruct (suspend_world env ms w) as (w3 & -> & s1 & s2 & _).
    rewrite Ht in s1, s2. simpl in s1, s2. unfold due in s1, s2. simpl fst in s1, s2.
    assert (D : (t <=? now w + Z.max 0 ms + Z.of_nat (timer_late env (ticks w)))%Z = true)
      by (apply Z.leb_le; lia).
    rewrite D in s1, s2. split; [exact s1 | exact s2].
Qed.

Lemma moves_bind {A B} (P Q : World -> Prop) (m : M A) (k : A -> M B) :
  (forall w, P w -> Q w) ->
  preserves P m -> (forall a, moves P Q (k a)) -> moves P Q (bind m k).
Proof.
  intros HPQ Hm Hk w H. unfold bind. specialize (Hm w H).
  destruct (m w) as [[a | e] w1]; [exact (Hk a w1 Hm) | exact (HPQ w1 Hm)].
Qed.

Lemma moves_ret {A} (P Q : World -> Prop) (a : A) :
  (forall w, P w -> Q w) -> moves P Q (ret a).
Proof. intros HPQ w H. exact (HPQ w H). Qed.

Lemma clean_restoring w : confirm_clean w -> confirm_restoring w.
Proof. intros H. left. exact H. Qed.

(** the part of [executeFindRow] from the look at [window.confirm] on
    (lines 871-908) *)
Lemma findRow_click_restoring env step tok bh rh w :
  confirm_clean w ->
  confirm_restoring
    (snd ((originalConfirm <- gets windowConfirmStub ;;
           (if String.eqb (Js.or_else (action step) "edit") "delete"
               || String.eqb (Js.or_else (action step) "edit") "remove"
            then modify (fun w => set_confirm true (timers w) w) else ret tt) ;;
           try_finally
             (mark bh ;;
              wait env ACTION_DELAY ;;
              throwIfCancelled_opt tok ;;
              dispatch env EvClick bh ;;
              wait env ACTION_DELAY ;;
              unmark bh ;;
              unmark rh)
             (fun w =>
                if String.eqb (Js.or_else (action step) "edit") "delete"
                   || String.eqb (Js.or_else (action step) "edit") "remove"
                then set_confirm (windowConfirmStub w)
                       (timers w ++ [((now w + 2000)%Z, originalConfirm)]) w
                else w) ;;
           await_appearance env step
             ("Expected element did not appear after "
              ++ Js.or_else (action step) "edit" ++ ": ")) w)).
Proof.
  intros H.
  rewrite (bind_returned _ _ w false w) by (unfold gets; rewrite (proj1 H); reflexivity).
  destruct (String.eqb (Js.or_else (action step) "edit") "delete"
            || String.eqb (Js.or_else (action step) "edit") "remove").
  - rewrite (bind_returned _ _ w tt (set_confirm true (timers w) w)) by reflexivity.
    set (w1 := set_confirm true (timers w) w).
    assert (H1 : confirm_armed w1) by (split; [reflexivity | apply H]).
    pose proof (pres_click env confirm_armed about_confirm_armed (suspend_armed env)
                  tok bh rh w1 H1) as H2.
    unfold bind at 1, try_finally.
    destruct ((mark bh ;; wait env ACTION_DELAY ;; throwIfCancelled_opt tok ;;
               dispatch env EvClick bh ;; wait env ACTION_DELAY ;; unmark bh ;; unmark rh) w1)
      as [o w2]. simpl in H2.
    assert (H3 : confirm_restoring
                   (set_confirm (windowConfirmStub w2)
                      (timers w2 ++ [((now w2 + 2000)%Z, false)]) w2)).
    { right. exists (now w2 + 2000)%Z. simpl.
      rewrite (proj2 H2). split; [reflexivity | lia]. }
    destruct o as [[] | e]; [|exact H3].
    apply (pres_await_appearance env confirm_restoring (suspend_restoring env)). exact H3.
  - rewrite (bind_returned _ _ w tt w) by reflexivity.
    pose proof (pres_click env confirm_clean about_confirm_clean (suspend_clean env)
                  tok bh rh w H) as H2.
    unfold bind at 1, try_finally.
    destruct ((mark bh ;; wait env ACTION_DELAY ;; throwIfCancelled_opt tok ;;
               dispatch env EvClick bh ;; wait env ACTION_DELAY ;; unmark bh ;; unmark rh) w)
      as [o w2]. simpl in H2.
    destruct o as [[] | e]; [|left; exact H2].
    apply (pres_await_appearance env confirm_restoring (suspend_restoring env)). left. exact H2.
Qed.

Lemma findRow_clean_restoring env step ents tok :
  moves confirm_clean confirm_restoring (executeFindRow env step ents tok).
Proof.
  unfold executeFindRow.
  pose proof (suspend_clean env) as Hs.
  pose proof about_confirm_clean as Ha.
  apply moves_bind; [apply clean_restoring | apply pres_throwIfCancelled_opt |]. intros _.
  cbv zeta. destruct (negb _); [apply moves_ret, clean_restoring|].
  apply moves_bind; [apply clean_restoring | apply Hs |]. intros _.
  apply moves_bind; [apply clean_restoring | apply pres_throwIfCancelled_opt |]. intros _.
  apply moves_bind; [apply clean_restoring | apply (pres_find_row_attempts env _ Hs) |].
  intros [row|]; [|apply moves_ret, clean_restoring].
  apply moves_bind; [apply clean_restoring | apply (pres_write _ Ha) |]. intros _.
  apply moves_bind; [apply clean_restoring | apply pres_ret |]. intros _.
  apply moves_bind; [apply clean_restoring | apply Hs |]. intros _.
  apply moves_bind; [apply clean_restoring | apply pres_throwIfCancelled_opt |]. intros _.
  apply moves_bind; [apply clean_restoring | apply pres_gets |].
  intros [btn|].
  - intros w H. apply findRow_click_restoring. exact H.
  - apply moves_bind; [apply clean_restoring | apply (pres_write _ Ha) |]. intros _.
    apply moves_ret, clean_restoring.
Qed.

(** X24.  One delete step gives [window.confirm] back.  Let
    [window.confirm] be the page's own, with no restore pending, when a
    find-row step starts.  However the step ends, found or not, clicked
    or cancelled, for a delete action or any other, it leaves
    [window.confirm] either as the page's own with nothing pending, or
    replaced with exactly one restore of the page's own pending and due
    within two seconds; and after a wait of two seconds or more
    [window.confirm] is the page's own again and nothing is pending. *)
Theorem X24_one_delete_step_gives_confirm_back env step ents tok w :
  windowConfirmStub w = false ->
  timers w = [] ->
  confirm_restoring (snd (executeFindRow env step ents tok w))
  /\ forall ms,
      (2000 <= ms)%Z ->
      windowConfirmStub (snd (suspend env ms (snd (executeFindRow env step ents tok w))))
      = false
      /\ timers (snd (suspend env ms (snd (executeFindRow env step ents tok w)))) = [].
Proof.
  intros Hs Ht.
  assert (H : confirm_restoring (snd (executeFindRow env step ents tok w))).
  { apply findRow_clean_restoring. split; assumption. }
  split; [exact H|].
  intros ms Hms. exact (restoring_restored env ms _ H Hms).
Qed.

Lemma X24_one_delete_step_gives_confirm_back_witness :
  windowConfirmStub Scenario.records_world = false
  /\ timers Scenario.records_world = []
  /\ windowConfirmStub
       (snd (executeFindRow Scenario.browser (Scenario.delete_step "john") ∅ None
               Scenario.records_world))
     = true
  /\ windowConfirmStub
       (snd (suspend Scenario.browser 2000
               (snd (executeFindRow Scenario.browser (Scenario.delete_step "john") ∅ None
                       Scenario.records_world))))
     = false.
Proof.
  split; [reflexivity|]. split; [reflexivity|]. split; [reflexivity|].
  apply (proj2 (X24_one_delete_step_gives_confirm_back Scenario.browser
                  (Scenario.delete_step "john") ∅ None Scenario.records_world
                  eq_refl eq_refl) 2000%Z).
  lia.
Defined.

(** ** What the observer has heard when a run ends *)

Section Announced.

Variable env : Environment.
Variable manifest : GlideManifest.
Variable p : ExecutionPlan.
Variable onProgress : bool.
Variable tok : option CancellationToken.

(** how a pass whose head check passes can leave the loop *)
Lemma loop_body_kind step c errs w b w1 :
  fst (throwIfCancelled_opt tok w) = Returned tt ->
  loop_body env manifest p onProgress tok step c errs w = (Returned b, w1) ->
  match b with
  | Continue _ => True
  | Leave (LoopDone c' errs') => c' = c /\ errs' <> []
  | Leave (LoopReturn r _) =>
      r = navigating_result (c + 1) (length (steps p))
      \/ r = cancelled_result c (length (steps p))
  | Leave (LoopEscape _ _) => False
  end.
Proof.
  intros Hpre B.
  rewrite (loop_body_after_check env manifest p onProgress tok step c errs w Hpre) in B.
  destruct (executeStep env step manifest p tok (reported p onProgress step c w))
    as [[result | e] w2] eqn:X.
  - destruct (needsNavigation result) eqn:N.
    + destruct (try_step_handoff env manifest p tok step c _ _ _ X N) as (w3 & T & _).
      rewrite T in B. injection B as <- _. left. reflexivity.
    + destruct (sr_success result); [injection B as <- _; exact I|].
      destruct (fatal result); injection B as <- _; [|exact I].
      split; [reflexivity | apply snoc_not_nil].
  - destruct (is_cancellation e).
    + destruct (on_cancel_in_step_spec env p c w2) as (w3 & O & _).
      rewrite (bind_returned _ _ _ _ _ O) in B. injection B as <- _. right. reflexivity.
    + injection B as <- _. split; [reflexivity | apply snoc_not_nil].
Qed.

(** the steps announced by the time the loop is left, against the way it
    is left *)
Lemma run_loop_announced rest :
  forall c errs w,
    exists exit w' k,
      run_loop env manifest p onProgress tok rest c errs w = (Returned exit, w')
      /\ (k <= length rest)%nat
      /\ progress w'
         = progress w ++ (if onProgress then notices (length (steps p)) c (firstn k rest)
                          else [])
      /\ match exit with
         | LoopDone c' errs' =>
             (c' = (c + k)%nat /\ k = length rest)
             \/ ((c' + 1)%nat = (c + k)%nat /\ errs' <> [])
         | LoopReturn r _ =>
             r = navigating_result (c + k) (length (steps p))
             \/ exists c', (c' + 1)%nat = (c + k)%nat
                           /\ r = cancelled_result c' (length (steps p))
         | LoopEscape c' e => c' = (c + k)%nat /\ is_cancellation e = true
         end.
Proof.
  induction rest as [|step rest IH]; intros c errs w.
  - exists (LoopDone c errs), w, 0%nat. split; [reflexivity|]. split; [simpl; lia|].
    split; [destruct onProgress; simpl; symmetry; apply app_nil_r|].
    left. simpl. lia.
  - simpl run_loop.
    destruct (throwIfCancelled_opt_cases tok w) as [E|E].
    + assert (Hpre : fst (throwIfCancelled_opt tok w) = Returned tt) by (rewrite E; reflexivity).
      destruct (loop_body_progress env manifest p onProgress tok step c errs w)
        as (b & w1 & B & [(H1 & _) | (_ & H2)]); [contradiction|].
      pose proof (loop_body_kind step c errs w b w1 Hpre B) as K.
      rewrite (bind_returned _ _ _ _ _ B).
      destruct b as [errs' | exit].
      * destruct (IH (S c) errs' w1) as (exit & w' & k & R & Hk & P & Hex).
        exists exit, w', (S k). split; [exact R|]. split; [simpl; lia|]. split.
        { rewrite P, H2. unfold notice. destruct onProgress; simpl.
          - rewrite <- app_assoc. reflexivity.
          - rewrite !app_nil_r. reflexivity. }
        destruct exit as [c' errs2 | r p' | c' e].
        -- destruct Hex as [[h1 h2] | [h1 h2]]; [left | right]; simpl; split;
             try assumption; lia.
        -- destruct Hex as [h | (c' & h1 & h2)].
           ++ left. rewrite h. f_equal. lia.
           ++ right. exists c'. split; [lia | exact h2].
        -- destruct Hex as [h1 h2]. split; [lia | exact h2].
      * exists exit, w1, 1%nat. split; [reflexivity|]. split; [simpl; lia|]. split.
        { rewrite H2. unfold notice. destruct onProgress; reflexivity. }
        destruct exit as [c' errs2 | r p' | c' e].
        -- right. destruct K as [-> K]. split; [reflexivity | exact K].
        -- destruct K as [K | K]; [left; exact K | right; exists c; split; [lia | exact K]].
        -- contradiction.
    + assert (Hb : raised_before_step tok w) by (eexists; rewrite E; reflexivity).
      destruct (loop_body_raised_before env manifest p onProgress tok step c errs w Hb)
        as (msg & B).
      rewrite (bind_returned _ _ _ _ _ B).
      eexists _, w, 0%nat. split; [reflexivity|]. split; [simpl; lia|].
      split; [destruct onProgress; simpl; symmetry; apply app_nil_r|].
      split; [lia | reflexivity].
Qed.

Lemma executeFromStep_announced w :
  isExecuting w = false ->
  exists r p' w' k,
    executeFromStep env p manifest onProgress tok w = (Returned (r, p'), w')
    /\ (k <= length (steps p) - currentStep p)%nat
    /\ progress w'
       = progress w
         ++ (if onProgress
             then notices (length (steps p)) (currentStep p)
                    (firstn k (skipn (currentStep p) (steps p)))
             else [])
    /\ (completedSteps r <= currentStep p + k <= completedSteps r + 1)%nat
    /\ (navigating r = true -> (currentStep p + k)%nat = completedSteps r)
    /\ (success r = true -> (currentStep p + k)%nat = completedSteps r).
Proof.
  intros Hlock.
  rewrite (executeFromStep_unlocked _ _ _ _ _ _ Hlock).
  destruct (take_lock_spec tok w) as (w1 & T & _ & _ & _ & t4 & _).
  rewrite T. simpl snd.
  destruct (run_loop_announced (skipn (currentStep p) (steps p)) (currentStep p) [] w1)
    as (exit & w2 & k & R & Hk & P & Hex).
  rewrite (bind_returned _ _ _ _ _ R).
  rewrite length_skipn in Hk. rewrite t4 in P.
  destruct exit as [c' errs' | r p' | c' e].
  - destruct (conclude_done env p c' errs' w2) as (w' & C & _ & _ & _ & c4).
    rewrite C. eexists _, _, w', k. split; [reflexivity|]. split; [exact Hk|].
    split; [rewrite c4; exact P|].
    destruct (final_result_facts c' (length (steps p)) errs')
      as (_ & f2 & f3 & _ & _ & _ & f7).
    cbv zeta in f2, f3, f7. rewrite f3.
    destruct Hex as [[h1 h2] | [h1 h2]].
    + split; [lia|]. split; intros _; lia.
    + split; [lia|]. split.
      * rewrite f2. discriminate.
      * intros S. apply f7 in S. destruct S as [_ S]. contradiction.
  - simpl conclude. eexists _, _, w2, k. split; [reflexivity|]. split; [exact Hk|].
    split; [exact P|].
    destruct Hex as [-> | (c' & h1 & ->)]; simpl.
    + split; [lia|]. split; reflexivity.
    + split; [lia|]. split; discriminate.
  - destruct Hex as [-> h2]. destruct e as [msg | msg]; [|discriminate].
    destruct (conclude_escape_cancel env p (currentStep p + k) msg w2)
      as (w' & C & _ & _ & _ & _ & c5).
    rewrite C. eexists _, _, w', k. split; [reflexivity|]. split; [exact Hk|].
    split; [rewrite c5; exact P|]. simpl.
    split; [lia|]. split; reflexivity.
Qed.

End Announced.

(** X25.  The observer's log and the result agree.  Where a manifest is
    loaded and the lock is free, a run of [executePlan] or of
    [resumeExecution] has told its observer of the first [k] of the
    steps from the cursor on, each once and in order, numbered from the
    cursor plus one, and of nothing else; the number of the last step
    announced is [completedSteps] or one more.  It is [completedSteps]
    when the result reports success or a navigation; it is one more only
    when the run stopped in the step it had just announced. *)
Theorem X25_observer_and_result_agree env onProgress tok w m :
  cachedManifest w = Some m ->
  isExecuting w = false ->
  (forall p,
      exists r p' w' k,
        executePlan env p onProgress tok w = (Returned (r, p'), w')
        /\ (k <= length (steps p))%nat
        /\ progress w'
           = progress w
             ++ (if onProgress then notices (length (steps p)) 0 (firstn k (steps p))
                 else [])
        /\ (completedSteps r <= k <= completedSteps r + 1)%nat
        /\ (navigating r = true -> k = completedSteps r)
        /\ (success r = true -> k = completedSteps r))
  /\ (forall state,
         exists r p' w' k,
           resumeExecution env state onProgress tok w = (Returned (r, p'), w')
           /\ (k <= length (steps (plan state)) - currentStep (plan state))%nat
           /\ progress w'
              = progress w
                ++ (if onProgress
                    then notices (length (steps (plan state))) (currentStep (plan state))
                           (firstn k (skipn (currentStep (plan state))
                                        (steps (plan state))))
                    else [])
           /\ (completedSteps r <= currentStep (plan state) + k <= completedSteps r + 1)%nat
           /\ (navigating r = true -> (currentStep (plan state) + k)%nat = completedSteps r)
           /\ (success r = true -> (currentStep (plan state) + k)%nat = completedSteps r)).
Proof.
  intros Hm Hlock. split.
  - intros p. rewrite (executePlan_loaded _ _ _ _ _ _ Hm).
    destruct (executeFromStep_announced env m (set_currentStep 0 (set_status executing p))
                onProgress tok w Hlock) as (r & p' & w' & k & E & h1 & h2 & h3 & h4 & h5).
    simpl in h1, h2, h3, h4, h5. rewrite Nat.sub_0_r in h1.
    exists r, p', w', k. repeat split; try assumption; lia.
  - intros state. rewrite (resumeExecution_loaded _ _ _ _ _ _ Hm).
    exact (executeFromStep_announced env m (plan state) onProgress tok w Hlock).
Qed.

Lemma X25_observer_and_result_agree_witness :
  cachedManifest Scenario.home = Some Scenario.manifest1
  /\ isExecuting Scenario.home = false
  /\ exists r p' w' k,
      executePlan (Sample.quiet None) Scenario.enrol_plan true (Some 7%nat) Scenario.home
      = (Returned (r, p'), w')
      /\ progress w'
         = progress Scenario.home
           ++ notices 3 0 (firstn k (steps Scenario.enrol_plan))
      /\ (completedSteps r <= k <= completedSteps r + 1)%nat.
Proof.
  split; [reflexivity|]. split; [reflexivity|].
  destruct (proj1 (X25_observer_and_result_agree (Sample.quiet None) true (Some 7%nat)
                     Scenario.home Scenario.manifest1 eq_refl eq_refl) Scenario.enrol_plan)
    as (r & p' & w' & k & E & _ & h2 & h3 & _).
  exists r, p', w', k. split; [exact E|]. split; [exact h2 | exact h3].
Defined.

(** ** The wait step *)

Lemma digit_of_pretty_char d :
  (d < 10)%N -> digit_of 10 (pretty_N_char d) = Some (N.to_nat d).
Proof.
  intros H.
  destruct d as [|q]; [reflexivity|].
  do 4 (destruct q as [q|q|]; try lia; try reflexivity).
Qed.

Lemma pretty_char_plain d :
  Js.is_ws (pretty_N_char d) = false
  /\ pretty_N_char d <> "-"%char /\ pretty_N_char d <> "+"%char
  /\ pretty_N_char d <> "x"%char /\ pretty_N_char d <> "X"%char.
Proof.
  unfold pretty_N_char.
  repeat case_match; (split; [reflexivity|]); repeat split; discriminate.
Qed.

Lemma prefix_0x_false b c t :
  (t = "" \/ exists c' t', t = String c' t' /\ c' <> b) ->
  Js.startsWith (String c t) (String "0" (String b "")) = false.
Proof.
  intros H. unfold Js.startsWith. cbn [String.prefix].
  destruct (ascii_dec "0" c); [|reflexivity].
  destruct H as [-> | (c' & t' & -> & N)]; [reflexivity|].
  cbn [String.prefix]. destruct (ascii_dec b c'); [congruence | reflexivity].
Qed.

Lemma pretty_go_shape x :
  forall s, (0 < x)%N ->
    exists d t, pretty_N_go x s = String (pretty_N_char d) t
                /\ (t = s \/ exists d' t', t = String (pretty_N_char d') t').
Proof.
  induction x as [x IH] using (well_founded_induction N.lt_wf_0). intros s Hx.
  rewrite pretty_N_go_step by exact Hx.
  destruct (N.eq_dec (N.div x 10%N) 0%N) as [E|E].
  - rewrite E, pretty_N_go_0. eexists _, _. split; [reflexivity|]. left. reflexivity.
  - assert (Hq : (0 < N.div x 10)%N) by (apply N.neq_0_lt_0; exact E).
    destruct (IH (N.div x 10%N) (N.div_lt x 10%N Hx eq_refl)
                (String (pretty_N_char (N.modulo x 10%N)) s) Hq)
      as (d & t & P & [-> | Q]).
    + exists d, (String (pretty_N_char (N.modulo x 10%N)) s). split; [exact P|]. right. eauto.
    + exists d, t. split; [exact P|]. right. exact Q.
Qed.

Lemma parse_digits_pretty_go x :
  forall s, (0 < x)%N ->
    parse_digits 10 None (pretty_N_go x s) = parse_digits 10 (Some (Z.of_N x)) s.
Proof.
  induction x as [x IH] using (well_founded_induction N.lt_wf_0). intros s Hx.
  rewrite pretty_N_go_step by exact Hx.
  assert (Hm : (N.modulo x 10 < 10)%N) by (apply N.mod_lt; lia).
  pose proof (N.div_mod x 10%N ltac:(lia)) as Hd.
  destruct (N.eq_dec (N.div x 10%N) 0%N) as [E|E].
  - rewrite E, pretty_N_go_0. simpl parse_digits.
    rewrite (digit_of_pretty_char _ Hm). f_equal. f_equal. simpl. lia.
  - assert (Hq : (0 < N.div x 10)%N) by (apply N.neq_0_lt_0; exact E).
    rewrite (IH (N.div x 10%N) (N.div_lt x 10%N Hx eq_refl) _ Hq).
    simpl parse_digits. rewrite (digit_of_pretty_char _ Hm). f_equal. f_equal. simpl. lia.
Qed.

Lemma parseInt_show_nat n : parseInt (Js.show_nat n) = Some (Z.of_nat n).
Proof.
  unfold Js.show_nat, pretty, pretty_nat, pretty, pretty_N.
  destruct (decide (N.of_nat n = 0)%N) as [E|E].
  - replace n with 0%nat by lia. reflexivity.
  - assert (Hx : (0 < N.of_nat n)%N) by lia.
    destruct (pretty_go_shape (N.of_nat n) "" Hx) as (d & t & P & Q).
    pose proof (parse_digits_pretty_go (N.of_nat n) "" Hx) as R.
    rewrite P in R |- *.
    destruct (pretty_char_plain d) as (h1 & h2 & h3 & h4 & h5).
    unfold parseInt. simpl Js.trimStart. rewrite h1.
    assert (U : parse_unsigned (String (pretty_N_char d) t) = Some (Z.of_nat n)).
    { unfold parse_unsigned.
      assert (S1 : Js.startsWith (String (pretty_N_char d) t) "0x" = false).
      { apply prefix_0x_false. destruct Q as [-> | (d' & t' & ->)]; [left; reflexivity|].
        right. eexists _, _. split; [reflexivity|]. apply pretty_char_plain. }
      assert (S2 : Js.startsWith (String (pretty_N_char d) t) "0X" = false).
      { apply prefix_0x_false. destruct Q as [-> | (d' & t' & ->)]; [left; reflexivity|].
        right. eexists _, _. split; [reflexivity|]. apply pretty_char_plain. }
      rewrite S1, S2. simpl orb. cbv iota. rewrite R. simpl. f_equal. lia. }
    destruct (pretty_N_char d) as [b0 b1 b2 b3 b4 b5 b6 b7] eqn:C.
    destruct b0, b1, b2, b3, b4, b5, b6, b7; try exact U; congruence.
Qed.

Lemma wait_step_runs env step manifest p tok w :
  type step = wait_ ->
  fst (throwIfCancelled_opt tok w) = Returned tt ->
  snd (executeStep env step manifest p tok w)
  = snd (wait env (from_option id 0%Z (parseInt (Js.or_else (value step) "500"))) w)
  /\ (fst (executeStep env step manifest p tok w) = Returned ok_result
      \/ fst (executeStep env step manifest p tok w)
         = Thrown (CancellationError "Operation was cancelled"))
  /\ (tok = None -> fst (executeStep env step manifest p tok w) = Returned ok_result).
Proof.
  intros Hty Hpre.
  assert (E : throwIfCancelled_opt tok w = (Returned tt, w)).
  { destruct (throwIfCancelled_opt_cases tok w) as [E|E]; rewrite E in *;
      [reflexivity | discriminate]. }
  unfold executeStep. rewrite (bind_returned _ _ _ _ _ E), Hty.
  set (ms := from_option id 0%Z (parseInt (Js.or_else (value step) "500"))).
  rewrite (bind_returned _ _ _ _ _ (wait_returns env ms w)).
  destruct (throwIfCancelled_opt_cases tok (snd (wait env ms w))) as [E2|E2].
  - rewrite (bind_returned _ _ _ _ _ E2). simpl. repeat split. left. reflexivity.
  - rewrite (bind_thrown _ _ _ _ _ E2). simpl. split; [reflexivity|].
    split; [right; reflexivity|]. intros ->. discriminate E2.
Qed.



(** ** How a label reference is written *)

Lemma keep_if_blank_type o : keep_if (type_ok (Some "")) o = keep_if (type_ok None) o.
Proof. destruct o as [[t | e kids]|]; reflexivity. Qed.

Lemma findByLabel_loop_blank_type r text labels :
  findByLabel_loop r text (Some "") labels = findByLabel_loop r text None labels.
Proof.
  induction labels as [|[label parent] rest IH]; [reflexivity|].
  simpl findByLabel_loop. rewrite IH.
  assert (F : label_for r (Some "") label = label_for r None label).
  { destruct label as [t | e kids]; [reflexivity|].
    unfold label_for. destruct (Js.truthy (htmlFor e)); [|reflexivity].
    apply keep_if_blank_type. }
  assert (A : label_adjacent (Some "") parent = label_adjacent None parent).
  { destruct parent as [q|]; [|reflexivity]. apply keep_if_blank_type. }
  rewrite F, A. reflexivity.
Qed.

(** X27.  How a label reference is read.  A selector that begins with
    [label:] is never handed to the selector engine: [findElement]
    returns without throwing and leaves the world as it is.  What
    follows the prefix up to the first bar is the label text, what lies
    between the first and the second bar is the type, and whatever
    follows a second bar is ignored.  An empty type, as in
    [label:Name|], filters nothing: the reference finds what
    [label:Name] finds. *)
Theorem X27_label_reference_syntax env text w :
  no_bar text = true ->
  (forall sel, Js.startsWith sel "label:" = true ->
               exists found, findElement env sel w = (Returned found, w))
  /\ findElement env ("label:" ++ text) w
     = (Returned (findByLabel (root (page w)) text None), w)
  /\ (forall ty,
         no_bar ty = true ->
         findElement env ("label:" ++ text ++ String "|" ty) w
         = (Returned (findByLabel (root (page w)) text (Some ty)), w)
         /\ forall more,
             findElement env ("label:" ++ text ++ String "|" (ty ++ String "|" more)) w
             = findElement env ("label:" ++ text ++ String "|" ty) w)
  /\ findElement env ("label:" ++ text ++ "|") w = findElement env ("label:" ++ text) w.
Proof.
  intros Ht.
  destruct (findElement_label env text w Ht) as [Hplain Htyped].
  split; [|split; [exact Hplain | split]].
  - intros sel Hsel. unfold findElement. rewrite Hsel. eexists. reflexivity.
  - intros ty Hty. split; [exact (Htyped ty Hty)|].
    intros more. rewrite (Htyped ty Hty). unfold findElement.
    rewrite startsWith_label.
    change (Js.slice 6 ("label:" ++ text ++ String "|" (ty ++ String "|" more)))
      with (text ++ String "|" (ty ++ String "|" more))%string.
    unfold Js.split. rewrite (split_on_bar text EmptyString _ Ht).
    unfold Js.split. rewrite (split_on_bar ty EmptyString more Hty). reflexivity.
  - rewrite (Htyped EmptyString eq_refl), Hplain. unfold findByLabel.
    rewrite findByLabel_loop_blank_type. reflexivity.
Qed.

Lemma X27_label_reference_syntax_witness :
  no_bar "Full Name" = true
  /\ fst (findElement (Sample.quiet None) "label:Full Name|text|ignored"
            (Sample.world Sample.name_form))
     = Returned (Some (ElementNode (Sample.element 2 "input" "f1" "text" "") []))
  /\ findElement (Sample.quiet None) "label:Full Name|" (Sample.world Sample.name_form)
     = findElement (Sample.quiet None) "label:Full Name" (Sample.world Sample.name_form).
Proof.
  split; [reflexivity|].
  destruct (X27_label_reference_syntax (Sample.quiet None) "Full Name"
              (Sample.world Sample.name_form) eq_refl) as (_ & _ & Hty & Hblank).
  split; [|exact Hblank].
  destruct (Hty "text" eq_refl) as [_ Hmore].
  change "label:Full Name|text|ignored"
    with ("label:" ++ "Full Name" ++ String "|" ("text" ++ String "|" "ignored"))%string.
  rewrite (Hmore "ignored"). vm_compute. reflexivity.
Defined.

(** ** The manifest cache *)

Lemma loadManifest_cached env sources w m :
  cachedManifest w = Some m ->
  loadManifest env sources w = (Returned (Some m), w).
Proof.
  intros Hc. unfold loadManifest.
  rewrite (bind_returned _ _ w (Some m) w) by (unfold gets; congruence).
  reflexivity.
Qed.

(** X28.  The manifest is looked for until it is found, and then no
    more.  [loadManifest] never throws, and what it returns is what the
    cache holds afterwards.  With a manifest cached it returns that one
    and does nothing else; with none cached it returns the injected
    manifest, else the one parsed from the script tag, else the one
    fetched, and only the fetch makes it yield.  A manifest once
    returned is returned by every later call in that state, whatever the
    page then offers, and [executePlan] runs with it; a call that found
    nothing leaves the cache empty, so that a later call looks again. *)
Theorem X28_manifest_is_loaded_once env sources w :
  exists found w1,
    loadManifest env sources w = (Returned found, w1)
    /\ cachedManifest w1 = found
    /\ (forall m, cachedManifest w = Some m -> found = Some m /\ w1 = w)
    /\ (cachedManifest w = None ->
        found = match injected sources, script_tag sources with
                | Some m, _ => Some m
                | None, Some (Some m) => Some m
                | None, _ => fetched sources
                end
        /\ (injected sources <> None \/ (exists m, script_tag sources = Some (Some m)) ->
            w1 = set_cachedManifest found w))
    /\ (forall m,
           found = Some m ->
           (forall sources', loadManifest env sources' w1 = (Returned (Some m), w1))
           /\ forall p onProgress tok,
               executePlan env p onProgress tok w1
               = executeFromStep env (set_currentStep 0 (set_status executing p)) m
                   onProgress tok w1)
    /\ (found = None ->
        forall sources' m,
          injected sources' = Some m ->
          fst (loadManifest env sources' w1) = Returned (Some m)).
Proof.
  assert (Hafter : forall found w1,
             cachedManifest w1 = found ->
             (forall m,
                 found = Some m ->
                 (forall sources', loadManifest env sources' w1 = (Returned (Some m), w1))
                 /\ forall p onProgress tok,
                     executePlan env p onProgress tok w1
                     = executeFromStep env (set_currentStep 0 (set_status executing p)) m
                         onProgress tok w1)
             /\ (found = None ->
                 forall sources' m,
                   injected sources' = Some m ->
                   fst (loadManifest env sources' w1) = Returned (Some m))).
  { intros found w1 Hc. split.
    - intros m ->. split.
      + intros sources'. apply loadManifest_cached. exact Hc.
      + intros p onProgress tok. apply executePlan_loaded. exact Hc.
    - intros -> sources' m Hi. unfold loadManifest.
      rewrite (bind_returned _ _ w1 None w1) by (unfold gets; congruence).
      rewrite Hi. reflexivity. }
  destruct (cachedManifest w) as [m0|] eqn:Hc.
  - exists (Some m0), w. split; [apply loadManifest_cached; exact Hc|].
    split; [exact Hc|]. split.
    { intros m Hm. injection Hm as <-. split; reflexivity. }
    split; [discriminate|]. apply Hafter. exact Hc.
  - unfold loadManifest.
    rewrite (bind_returned _ _ w None w) by (unfold gets; congruence).
    destruct (injected sources) as [mi|] eqn:Hi.
    { exists (Some mi), (set_cachedManifest (Some mi) w). split; [reflexivity|].
      split; [reflexivity|]. split; [discriminate|].
      split; [intros _; split; reflexivity|]. apply Hafter. reflexivity. }
    destruct (script_tag sources) as [[ms|]|] eqn:Hs.
    { exists (Some ms), (set_cachedManifest (Some ms) w). split; [reflexivity|].
      split; [reflexivity|]. split; [discriminate|].
      split; [intros _; split; reflexivity|]. apply Hafter. reflexivity. }
    all: cbv zeta iota;
      destruct (wait_frame env 0 w) as (w1 & W & f1 & f2 & f3 & f4); unfold wait in W;
      rewrite (bind_returned _ _ w (fetched sources) w1)
        by (rewrite (bind_returned _ _ _ _ _ W); reflexivity);
      destruct (fetched sources) as [mf|].
    all: try (exists (Some mf), (set_cachedManifest (Some mf) w1); split; [reflexivity|];
              split; [reflexivity|]; split; [discriminate|];
              split; [intros _; split; [reflexivity|];
                      intros [H | (m & H)]; [congruence | discriminate]|];
              apply Hafter; reflexivity).
    all: exists None, w1; split; [reflexivity|];
      split; [congruence|]; split; [discriminate|];
      split; [intros _; split; [reflexivity|];
              intros [H | (m & H)]; [congruence | discriminate]|];
      apply Hafter; congruence.
Qed.
